(** * cobaya.collection: sample collections and the single-point holders

    A shallow embedding of [cobaya/collection.py]: the bounds checks
    [check_index] and [check_slice], the [Collection] class (a growable
    [pandas.DataFrame] with a logical length [_n], a scratch dictionary
    [_value_dict] and the text output driver), its subclass [OnePoint], and
    [OneSamplePoint] with its output thinning.

    Python integers are [Z] (lengths and row positions are [nat]), floats are
    binary64 primitive floats, a Python number is a [pynum].  A method that
    may raise returns a [result]; a method that mutates [self] threads the
    object through, and the object keeps whatever was mutated before a
    raise. *)

From Stdlib Require Import ZArith List String Lia Bool Floats.
From stdpp Require Import base list strings.

Open Scope Z_scope.

(** ** Exceptions *)

(** The messages of the [LoggedError]s raised in [collection.py]. *)
Inductive logged_msg : Type :=
| MsgUnexpectedColumns
| MsgNoContinuation
| MsgNeedLogpost                       (* "If a log-posterior is not specified, ..." *)
| MsgSampledArity (got expected : nat) (* "Got %d values for the sampled parameters. ..." *)
| MsgDerivedArity (got expected : nat) (* "Got %d values for the derived parameters. ..." *)
| MsgNeedLimits.                       (* "Needs to specify the limit n's to dump." *)

Inductive exn : Type :=
| IndexError
| TypeError
| ValueError
| KeyError
| OverflowError
| LoggedError (msg : logged_msg).

Inductive result (A : Type) : Type :=
| OK (a : A)
| Raise (e : exn).
Arguments OK {A} a.
Arguments Raise {A} e.

(** ** Python numbers *)

Inductive pynum : Type :=
| PyInt (z : Z)
| PyFloat (f : float).

(** Conversion of an integer to binary64, rounding to nearest even. *)
Definition float_of_Z (z : Z) : float :=
  SF2Prim (binary_normalize prec emax z 0 false).

Definition to_float64 (x : pynum) : float :=
  match x with
  | PyInt z => float_of_Z z
  | PyFloat f => f
  end.

(** Whether Python converts the number to a float: an integer whose nearest
    float is not finite raises [OverflowError] ("int too large to convert to
    float") instead.  The conversions to an array and the additions to a
    float check it before they use [to_float64]. *)
Definition fits_float64 (x : pynum) : bool :=
  match x with
  | PyInt z => negb (is_infinity (float_of_Z z))
  | PyFloat _ => true
  end.

Definition py_add (x y : pynum) : pynum :=
  match x, y with
  | PyInt a, PyInt b => PyInt (a + b)
  | _, _ => PyFloat (to_float64 x + to_float64 y)
  end.

Definition py_mul (x y : pynum) : pynum :=
  match x, y with
  | PyInt a, PyInt b => PyInt (a * b)
  | _, _ => PyFloat (to_float64 x * to_float64 y)
  end.

Definition py_neg (x : pynum) : pynum :=
  match x with
  | PyInt a => PyInt (- a)
  | PyFloat f => PyFloat (- f)
  end.

(** [sum(xs)]: starts from the integer [0] and adds from the left;
    [sum(None)] raises [TypeError] (None is not iterable). *)
Definition py_sum_list (l : list float) : pynum :=
  fold_left (fun acc x => py_add acc (PyFloat x)) l (PyInt 0).

Definition py_sum (xs : option (list float)) : result pynum :=
  match xs with
  | None => Raise TypeError
  | Some l => OK (py_sum_list l)
  end.

(** ** Arguments of [add] *)

(** The keyword arguments of [Collection.add] other than [weight]. *)
Record add_kwargs : Type := mk_kwargs {
  kw_derived : option (list float);
  kw_logpost : option float;
  kw_logpriors : option (list float);
  kw_loglikes : option (list float)
}.

(** What [add_to_collection] needs of its argument: an [add] method. *)
Class HasAdd (C : Type) : Type :=
  coll_add : C -> list float -> pynum -> add_kwargs -> result unit * C.

(** ** OneSamplePoint *)

Module OneSamplePoint.

Record t : Type := mk {
  values : list float;
  kwargs : add_kwargs;
  weight : Z;
  output_thin : Z;
  _added_weight : Z
}.

Definition empty_kwargs : add_kwargs := mk_kwargs None None None None.

(** [__init__]; [values], [kwargs] and [weight] are set by the first [add]. *)
Definition init (output_thin : Z) : t :=
  mk [] empty_kwargs 0 output_thin 0.

Definition add (p : t) (vals : list float) (w : Z) (kw : add_kwargs) : t :=
  mk vals kw w (output_thin p) (_added_weight p).

Definition set_added_weight (p : t) (a : Z) : t :=
  mk (values p) (kwargs p) (weight p) (output_thin p) a.

Section AddToCollection.
Context {C : Type} `{HasAdd C}.

(** The last two lines of [add_to_collection]. *)
Definition commit (p : t) (w : Z) (collection : C) : result bool * t * C :=
  match coll_add collection (values p) (PyInt w) (kwargs p) with
  | (OK _, collection') => (OK true, p, collection')
  | (Raise e, collection') => (Raise e, p, collection')
  end.

Definition add_to_collection (p : t) (collection : C) : result bool * t * C :=
  if 1 <? output_thin p then
    let p1 := set_added_weight p (_added_weight p + weight p) in
    if output_thin p1 <=? _added_weight p1 then
      let w := _added_weight p1 / output_thin p1 in
      let p2 := set_added_weight p1 (_added_weight p1 mod output_thin p1) in
      commit p2 w collection
    else (OK false, p1, collection)
  else commit p (weight p) collection.

End AddToCollection.

(** A collection that only records the weights it is given, oldest first. *)
#[export] Instance weight_log : HasAdd (list Z) :=
  fun log _ w _ =>
    match w with
    | PyInt z => (OK tt, log ++ [z])
    | PyFloat _ => (Raise TypeError, log)
    end.

(** The sampler's loop over a run of raw weights: set the point, then try to
    add it to the collection. *)
Fixpoint run (p : t) (log : list Z) (ws : list Z) : t * list Z :=
  match ws with
  | [] => (p, log)
  | w :: ws' =>
      let '(_, p', log') := add_to_collection (add p [] w empty_kwargs) log in
      run p' log' ws'
  end.

Definition sumZ (l : list Z) : Z := fold_right Z.add 0 l.

End OneSamplePoint.

(** ** Bounds checks *)

(** [check_index(i, imax)]: the row position for the integer index [i] of a
    collection of [imax] samples. *)
Definition check_index (i imax : Z) : result Z :=
  if ((0 <? i) && (imax <=? i)) || ((i <? 0) && (imax <? - i)) then
    Raise IndexError
  else if i <? 0 then OK (imax + i)
  else OK i.

(** A Python [slice] object: each of its three fields is an integer or
    [None]. *)
Record pyslice : Type := mk_slice {
  slice_start : option Z;
  slice_stop : option Z;
  slice_step : option Z
}.

(** The body of the loop of [check_slice] for one limit.  The comparison
    [lim >= 0] raises [TypeError] when [lim] is [None]. *)
Definition check_lim (lim : option Z) (imax : Z) : result Z :=
  match lim with
  | None => Raise TypeError
  | Some l => if 0 <=? l then OK (Z.min imax l) else OK (imax + l)
  end.

(** [check_slice(ij, imax)]; the loop visits ["start"], then ["stop"]. *)
Definition check_slice (ij : pyslice) (imax : Z) : result pyslice :=
  match check_lim (slice_start ij) imax with
  | Raise e => Raise e
  | OK new_start =>
      match check_lim (slice_stop ij) imax with
      | Raise e => Raise e
      | OK new_stop =>
          OK (mk_slice (Some new_start) (Some new_stop) (slice_step ij))
      end
  end.

(** ** Positional access to the rows of a data frame *)

Abbreviation row := (list float) (only parsing).
Abbreviation frame := (list (list float)) (only parsing).

(** [df.iloc[k]] for an integer [k]: positions count from the end when
    negative, and a position outside the frame raises [IndexError]. *)
Definition iloc_int (df : frame) (k : Z) : result row :=
  let len := Z.of_nat (length df) in
  if (k <? - len) || (len <=? k) then Raise IndexError
  else
    match df !! Z.to_nat (if k <? 0 then len + k else k) with
    | Some r => OK r
    | None => Raise IndexError
    end.

(** [slice.indices(len)]: the start, stop and step a slice stands for on a
    sequence of [len] items. *)
Definition adjust_limit (lim : option Z) (len step : Z) (default : Z) : Z :=
  match lim with
  | None => default
  | Some l =>
      if l <? 0 then
        (if l + len <? 0 then (if step <? 0 then -1 else 0) else l + len)
      else if len <=? l then (if step <? 0 then len - 1 else len)
      else l
  end.

Definition slice_indices (s : pyslice) (len : Z) : result (Z * Z * Z) :=
  let step := default 1 (slice_step s) in
  if step =? 0 then Raise ValueError
  else
    OK (adjust_limit (slice_start s) len step (if step <? 0 then len - 1 else 0),
        adjust_limit (slice_stop s) len step (if step <? 0 then -1 else len),
        step).

Definition range_len (start stop step : Z) : Z :=
  if 0 <? step then
    (if start <? stop then (stop - start - 1) / step + 1 else 0)
  else
    (if stop <? start then (start - stop - 1) / (- step) + 1 else 0).

Definition py_range (start stop step : Z) : list Z :=
  map (fun k => start + Z.of_nat k * step)
      (seq 0 (Z.to_nat (range_len start stop step))).

(** [df.iloc[s]] for a slice [s]: never out of range, the limits are clipped
    to the frame. *)
Definition iloc_slice (df : frame) (s : pyslice) : result frame :=
  match slice_indices s (Z.of_nat (length df)) with
  | Raise e => Raise e
  | OK (start, stop, step) =>
      OK (omap (fun k => df !! Z.to_nat k) (py_range start stop step))
  end.

(** [df.iloc[i] = arr]: the position must exist and [arr] must have one
    value per column. *)
Definition iloc_set (df : frame) (ncols i : nat) (arr : row) : result frame :=
  if decide (i < length df)%nat then
    if decide (length arr = ncols) then OK (<[i := arr]> df)
    else Raise ValueError
  else Raise IndexError.

(** [pd.DataFrame(np.nan, columns=..., index=...)] with [k] index labels. *)
Definition nan_frame (ncols k : nat) : frame :=
  replicate k (replicate ncols nan).

(** ** Ordered dictionaries

    A Python dictionary keeps its keys in the order of their first
    insertion; assigning to a key it has keeps the key's place. *)

Abbreviation pydict := (list (string * pynum)) (only parsing).

Fixpoint dict_set (d : pydict) (k : string) (v : pynum) : pydict :=
  match d with
  | [] => [(k, v)]
  | (k', v') :: d' =>
      if String.eqb k' k then (k', v) :: d' else (k', v') :: dict_set d' k v
  end.

Fixpoint dict_get (d : pydict) (k : string) : option pynum :=
  match d with
  | [] => None
  | (k', v') :: d' => if String.eqb k' k then Some v' else dict_get d' k
  end.

Definition dict_keys (d : pydict) : list string := map fst d.
Definition dict_values (d : pydict) : list pynum := map snd d.

(** [for name, value in zip(names, vals): dic[name] = f(value)]. *)
Definition dict_set_zip (f : float -> pynum) (d : pydict)
    (names : list string) (vals : list float) : pydict :=
  fold_left (fun d' nv => dict_set d' (fst nv) (f (snd nv))) (zip names vals) d.

(** The values of the dictionary as float64, in its order. *)
Definition values_array (d : pydict) : row := map to_float64 (dict_values d).

(** [np.array(list(dic.values()))].  The values are floats and integers, and
    the array is of dtype float64: an integer too large for a float raises
    [OverflowError]. *)
Definition np_array (d : pydict) : result row :=
  if forallb fits_float64 (dict_values d) then OK (values_array d)
  else Raise OverflowError.

(** ** numpy.arange *)

(** The ceiling of a finite binary64 number. *)
Definition ceil_SF (x : spec_float) : option Z :=
  match x with
  | S754_zero _ => Some 0
  | S754_finite s m e =>
      let n := if s then Z.neg m else Z.pos m in
      Some (if 0 <=? e then n * 2 ^ e else - ((- n) / 2 ^ (- e)))
  | S754_infinity _ | S754_nan => None
  end.

(** The largest value of numpy's index type. *)
Definition intp_max : Z := 2 ^ 63 - 1.

(** The number of points of [np.arange(start, stop)] for an integer [start]
    and a float [stop]: the ceiling of [(stop - start) / 1], none when that
    is not positive; [ValueError] when it is not a number ("cannot compute
    length") and when it does not fit the index type ("Maximum allowed size
    exceeded"). *)
Definition arange_len_float (start : Z) (stop : float) : result nat :=
  let span := ((stop - float_of_Z start) / float_of_Z 1)%float in
  match ceil_SF (Prim2SF span) with
  | Some k =>
      if (k <? - intp_max - 1) || (intp_max <? k) then Raise ValueError
      else OK (Z.to_nat k)
  | None => Raise ValueError
  end.

(** [np.arange(start, start + by)] for integers. *)
Definition arange_len_int (by_ : Z) : nat := Z.to_nat by_.

(** ** Methods that mutate and may raise *)

(** A method over a mutable object of type [S]: it returns a value or
    raises, and in both cases leaves the object as mutated so far. *)
Definition SE (S A : Type) : Type := S -> result A * S.

Definition se_ret {S A} (a : A) : SE S A := fun s => (OK a, s).
Definition se_raise {S A} (e : exn) : SE S A := fun s => (Raise e, s).
Definition se_bind {S A B} (m : SE S A) (k : A -> SE S B) : SE S B :=
  fun s =>
    match m s with
    | (OK a, s') => k a s'
    | (Raise e, s') => (Raise e, s')
    end.
Definition se_get {S} : SE S S := fun s => (OK s, s).
Definition se_modify {S} (f : S -> S) : SE S unit := fun s => (OK tt, f s).
Definition se_lift {S A} (r : result A) : SE S A := fun s => (r, s).

Notation "'do' x <- m ; k" := (se_bind m (fun x => k))
  (at level 10, x name, m at level 100, k at level 200).
Notation "m ;; k" := (se_bind m (fun _ => k))
  (at level 100, k at level 200, right associativity).

Definition res_bind {A B} (r : result A) (k : A -> result B) : result B :=
  match r with
  | OK a => k a
  | Raise e => Raise e
  end.

(** [try: body / except ValueError: handler]. *)
Definition try_except_ValueError {A} (body handler : result A) : result A :=
  match body with
  | Raise ValueError => handler
  | _ => body
  end.

(** ** Column names *)

(** Modelled from the spec: the constants [_weight], [_minuslogpost],
    [_minuslogprior], [_chi2] and [_separator] that [collection.py] imports
    from [cobaya.conventions], which is not among the sources.  The names are
    those of the spec's column schema ([weight], [minus_log_posterior],
    [minus_log_prior], [chi2]); the separator is the one of its component
    columns [minus_log_prior__<prior_i>] and [chi2__<likelihood_j>]. *)
Definition _weight : string := "weight".
Definition _minuslogpost : string := "minus_log_posterior".
Definition _minuslogprior : string := "minus_log_prior".
Definition _chi2 : string := "chi2".
Definition _separator : string := "__".

(** What the collections read of the model: the names of its sampled and
    derived parameters, of its priors and of its likelihoods, in order. *)
Record model : Type := mk_model {
  model_sampled_params : list string;
  model_derived_params : list string;
  model_prior : list string;
  model_likelihood : list string
}.

(** The module-level settings [enlargement_size] and [enlargement_factor]. *)
Record globals : Type := mk_globals {
  enlargement_size : Z;
  enlargement_factor : option float
}.

Definition default_globals : globals := mk_globals 100 None.

(** The truth value of [enlargement_factor]: [None] and zero are false. *)
Definition factor_if_true (g : globals) : option float :=
  match enlargement_factor g with
  | Some f => if is_zero f then None else Some f
  | None => None
  end.

(** ** The output file *)

Inductive driver_kind : Type := Txt | Dummy.

(** A line of the text file.  [DataFrame.to_string] of a frame without rows
    gives the text [Empty DataFrame ...] instead of a table; the flag tells
    whether the comment marker was put before it. *)
Inductive line : Type :=
| HeaderLine (names : list string)
| DataLine (cells : row)
| EmptyFrameText (marked : bool).

Definition to_string (rows : frame) (names : list string) (header : bool)
    : list line :=
  match rows with
  | [] => [EmptyFrameText header]
  | _ => (if header then [HeaderLine names] else []) ++ map DataLine rows
  end.

Definition is_header (l : line) : bool :=
  match l with HeaderLine _ => true | _ => false end.

Definition count_headers (f : option (list line)) : nat :=
  length (List.filter is_header (default [] f)).

(** ** Collection *)

Module Collection.

Record t : Type := mk {
  sampled_params : list string;
  derived_params : list string;
  minuslogprior_names : list string;
  chi2_names : list string;
  columns : list string;
  _value_dict : pydict;
  data : frame;
  _n : nat;
  driver : driver_kind;
  (* only set, and only read, when there is an output *)
  _n_last_out : nat;
  (* the file [file_name], [None] when there is none *)
  file : option (list line)
}.

Definition set_value_dict (s : t) (d : pydict) : t :=
  mk (sampled_params s) (derived_params s) (minuslogprior_names s)
     (chi2_names s) (columns s) d (data s) (_n s) (driver s)
     (_n_last_out s) (file s).
Definition set_data (s : t) (df : frame) : t :=
  mk (sampled_params s) (derived_params s) (minuslogprior_names s)
     (chi2_names s) (columns s) (_value_dict s) df (_n s) (driver s)
     (_n_last_out s) (file s).
Definition set_n (s : t) (n : nat) : t :=
  mk (sampled_params s) (derived_params s) (minuslogprior_names s)
     (chi2_names s) (columns s) (_value_dict s) (data s) n (driver s)
     (_n_last_out s) (file s).
Definition set_n_last_out (s : t) (n : nat) : t :=
  mk (sampled_params s) (derived_params s) (minuslogprior_names s)
     (chi2_names s) (columns s) (_value_dict s) (data s) (_n s) (driver s)
     n (file s).
Definition set_file (s : t) (f : option (list line)) : t :=
  mk (sampled_params s) (derived_params s) (minuslogprior_names s)
     (chi2_names s) (columns s) (_value_dict s) (data s) (_n s) (driver s)
     (_n_last_out s) f.

(** The columns built by [BaseCollection.__init__]. *)
Definition prefixed (p : string) (names : list string) : list string :=
  map (fun nm => p +:+ _separator +:+ nm) names.

Definition base_columns (m : model) : list string :=
  let chi2s := prefixed _chi2 (model_likelihood m) in
  [_weight; _minuslogpost]
    ++ model_sampled_params m
    ++ filter (fun p => p ∉ chi2s) (model_derived_params m)
    ++ (_minuslogprior :: prefixed _minuslogprior (model_prior m))
    ++ (_chi2 :: chi2s).

(** [{p: np.nan for p in self.columns}]. *)
Definition nan_dict (cols : list string) : pydict :=
  fold_left (fun d p => dict_set d p (PyFloat nan)) cols [].

(** [__init__] of a new collection ([resuming] and [load] false).  [output]
    is the driver the output gives, if there is an output, and [fs] what the
    file holds before. *)
Definition init (m : model) (output : option driver_kind) (initial_size : nat)
    (fs : option (list line)) : t :=
  let cols := base_columns m in
  let drv := default Dummy output in
  mk (model_sampled_params m) (model_derived_params m)
     (prefixed _minuslogprior (model_prior m))
     (prefixed _chi2 (model_likelihood m))
     cols (nan_dict cols)
     (* reset(columns=self.columns, index=range(initial_size)) *)
     (nan_frame (length cols) initial_size) 0
     drv 0
     (* _out_delete() *)
     (match drv with Txt => None | Dummy => fs end).

(** [reset]; [index] is the number of labels of the new index. *)
Definition reset (index : option nat) (self : t) : t :=
  let k := default (length (data self)) index in
  set_n (set_data self (nan_frame (length (columns self)) k)) 0.

Definition __len__ (self : t) : nat := _n self.

(** The log-posterior [_add_dict] goes on with: the one given, or else the
    sum of the sums inside the [try]. *)
Definition logpost_or_sum (logpost : option float)
    (logpriors loglikes : option (list float)) : result pynum :=
  match logpost with
  | Some lp => OK (PyFloat lp)
  | None =>
      try_except_ValueError
        (res_bind (py_sum logpriors) (fun a =>
         res_bind (py_sum loglikes) (fun b => OK (py_add a b))))
        (Raise (LoggedError MsgNeedLogpost))
  end.

Definition _add_dict (self : t) (values : list float)
    (derived : option (list float)) (weight : pynum) (logpost : option float)
    (logpriors loglikes : option (list float)) : SE pydict unit :=
  se_modify (fun dic => dict_set dic _weight weight) ;;
  do logpost' <- se_lift (logpost_or_sum logpost logpriors loglikes) ;
  se_modify (fun dic => dict_set dic _minuslogpost (py_neg logpost')) ;;
  match logpriors with
  | Some lp =>
      se_modify (fun dic =>
        dict_set_zip (fun v => py_neg (PyFloat v)) dic
          (minuslogprior_names self) lp) ;;
      se_modify (fun dic => dict_set dic _minuslogprior (py_neg (py_sum_list lp)))
  | None => se_ret tt
  end ;;
  match loglikes with
  | Some ll =>
      se_modify (fun dic =>
        dict_set_zip (fun v => py_mul (PyInt (-2)) (PyFloat v)) dic
          (chi2_names self) ll) ;;
      se_modify (fun dic =>
        dict_set dic _chi2 (py_mul (PyInt (-2)) (py_sum_list ll)))
  | None => se_ret tt
  end ;;
  if decide (length values ≠ length (sampled_params self)) then
    se_raise (LoggedError
      (MsgSampledArity (length values) (length (sampled_params self))))
  else
    se_modify (fun dic =>
      dict_set_zip PyFloat dic (sampled_params self) values) ;;
    match derived with
    | Some dv =>
        if decide (length dv ≠ length (derived_params self)) then
          se_raise (LoggedError
            (MsgDerivedArity (length dv) (length (derived_params self))))
        else
          se_modify (fun dic =>
            dict_set_zip PyFloat dic (derived_params self) dv)
    | None => se_ret tt
    end.

Definition _enlarge_if_needed (g : globals) : SE t unit :=
  do self <- se_get ;
  if decide (length (data self) <= _n self)%nat then
    do new_rows <-
      se_lift
        match factor_if_true g with
        | Some f =>
            let enlarge_by :=
              (float_of_Z (Z.of_nat (length (data self))) * f)%float in
            arange_len_float (Z.of_nat (__len__ self))
              (float_of_Z (Z.of_nat (__len__ self)) + enlarge_by)%float
        | None =>
            let enlarge_by := enlargement_size g in
            OK (arange_len_int enlarge_by)
        end ;
    se_modify (fun self =>
      set_data self
        (data self ++ nan_frame (length (columns self)) new_rows))
  else se_ret tt.

(** The call of [_add_dict] on [self._value_dict]: the dictionary is the
    object's own, so what the call assigned stays when it raises. *)
Definition on_value_dict {A} (m : t -> SE pydict A) : SE t A :=
  fun self =>
    let '(r, d) := m self (_value_dict self) in
    (r, set_value_dict self d).

Definition add (g : globals) (values : list float)
    (derived : option (list float)) (weight : pynum) (logpost : option float)
    (logpriors loglikes : option (list float)) : SE t unit :=
  _enlarge_if_needed g ;;
  on_value_dict (fun self =>
    _add_dict self values derived weight logpost logpriors loglikes) ;;
  do self <- se_get ;
  do arr <- se_lift (np_array (_value_dict self)) ;
  do df <- se_lift (iloc_set (data self) (length (columns self)) (_n self)
                      arr) ;
  se_modify (fun self => set_n (set_data self df) (S (_n self))).

End Collection.

(** ** Reading a collection *)

Module Access.
Import Collection.

(** The argument of [__getitem__]. *)
Inductive key : Type :=
| KeyStr (name : string)
| KeyNames (names : list string)
| KeyInt (i : Z)
| KeySlice (s : pyslice)
| KeyOther.

(** What [__getitem__] returns: a column, a frame or a row. *)
Inductive item : Type :=
| ItemColumn (c : list float)
| ItemFrame (f : frame)
| ItemRow (r : row).

(** [columns.get_loc(name)]. *)
Fixpoint get_loc (cols : list string) (name : string) : result nat :=
  match cols with
  | [] => Raise KeyError
  | c :: cols' =>
      if String.eqb c name then OK 0%nat
      else res_bind (get_loc cols' name) (fun j => OK (S j))
  end.

Fixpoint get_locs (cols : list string) (names : list string)
    : result (list nat) :=
  match names with
  | [] => OK []
  | nm :: names' =>
      res_bind (get_loc cols nm) (fun j =>
      res_bind (get_locs cols names') (fun js => OK (j :: js)))
  end.

(** [df.iloc[:n, j]] and [df.iloc[:n, js]]. *)
Definition iloc_column (df : frame) (n j : nat) : result (list float) :=
  match mapM (fun r : row => r !! j) (take n df) with
  | Some c => OK c
  | None => Raise IndexError
  end.

Definition iloc_columns (df : frame) (n : nat) (js : list nat)
    : result frame :=
  match mapM (fun r : row => mapM (fun j => r !! j) js) (take n df) with
  | Some f => OK f
  | None => Raise IndexError
  end.

(** [Collection.__getitem__], called with one argument. *)
Definition __getitem__ (self : t) (k : key) : result item :=
  match k with
  | KeyStr name =>
      res_bind (get_loc (columns self) name) (fun j =>
      res_bind (iloc_column (data self) (_n self) j) (fun c =>
      OK (ItemColumn c)))
  | KeyNames names =>
      match get_locs (columns self) names with
      | Raise KeyError => Raise ValueError
      | Raise e => Raise e
      | OK js =>
          res_bind (iloc_columns (data self) (_n self) js) (fun f =>
          OK (ItemFrame f))
      end
  | KeyInt i =>
      res_bind (check_index i (Z.of_nat (_n self))) (fun pos =>
      res_bind (iloc_int (data self) pos) (fun r => OK (ItemRow r)))
  | KeySlice s =>
      res_bind (check_slice s (Z.of_nat (_n self))) (fun s' =>
      res_bind (iloc_slice (data self) s') (fun f => OK (ItemFrame f)))
  | KeyOther => Raise ValueError
  end.

(** The cell of row [i] in the column [name], as the table holds it. *)
Definition cell (self : t) (i : nat) (name : string) : option float :=
  match get_loc (columns self) name with
  | OK j => r ← data self !! i; r !! j
  | Raise _ => None
  end.

End Access.

(** ** The text driver *)

Module TxtDriver.
Import Collection.

Definition n_last_out (self : t) : nat := _n_last_out self.

Definition _dump_slice__txt (n_min n_max : option nat) : SE t unit :=
  match n_min, n_max with
  | Some n_min, Some n_max =>
      do self <- se_get ;
      if decide (_n_last_out self = n_max) then se_ret tt
      else
        se_modify (fun self => set_n_last_out self n_max) ;;
        let do_header := bool_decide (n_min = 0%nat) in
        se_modify (fun self =>
          let lines :=
            to_string (drop n_min (take n_max (data self))) (columns self)
              do_header in
          (* open(self.file_name, "a") ... out.write(lines + "\n") *)
          set_file self (Some (default [] (file self) ++ lines)))
  | _, _ => se_raise (LoggedError MsgNeedLimits)
  end.

Definition _dump__txt : SE t unit :=
  do self <- se_get ; _dump_slice__txt (Some 0%nat) (Some (__len__ self)).

Definition _update__txt : SE t unit :=
  do self <- se_get ;
  _dump_slice__txt (Some (n_last_out self)) (Some (__len__ self)).

Definition _delete__txt : SE t unit :=
  se_modify (fun self => set_file self None).

(** The dispatch on [self.driver]. *)
Definition _out_dump : SE t unit :=
  do self <- se_get ;
  match driver self with Txt => _dump__txt | Dummy => se_ret tt end.

Definition _out_update : SE t unit :=
  do self <- se_get ;
  match driver self with Txt => _update__txt | Dummy => se_ret tt end.

Definition _out_delete : SE t unit :=
  do self <- se_get ;
  match driver self with Txt => _delete__txt | Dummy => se_ret tt end.

End TxtDriver.

(** ** OnePoint *)

Module OnePoint.
Import Collection.

(** [__init__]: a collection of initial size one. *)
Definition init (m : model) (output : option driver_kind)
    (fs : option (list line)) : t :=
  Collection.init m output 1 fs.

(** [add]: the parent's [add], then the counter is put back to zero. *)
Definition add (g : globals) (values : list float)
    (derived : option (list float)) (weight : pynum) (logpost : option float)
    (logpriors loglikes : option (list float)) : SE t unit :=
  Collection.add g values derived weight logpost logpriors loglikes ;;
  se_modify (fun self => set_n self 0).

(** [__getitem__]: the values of the first row for the given column(s). *)
Definition getitem_str (self : t) (name : string) : result float :=
  res_bind (Access.get_loc (columns self) name) (fun j =>
  match r ← data self !! 0%nat; r !! j with
  | Some x => OK x
  | None => Raise IndexError
  end).

Definition getitem_names (self : t) (names : list string)
    : result (list float) :=
  match Access.get_locs (columns self) names with
  | Raise KeyError => Raise ValueError
  | Raise e => Raise e
  | OK js =>
      match r ← data self !! 0%nat; mapM (fun j => r !! j) js with
      | Some xs => OK xs
      | None => Raise IndexError
      end
  end.

(** [increase_weight]: [self.data.at[0, _weight] += increase]; the cell
    is read, the increase added to the float read, the sum written. *)
Definition increase_weight (increase : pynum) : SE t unit :=
  do self <- se_get ;
  do j <- se_lift (Access.get_loc (columns self) _weight) ;
  match data self !! 0%nat with
  | Some r =>
      match r !! j with
      | Some w =>
          if fits_float64 increase then
            se_modify (fun self =>
              set_data self
                (<[0%nat := <[j := (w + to_float64 increase)%float]> r]>
                   (data self)))
          else se_raise OverflowError
      | None => se_raise KeyError
      end
  | None => se_raise KeyError
  end.

(** [_update__txt]: the one row, whatever the counter says. *)
Definition _update__txt : SE t unit :=
  TxtDriver._dump_slice__txt (Some 0%nat) (Some 1%nat).

Definition _out_update : SE t unit :=
  do self <- se_get ;
  match driver self with Txt => _update__txt | Dummy => se_ret tt end.

End OnePoint.

(** [Collection] and [OnePoint] both have the [add] that
    [OneSamplePoint.add_to_collection] calls; the settings of the module are
    fixed with the collection. *)
#[export] Instance collection_has_add : HasAdd (globals * Collection.t) :=
  fun gc values weight kw =>
    let '(r, c) :=
      Collection.add (fst gc) values (kw_derived kw) weight (kw_logpost kw)
        (kw_logpriors kw) (kw_loglikes kw) (snd gc) in
    (r, (fst gc, c)).

(** ** Well-formed collections *)

(** What [__init__] establishes and every method keeps: the columns are
    those built from the names, and the scratch dictionary has the keys it
    was created with. *)
Definition columns_of (c : Collection.t) : list string :=
  [_weight; _minuslogpost]
    ++ Collection.sampled_params c
    ++ filter (fun p => p ∉ Collection.chi2_names c) (Collection.derived_params c)
    ++ (_minuslogprior :: Collection.minuslogprior_names c)
    ++ (_chi2 :: Collection.chi2_names c).

Definition inv (c : Collection.t) : Prop :=
  Collection.columns c = columns_of c /\
  dict_keys (Collection._value_dict c) =
    dict_keys (Collection.nan_dict (Collection.columns c)).

(** The span [np.arange] measures when the table of [c] grows by a fraction
    [f] of its rows. *)
Definition growth_span (c : Collection.t) (f : float) : float :=
  ((float_of_Z (Z.of_nat (Collection.__len__ c))
    + float_of_Z (Z.of_nat (length (Collection.data c))) * f
    - float_of_Z (Z.of_nat (Collection.__len__ c))) / float_of_Z 1)%float.

(** The names [_add_dict] may assign to are keys of the dictionary. *)
Definition has_names (c : Collection.t) (d : pydict) : Prop :=
  forall nm,
    nm ∈ [_weight; _minuslogpost; _minuslogprior; _chi2]
           ++ Collection.minuslogprior_names c ++ Collection.chi2_names c
           ++ Collection.sampled_params c ++ Collection.derived_params c ->
    nm ∈ dict_keys d.

(** The dictionary after each part of a call of [_add_dict] that goes
    through. *)
Definition dict_after_logpost (d : pydict) (weight logpost : pynum) : pydict :=
  dict_set (dict_set d _weight weight) _minuslogpost (py_neg logpost).

Definition dict_after_logpriors (c : Collection.t) (d : pydict)
    (logpriors : option (list float)) : pydict :=
  match logpriors with
  | Some lp =>
      dict_set
        (dict_set_zip (fun v => py_neg (PyFloat v)) d
           (Collection.minuslogprior_names c) lp)
        _minuslogprior (py_neg (py_sum_list lp))
  | None => d
  end.

Definition dict_after_loglikes (c : Collection.t) (d : pydict)
    (loglikes : option (list float)) : pydict :=
  match loglikes with
  | Some ll =>
      dict_set
        (dict_set_zip (fun v => py_mul (PyInt (-2)) (PyFloat v)) d
           (Collection.chi2_names c) ll)
        _chi2 (py_mul (PyInt (-2)) (py_sum_list ll))
  | None => d
  end.

Definition dict_after_values (c : Collection.t) (d : pydict)
    (values : list float) : pydict :=
  dict_set_zip PyFloat d (Collection.sampled_params c) values.

Definition dict_after_derived (c : Collection.t) (d : pydict)
    (derived : option (list float)) : pydict :=
  match derived with
  | Some dv => dict_set_zip PyFloat d (Collection.derived_params c) dv
  | None => d
  end.

(** The names a call of [_add_dict] may assign to, by what it is given. *)
Definition assigned_names (c : Collection.t) (derived logpriors loglikes
    : option (list float)) : list string :=
  [_weight; _minuslogpost]
    ++ (if logpriors is Some _ then _minuslogprior :: Collection.minuslogprior_names c
        else [])
    ++ (if loglikes is Some _ then _chi2 :: Collection.chi2_names c else [])
    ++ Collection.sampled_params c
    ++ (if derived is Some _ then Collection.derived_params c else []).

(** ** The life of a collection *)

(** What a sampler does with a collection that has an output: it appends,
    and it has the new rows written.  An append that raises leaves the
    collection as it was when it stopped, for whoever catches the error. *)
Inductive op : Type :=
| OpAdd (g : globals) (values : list float) (derived : option (list float))
    (weight : pynum) (logpost : option float)
    (logpriors loglikes : option (list float))
| OpUpdate.

Definition run_op (c : Collection.t) (o : op) : Collection.t :=
  match o with
  | OpAdd g values derived weight logpost logpriors loglikes =>
      snd (Collection.add g values derived weight logpost logpriors loglikes c)
  | OpUpdate => snd (TxtDriver._out_update c)
  end.

Definition run_ops (c : Collection.t) (ops : list op) : Collection.t :=
  fold_left run_op ops c.

(** The file of a collection of which the first [k] rows were written. *)
Definition file_of_rows (c : Collection.t) (k : nat) : option (list line) :=
  match k with
  | O => None
  | _ =>
      Some (HeaderLine (Collection.columns c)
              :: map DataLine (take k (Collection.data c)))
  end.

(** A collection with the text driver whose file is the header and the rows
    written so far. *)
Definition mirrors (c : Collection.t) : Prop :=
  Collection.driver c = Txt /\
  (Collection._n_last_out c <= Collection.__len__ c)%nat /\
  (Collection.__len__ c <= length (Collection.data c))%nat /\
  Collection.file c = file_of_rows c (Collection._n_last_out c).

(** ** Sample inputs *)

(** Two sampled parameters, one derived, one prior, two likelihoods. *)
Definition example_model : model :=
  mk_model ["a"; "b"] ["d"] ["p1"] ["l1"; "l2"].

(** A derived parameter named as the column of a likelihood. *)
Definition clash_model : model :=
  mk_model ["a"] ["chi2__l1"] ["p1"] ["l1"].

(** The append of the spec's scenario: priors [-1.0], likelihoods [-2.0] and
    [-3.0], no log-posterior given. *)
Definition example_add_with (g : globals) : SE Collection.t unit :=
  Collection.add g [0.5; 0.25]%float (Some [7%float]) (PyInt 1)
    None (Some [(-1)%float]) (Some [(-2)%float; (-3)%float]).

Definition example_add : SE Collection.t unit :=
  example_add_with default_globals.

(** A new collection of the default size, and the same after two appends. *)
Definition example_empty : Collection.t :=
  Collection.init example_model None 100 None.

Definition example_two_samples : Collection.t :=
  snd (example_add (snd (example_add example_empty))).

(** The same two appends on a collection with the text driver. *)
Definition example_op : op :=
  OpAdd default_globals [0.5; 0.25]%float (Some [7%float]) (PyInt 1)
    None (Some [(-1)%float]) (Some [(-2)%float; (-3)%float]).

Definition example_txt_two_samples : Collection.t :=
  run_ops (Collection.init example_model (Some Txt) 100 None)
    [example_op; example_op].

Definition ten_percent : globals :=
  mk_globals 100 (Some 0x1.999999999999ap-4%float).

(** ** Loops and slices of sequences *)

(** [for x in l: body(x)], stopping at the first raise. *)
Fixpoint se_for {S A} (l : list A) (body : A -> SE S unit) : SE S unit :=
  match l with
  | [] => se_ret tt
  | x :: l' => body x ;; se_for l' body
  end.

(** [l[start:stop]] for a list or an array, each limit an integer or left
    out. *)
Definition py_getslice {A} (l : list A) (start stop : option Z) : list A :=
  match slice_indices (mk_slice start stop None) (Z.of_nat (length l)) with
  | OK (first, last, step) =>
      omap (fun k => l !! Z.to_nat k) (py_range first last step)
  | Raise _ => []
  end.

(** The first and the last position [slice.indices] gives for limits with
    the step left out, on a sequence of [len] items. *)
Definition first_of (start : option Z) (len : nat) : nat :=
  Z.to_nat (adjust_limit start (Z.of_nat len) 1 0).
Definition last_of (stop : option Z) (len : nat) : nat :=
  Z.to_nat (adjust_limit stop (Z.of_nat len) 1 (Z.of_nat len)).

(** ** Joining collections *)

Module CollectionOps.
Import Collection.


(** The rows [__iter__] and [__repr__] go through: [self.data[:len(self)]]. *)
Definition filled_rows (self : t) : list (list float) :=
  take (__len__ self) (data self).

End CollectionOps.

(** ** What the methods of a collection keep *)

(** The counter is within the data frame, every row has a value for every
    column, and the rows from the counter on are as [reset] and
    [_enlarge_if_needed] made them: all NaN. *)
Definition well_kept (c : Collection.t) : Prop :=
  (Collection._n c <= length (Collection.data c))%nat /\
  Forall (fun r : list float => length r = length (Collection.columns c))
    (Collection.data c) /\
  (forall (i : nat) (r : list float),
     (Collection._n c <= i)%nat -> Collection.data c !! i = Some r ->
     r = replicate (length (Collection.columns c)) nan).

(** What may be done to a collection, in any order. *)
Inductive action : Type :=
| ActAdd (g : globals) (values : list float) (derived : option (list float))
    (weight : pynum) (logpost : option float)
    (logpriors loglikes : option (list float))
| ActReset (index : option nat)
| ActUpdate
| ActDump
| ActDelete.

Definition run_action (c : Collection.t) (a : action) : Collection.t :=
  match a with
  | ActAdd g values derived weight logpost logpriors loglikes =>
      snd (Collection.add g values derived weight logpost logpriors loglikes c)
  | ActReset index => Collection.reset index c
  | ActUpdate => snd (TxtDriver._out_update c)
  | ActDump => snd (TxtDriver._out_dump c)
  | ActDelete => snd (TxtDriver._out_delete c)
  end.

Definition run_actions (c : Collection.t) (acts : list action)
    : Collection.t :=
  fold_left run_action acts c.

(** Appends and writings on a [OnePoint], with its own [add] and its own
    [_update__txt]. *)
Definition onepoint_run_op (c : Collection.t) (o : op) : Collection.t :=
  match o with
  | OpAdd g values derived weight logpost logpriors loglikes =>
      snd (OnePoint.add g values derived weight logpost logpriors loglikes c)
  | OpUpdate => snd (OnePoint._out_update c)
  end.

Definition onepoint_run_ops (c : Collection.t) (ops : list op)
    : Collection.t :=
  fold_left onepoint_run_op ops c.

(** The arguments [add] takes without raising: as many values as sampled
    parameters, as many derived values, if any, as derived parameters, and a
    log-posterior or else both lists to sum. *)
Definition fitting (c : Collection.t) (values : list float)
    (derived : option (list float)) (logpost : option float)
    (logpriors loglikes : option (list float)) : Prop :=
  length values = length (Collection.sampled_params c) /\
  (forall dv, derived = Some dv ->
     length dv = length (Collection.derived_params c)) /\
  (logpost = None -> logpriors <> None /\ loglikes <> None).

(** The scratch dictionary holds no integer too large for a float, as when
    it is created and after every append of a weight that is none. *)
Definition dict_fits (c : Collection.t) : Prop :=
  forallb fits_float64 (dict_values (Collection._value_dict c)) = true.

(** A collection of the model [m] that takes appends: well formed, all its
    column names different, its counter within the data frame, its
    dictionary of values that fit. *)
Definition made_for (m : model) (c : Collection.t) : Prop :=
  inv c /\ NoDup (Collection.columns c) /\
  (Collection.__len__ c <= length (Collection.data c))%nat /\
  Collection.sampled_params c = model_sampled_params m /\
  Collection.derived_params c = model_derived_params m /\
  dict_fits c.

(** The row [i] of [c] holds the point of a call of [add]: the weight; minus
    the log-posterior, the one given or the sum of the two sums; with
    log-priors given, minus their sum and minus each of them in the column
    of its prior; with log-likelihoods given, [-2] times their sum and [-2]
    times each of them in the column of its likelihood, unless a derived
    parameter of the call has the name of that column; each sampled value
    in the column of its parameter, and each derived value given in the
    column of its parameter. *)
Definition holds_point (c : Collection.t) (i : nat) (values : list float)
    (derived : option (list float)) (weight : pynum) (logpost : option float)
    (logpriors loglikes : option (list float)) : Prop :=
  Access.cell c i _weight = Some (to_float64 weight) /\
  (forall x, logpost = Some x ->
     Access.cell c i _minuslogpost = Some (- x)%float) /\
  (logpost = None ->
     exists lpr ll,
       logpriors = Some lpr /\ loglikes = Some ll /\
       Access.cell c i _minuslogpost =
         Some (to_float64
                 (py_neg (py_add (py_sum_list lpr) (py_sum_list ll))))) /\
  (forall lpr, logpriors = Some lpr ->
     Access.cell c i _minuslogprior =
       Some (to_float64 (py_neg (py_sum_list lpr))) /\
     forall k name v,
       Collection.minuslogprior_names c !! k = Some name ->
       lpr !! k = Some v ->
       Access.cell c i name = Some (- v)%float) /\
  (forall ll, loglikes = Some ll ->
     Access.cell c i _chi2 =
       Some (to_float64 (py_mul (PyInt (-2)) (py_sum_list ll))) /\
     forall k name v,
       Collection.chi2_names c !! k = Some name -> ll !! k = Some v ->
       derived = None \/ (name ∉ Collection.derived_params c) ->
       Access.cell c i name = Some (float_of_Z (-2) * v)%float) /\
  (forall k name v,
     Collection.sampled_params c !! k = Some name -> values !! k = Some v ->
     Access.cell c i name = Some v) /\
  (forall dv, derived = Some dv -> NoDup (Collection.derived_params c) ->
     forall k name v,
       Collection.derived_params c !! k = Some name -> dv !! k = Some v ->
       Access.cell c i name = Some v).

(** ** The PolyChord sampler's use of collections *)

Module Polychord.

(** What [initialize] sets and [dumper] and [save_sample] use. *)
Record t : Type := mk {
  the_model : model;
  output : option driver_kind;
  n_sampled : nat;
  n_derived : nat;
  n_priors : nat;
  n_likes : nat;
  last_point_callback : nat;
  live : Collection.t;
  dead : Collection.t;
  (* set by [dumper] *)
  logZ : option float;
  logZstd : option float
}.

Definition set_live (s : t) (c : Collection.t) : t :=
  mk (the_model s) (output s) (n_sampled s) (n_derived s) (n_priors s)
     (n_likes s) (last_point_callback s) c (dead s) (logZ s) (logZstd s).
Definition set_dead (s : t) (c : Collection.t) : t :=
  mk (the_model s) (output s) (n_sampled s) (n_derived s) (n_priors s)
     (n_likes s) (last_point_callback s) (live s) c (logZ s) (logZstd s).
Definition set_last_point_callback (s : t) (k : nat) : t :=
  mk (the_model s) (output s) (n_sampled s) (n_derived s) (n_priors s)
     (n_likes s) k (live s) (dead s) (logZ s) (logZstd s).
Definition set_logZ (s : t) (z zstd : float) : t :=
  mk (the_model s) (output s) (n_sampled s) (n_derived s) (n_priors s)
     (n_likes s) (last_point_callback s) (live s) (dead s) (Some z)
     (Some zstd).

(** The lines of [initialize] on the counts and the two collections;
    [nlive] is the setting of PolyChord, [fs] what the file of the dead
    points holds before. *)
Definition initialize (m : model) (out : option driver_kind) (nlive : nat)
    (fs : option (list line)) : t :=
  mk m out
     (length (model_sampled_params m)) (length (model_derived_params m))
     (length (model_prior m)) (length (model_likelihood m))
     0
     (Collection.init m None nlive None)
     (Collection.init m out 100 fs)
     None None.

(** The list of derived values [logpost] gives to PolyChord, from what the
    model returned: the derived parameters and the log-likelihoods are
    replaced by NaN when their number is not the expected one. *)
Definition logpost_derived (self : t) (logpriors loglikes derived : list float)
    : list float :=
  let derived :=
    if decide (length derived ≠ n_derived self)
    then replicate (n_derived self) nan else derived in
  let loglikes :=
    if decide (length loglikes ≠ n_likes self)
    then replicate (n_likes self) nan else loglikes in
  derived ++ logpriors ++ loglikes.

(** The value [logpost] gives: [max(logposterior + logvolume, logzero)]. *)
Definition logpost_value (logposterior logvolume logzero : float) : float :=
  let a := (logposterior + logvolume)%float in
  if (a <? logzero)%float then logzero else a.

(** The four slices of a point that [dumper] passes to [add]. *)
Definition point_values (self : t) (point : list float) : list float :=
  py_getslice point None (Some (Z.of_nat (n_sampled self))).
Definition point_derived (self : t) (point : list float) : list float :=
  py_getslice point (Some (Z.of_nat (n_sampled self)))
    (Some (Z.of_nat (n_sampled self + n_derived self))).
Definition point_logpriors (self : t) (point : list float) : list float :=
  py_getslice point (Some (Z.of_nat (n_sampled self + n_derived self)))
    (Some (Z.of_nat (n_sampled self + n_derived self + n_priors self))).
Definition point_loglikes (self : t) (point : list float) : list float :=
  py_getslice point
    (Some (Z.of_nat (n_sampled self + n_derived self + n_priors self)))
    (Some (Z.of_nat (n_sampled self + n_derived self + n_priors self
                     + n_likes self))).

Definition add_point (g : globals) (self : t) (weight : pynum)
    (point : list float) : SE Collection.t unit :=
  Collection.add g (point_values self point) (Some (point_derived self point))
    weight None (Some (point_logpriors self point))
    (Some (point_loglikes self point)).

Definition on_live {A} (m : SE Collection.t A) : SE t A :=
  fun s => let '(r, c) := m (live s) in (r, set_live s c).
Definition on_dead {A} (m : SE Collection.t A) : SE t A :=
  fun s => let '(r, c) := m (dead s) in (r, set_dead s c).

(** [dumper]; [exp] is [np.exp], and [callback] the function to call back,
    if one is set. *)
Definition dumper (g : globals) (exp : float -> float)
    (callback : option (SE t unit))
    (live_points dead_points : list (list float)) (logweights : list float)
    (logZ' logZstd' : float) : SE t unit :=
  se_modify (fun s => set_live s (Collection.reset None (live s))) ;;
  do self <- se_get ;
  se_for live_points (fun point =>
    on_live (add_point g self (PyFloat nan) point)) ;;
  se_for (zip (drop (last_point_callback self) logweights)
              (drop (last_point_callback self) dead_points))
    (fun lp => on_dead (add_point g self (PyFloat (exp (fst lp))) (snd lp))) ;;
  se_modify (fun s => set_logZ s logZ' logZstd') ;;
  match callback with
  | Some call =>
      call ;;
      se_modify (fun s =>
        set_last_point_callback s (Collection.__len__ (dead s)))
  | None => se_ret tt
  end.

(** The call of [add] of [save_sample] for one row of the raw file. *)
Definition add_row (g : globals) (self : t) (row : list float)
    : SE Collection.t unit :=
  do weight <- se_lift
    match row !! 0%nat with
    | Some w => OK w
    | None => Raise IndexError
    end ;
  Collection.add g
    (py_getslice row (Some 2) (Some (Z.of_nat (2 + n_sampled self))))
    (Some (py_getslice row (Some (Z.of_nat (2 + n_sampled self)))
             (Some (Z.of_nat (2 + n_sampled self + n_derived self)))))
    (PyFloat weight) None
    (Some (py_getslice row (Some (- Z.of_nat (n_priors self + n_likes self)))
             (Some (- Z.of_nat (n_likes self)))))
    (Some (py_getslice row (Some (- Z.of_nat (n_likes self))) None)).

(** [save_sample], from the array [sample] that [np.loadtxt] gave: nothing
    for an array without values, else the outcome and the new collection,
    filled row by row and then written. *)
Definition save_sample (g : globals) (self : t) (sample : list (list float))
    (fs : option (list line)) : option (result unit * Collection.t) :=
  if decide (sum_list (length <$> sample) = 0)%nat then None
  else
    Some ((se_for sample (add_row g self) ;; TxtDriver._out_update)
            (Collection.init (the_model self) (output self) 100 fs)).

(** The sampler between two calls of [dumper]: the counts are those of the
    model, the two collections are of the model, and the additions to a full
    data frame are of a positive fixed number of rows. *)
Definition prepared (g : globals) (self : t) : Prop :=
  n_sampled self = length (model_sampled_params (the_model self)) /\
  n_derived self = length (model_derived_params (the_model self)) /\
  made_for (the_model self) (live self) /\
  made_for (the_model self) (dead self) /\
  factor_if_true g = None /\ (0 < enlargement_size g)%Z.

End Polychord.

(** ** Proof steps *)

(** Unfolds the operations of [SE]. *)
Ltac unfold_se :=
  unfold se_bind, se_get, se_modify, se_lift, se_ret, se_raise in *.

(** Membership in a list written with [++] and [::]. *)
Ltac in_names :=
  repeat (rewrite ?elem_of_app, ?elem_of_cons); tauto.

(** * Properties *)

(** ** Output thinning of [OneSamplePoint] *)

Section Thinning.
Import OneSamplePoint.

Lemma sumZ_snoc (l : list Z) (z : Z) : sumZ (l ++ [z]) = sumZ l + z.
Proof.
  unfold sumZ. induction l as [|a l IH]; simpl; [lia|].
  rewrite IH. lia.
Qed.

(** One step on the recording collection, with the thinning on. *)
Lemma step_thinned (p : t) (log : list Z) :
  1 < output_thin p ->
  add_to_collection p log =
    let a := _added_weight p + weight p in
    if output_thin p <=? a then
      (OK true, set_added_weight p (a mod output_thin p),
       log ++ [a / output_thin p])
    else (OK false, set_added_weight p a, log).
Proof.
  intros HT. unfold add_to_collection.
  apply Z.ltb_lt in HT. rewrite HT. simpl.
  destruct (output_thin p <=? _added_weight p + weight p); reflexivity.
Qed.

(** One step on the recording collection, with the thinning off. *)
Lemma step_unthinned (p : t) (log : list Z) :
  output_thin p <= 1 ->
  add_to_collection p log = (OK true, p, log ++ [weight p]).
Proof.
  intros HT. unfold add_to_collection.
  apply Z.ltb_ge in HT. rewrite HT. reflexivity.
Qed.

Lemma run_conserves (ws : list Z) : forall (p : t) (log : list Z),
  1 <= output_thin p ->
  0 <= _added_weight p < output_thin p ->
  Forall (fun w => 0 <= w) ws ->
  let '(p', log') := run p log ws in
  output_thin p' = output_thin p /\
  sumZ log' * output_thin p + _added_weight p' =
    sumZ log * output_thin p + _added_weight p + sumZ ws /\
  0 <= _added_weight p' < output_thin p.
Proof.
  induction ws as [|w ws IH]; intros p log HT Hrem Hws; simpl.
  - repeat split; lia.
  - inversion Hws as [|? ? Hw Hws']; subst.
    set (q := add p [] w empty_kwargs).
    assert (Hq : output_thin q = output_thin p) by reflexivity.
    assert (Hqa : _added_weight q = _added_weight p) by reflexivity.
    assert (Hqw : weight q = w) by reflexivity.
    destruct (Z_lt_le_dec 1 (output_thin p)) as [Hthin|Hone].
    + rewrite step_thinned by lia. cbv zeta.
      rewrite Hq, Hqa, Hqw.
      destruct (output_thin p <=? _added_weight p + w) eqn:Hge.
      * apply Z.leb_le in Hge.
        pose proof (Z.div_mod (_added_weight p + w) (output_thin p)
                      ltac:(lia)) as Hdm.
        pose proof (Z.mod_pos_bound (_added_weight p + w) (output_thin p)
                      ltac:(lia)) as Hmb.
        specialize (IH (set_added_weight q
                          ((_added_weight p + w) mod output_thin p))
                       (log ++ [(_added_weight p + w) / output_thin p])).
        simpl in IH. specialize (IH HT Hmb Hws').
        destruct (run _ _ ws) as [p' log'].
        destruct IH as (Ho & Hsum & Hb).
        rewrite sumZ_snoc in Hsum.
        repeat split; try lia; nia.
      * apply Z.leb_gt in Hge.
        specialize (IH (set_added_weight q (_added_weight p + w)) log).
        simpl in IH. specialize (IH HT ltac:(lia) Hws').
        destruct (run _ _ ws) as [p' log'].
        destruct IH as (Ho & Hsum & Hb).
        repeat split; lia.
    + rewrite step_unthinned by (rewrite Hq; lia). rewrite Hqw.
      specialize (IH q (log ++ [w])). simpl in IH.
      specialize (IH HT Hrem Hws').
      destruct (run _ _ ws) as [p' log'].
      destruct IH as (Ho & Hsum & Hb).
      rewrite sumZ_snoc in Hsum.
      repeat split; try lia; nia.
Qed.

(** C3.  With an integer thinning factor [T >= 1] and non-negative integer
    raw weights [ws] (any run, so also every prefix of a longer one): the
    weights given to the collection so far, summed and multiplied by [T],
    plus the carried remainder [_added_weight], equal the sum of the raw
    weights, and the remainder is in [[0, T)].  A step on any kind of
    collection returns [False] exactly when [T > 1] and remainder plus raw
    weight is below [T], and then the collection is left as it was, its
    [add] not called; when [T <= 1] a step is the call of [add] with the raw
    weight. *)
Theorem thinning_conserves_weight (T : Z) (ws : list Z) :
  1 <= T ->
  Forall (fun w => 0 <= w) ws ->
  (let '(p', log') := run (init T) [] ws in
   sumZ log' * T + _added_weight p' = sumZ ws /\
   0 <= _added_weight p' < T) /\
  (forall (C : Type) (HC : HasAdd C) (p : t) (collection : C),
     output_thin p = T ->
     (forall r p' collection',
        add_to_collection p collection = (r, p', collection') ->
        (r = OK false <-> 1 < T /\ _added_weight p + weight p < T) /\
        (r = OK false ->
           collection' = collection /\
           _added_weight p' = _added_weight p + weight p)) /\
     (T <= 1 ->
        add_to_collection p collection = commit p (weight p) collection)).
Proof.
  intros HT Hws. split.
  - pose proof (run_conserves ws (init T) [] ltac:(simpl; lia)
                  ltac:(simpl; lia) Hws) as H.
    destruct (run (init T) [] ws) as [p' log'].
    simpl in H. destruct H as (_ & Hsum & Hb). split; lia.
  - intros C HC p collection Hp. split.
    + intros r p' collection' Hstep.
      unfold add_to_collection in Hstep. rewrite Hp in Hstep.
      destruct (1 <? T) eqn:H1.
      * apply Z.ltb_lt in H1. simpl in Hstep. rewrite Hp in Hstep.
        destruct (T <=? _added_weight p + weight p) eqn:Hge.
        -- apply Z.leb_le in Hge. unfold commit in Hstep.
           destruct (coll_add _ _ _ _) as [[?|e] c'];
             inversion Hstep; subst; (split; [split|]);
             try discriminate; lia.
        -- apply Z.leb_gt in Hge. inversion Hstep; subst.
           repeat split; auto; lia.
      * apply Z.ltb_ge in H1. unfold commit in Hstep.
        destruct (coll_add _ _ _ _) as [[?|e] c'];
          inversion Hstep; subst; (split; [split|]);
          try discriminate; lia.
    + intros Hle. unfold add_to_collection. rewrite Hp.
      apply Z.ltb_ge in Hle. rewrite Hle. reflexivity.
Qed.

Lemma thinning_conserves_weight_witness :
  1 <= 3 /\
  Forall (fun w => 0 <= w) [1; 1; 1; 5; 0; 2; 7] /\
  (let '(p', log') := run (init 3) [] [1; 1; 1; 5; 0; 2; 7] in
   sumZ log' * 3 + _added_weight p' = sumZ [1; 1; 1; 5; 0; 2; 7] /\
   0 <= _added_weight p' < 3).
Proof.
  assert (H1 : 1 <= 3) by lia.
  assert (H2 : Forall (fun w => 0 <= w) [1; 1; 1; 5; 0; 2; 7])
    by (repeat constructor; lia).
  split; [exact H1|]. split; [exact H2|].
  exact (proj1 (thinning_conserves_weight 3 [1; 1; 1; 5; 0; 2; 7] H1 H2)).
Defined.

(** On a collection proper, with a thinning factor of two and weights of
    one: the first point is held back and the collection stays empty, the
    second goes in with weight one. *)
Example thinned_points_reach_collection :
  let p0 := add (init 2) [0.5; 0.25]%float 1
              (mk_kwargs None (Some 4%float) None None) in
  let '(r1, p1, gc1) := add_to_collection p0 (default_globals, example_empty) in
  let '(r2, p2, gc2) := add_to_collection p1 gc1 in
  r1 = OK false /\ Collection.__len__ (snd gc1) = 0%nat /\
  r2 = OK true /\ Collection.__len__ (snd gc2) = 1%nat /\
  Access.cell (snd gc2) 0 _weight = Some 1%float /\
  _added_weight p2 = 0.
Proof. vm_compute. repeat split; reflexivity. Qed.

End Thinning.

(** ** Integer indices *)

Section Indices.
Import Collection Access.

(** Away from index [0] of an empty collection, [check_index] raises exactly
    outside the filled rows and resolves negative indices from the end. *)
Lemma check_index_spec (i L : Z) :
  0 <= L -> (i, L) <> (0, 0) ->
  (check_index i L = Raise IndexError <->
     (0 <= i /\ L <= i) \/ (i < 0 /\ L < - i)) /\
  (check_index i L <> Raise IndexError ->
     check_index i L = OK (if i <? 0 then L + i else i) /\
     0 <= (if i <? 0 then L + i else i) < L).
Proof.
  intros HL Hne. unfold check_index.
  assert (Hz : i <> 0 \/ L <> 0).
  { destruct (Z.eq_dec i 0) as [->|]; [right|left; assumption].
    intros ->. apply Hne. reflexivity. }
  destruct (Z.ltb_spec 0 i), (Z.leb_spec L i), (Z.ltb_spec i 0),
    (Z.ltb_spec L (- i)); simpl;
    (split;
     [ split; intros Hc;
       first [discriminate Hc | reflexivity | lia | (exfalso; lia)]
     | intros Hc;
       first [ (exfalso; apply Hc; reflexivity)
             | (split; [reflexivity | lia]) ] ]).
Qed.

(** C1.  On a new collection, which has no sample yet, index [0] is let
    through by [check_index] and [__getitem__] returns the first row of the
    empty part of the data frame. *)
Theorem getitem_zero_of_empty :
  check_index 0 0 = OK 0 /\
  __len__ example_empty = 0%nat /\
  __getitem__ example_empty (KeyInt 0) = OK (ItemRow (replicate 10 nan)).
Proof. repeat split; vm_compute; reflexivity. Qed.

End Indices.

(** ** Slices *)

Section Slices.
Import Collection Access.

(** Integer limits never make [check_slice] raise; a limit from [0] on is
    cut at the number of samples. *)
Lemma check_slice_int_limits (a b : Z) (st : option Z) (L : Z) :
  check_slice (mk_slice (Some a) (Some b) st) L =
    OK (mk_slice (Some (if 0 <=? a then Z.min L a else L + a))
                 (Some (if 0 <=? b then Z.min L b else L + b)) st).
Proof.
  unfold check_slice, check_lim. simpl.
  destruct (0 <=? a); destruct (0 <=? b); reflexivity.
Qed.

Lemma check_slice_beyond_end (a L k : Z) (st : option Z) :
  0 <= L -> 0 <= k ->
  check_slice (mk_slice (Some a) (Some (L + k)) st) L =
  check_slice (mk_slice (Some a) (Some L) st) L.
Proof.
  intros HL Hk. rewrite !check_slice_int_limits.
  rewrite (proj2 (Z.leb_le 0 (L + k))) by lia.
  rewrite (proj2 (Z.leb_le 0 L)) by lia.
  rewrite (Z.min_l L (L + k)) by lia. rewrite Z.min_id. reflexivity.
Qed.

(** A limit left out makes [check_slice] raise. *)
Lemma check_slice_none_start (b st : option Z) (L : Z) :
  check_slice (mk_slice None b st) L = Raise TypeError.
Proof. reflexivity. Qed.

Lemma check_slice_none_stop (a : Z) (st : option Z) (L : Z) :
  check_slice (mk_slice (Some a) None st) L = Raise TypeError.
Proof. unfold check_slice, check_lim. simpl. destruct (0 <=? a); reflexivity. Qed.

(** C5.  A collection of two samples in a data frame of a hundred rows:
    the slices [[1:]] and [[:1]] raise [TypeError], and the slice [[0:-5]],
    whose stop lies before the first sample, is passed on with the stop
    [-3], which the data frame counts from its own end: the result has 97
    rows, 95 of them from the empty part. *)
Theorem getitem_slice_raises :
  __len__ example_two_samples = 2%nat /\
  length (data example_two_samples) = 100%nat /\
  __getitem__ example_two_samples (KeySlice (mk_slice (Some 1) None None)) =
    Raise TypeError /\
  __getitem__ example_two_samples (KeySlice (mk_slice None (Some 1) None)) =
    Raise TypeError /\
  check_slice (mk_slice (Some 0) (Some (-5)) None) 2 =
    OK (mk_slice (Some 0) (Some (-3)) None) /\
  exists f,
    __getitem__ example_two_samples
      (KeySlice (mk_slice (Some 0) (Some (-5)) None)) = OK (ItemFrame f) /\
    length f = 97%nat /\
    f !! 2%nat = Some (replicate 10 nan).
Proof.
  split; [vm_compute; reflexivity|].
  split; [vm_compute; reflexivity|].
  split; [vm_compute; reflexivity|].
  split; [vm_compute; reflexivity|].
  split; [reflexivity|].
  eexists. split; [vm_compute; reflexivity|].
  split; vm_compute; reflexivity.
Qed.

End Slices.

(** ** The log-posterior that is not given *)

Section Logpost.
Import Collection.

(** Without a log-posterior and without one of the two lists, the sum raises
    [TypeError], which the handler for [ValueError] lets through. *)
Lemma add_dict_missing_parts (self : t) (values : list float)
    (derived : option (list float)) (weight : pynum)
    (logpriors loglikes : option (list float)) (dic : pydict) :
  logpriors = None \/ loglikes = None ->
  _add_dict self values derived weight None logpriors loglikes dic =
    (Raise TypeError, dict_set dic _weight weight).
Proof.
  intros [-> | ->]; [|destruct logpriors]; reflexivity.
Qed.

(** The message about the missing log-posterior is never raised. *)
Lemma add_dict_never_logged_logpost (self : t) (values : list float)
    (derived : option (list float)) (weight : pynum) (logpost : option float)
    (logpriors loglikes : option (list float)) (dic : pydict) :
  fst (_add_dict self values derived weight logpost logpriors loglikes dic)
    <> Raise (LoggedError MsgNeedLogpost).
Proof.
  unfold _add_dict, se_bind, se_modify, se_lift, se_ret, se_raise.
  destruct logpost, logpriors, loglikes; simpl;
    repeat (match goal with
            | |- context [decide ?P] => destruct (decide P)
            | |- context [match ?d with Some _ => _ | None => _ end] =>
                destruct d
            end; simpl);
    discriminate.
Qed.

(** C6.  An append without log-posterior and without log-priors raises the
    [TypeError] of [sum(None)], on a new collection as on any other; the
    weight has been put in the dictionary by then. *)
Theorem add_without_logpost_raises_TypeError :
  fst (add default_globals [0.5; 0.25]%float None (PyInt 1) None None
         (Some [(-2)%float; (-3)%float]) example_empty) = Raise TypeError /\
  fst (add default_globals [0.5; 0.25]%float None (PyInt 1) None
         (Some [(-1)%float]) None example_empty) = Raise TypeError /\
  fst (add default_globals [0.5; 0.25]%float None (PyInt 1) None None None
         example_empty) = Raise TypeError.
Proof. repeat split; vm_compute; reflexivity. Qed.

End Logpost.

(** ** OnePoint *)

Section OnePointFacts.
Import Collection.

(** The array [np.array] makes, when it makes one. *)
Lemma np_array_OK (d : pydict) (arr : list float) :
  np_array d = OK arr ->
  arr = values_array d /\ forallb fits_float64 (dict_values d) = true.
Proof.
  unfold np_array. destruct (forallb fits_float64 (dict_values d));
    [|discriminate].
  intros [= <-]. split; reflexivity.
Qed.

Lemma add_ok_length (g : globals) (values : list float)
    (derived : option (list float)) (weight : pynum) (logpost : option float)
    (logpriors loglikes : option (list float)) (c c' : t) :
  add g values derived weight logpost logpriors loglikes c = (OK tt, c') ->
  __len__ c' = S (__len__ c) /\
  exists k,
    (__len__ c < length (data c) + k)%nat /\
    data c' =
      <[__len__ c := values_array (_value_dict c')]>
        (data c ++ nan_frame (length (columns c)) k).
Proof.
  unfold add, se_bind, se_get, se_modify, se_lift, on_value_dict, __len__.
  destruct (_enlarge_if_needed g c) as [[[]|e] c1] eqn:He; [|discriminate].
  destruct (_add_dict c1 _ _ _ _ _ _ _) as [[[]|e] d] eqn:Hd; [|discriminate].
  simpl.
  destruct (np_array d) as [arr|e] eqn:Harr; [|discriminate].
  apply np_array_OK in Harr as [-> _].
  destruct (iloc_set _ _ _ _) as [df|e] eqn:Hset; [|discriminate].
  intros [= <-]. simpl.
  unfold _enlarge_if_needed, se_bind, se_get, se_modify, se_lift, se_ret in He.
  unfold iloc_set in Hset. simpl in Hset.
  destruct (decide (_n c1 < length (data c1))%nat) as [Hlt|]; [|discriminate].
  destruct (decide (length (values_array d) = length (columns c1)));
    [|discriminate].
  injection Hset as <-.
  destruct (decide (length (data c) <= _n c)%nat).
  - destruct (match factor_if_true g with Some _ => _ | None => _ end)
      as [k|]; [|discriminate].
    injection He as <-. simpl in *. split; [reflexivity|].
    exists k. rewrite length_app in Hlt. unfold nan_frame in *.
    rewrite length_replicate in Hlt.
    split; [exact Hlt | reflexivity].
  - injection He as <-. split; [reflexivity|].
    exists 0%nat. unfold nan_frame. simpl. rewrite app_nil_r.
    split; [lia | reflexivity].
Qed.

(** C2, as stated, fails: after the first append to a new [OnePoint] the
    length is not [1]. *)
Lemma onepoint_length_is_not_one :
  let r := OnePoint.add default_globals [0.5; 0.25]%float (Some [7%float])
             (PyInt 1) None (Some [(-1)%float])
             (Some [(-2)%float; (-3)%float])
             (OnePoint.init example_model None None) in
  fst r = OK tt /\ __len__ (snd r) <> 1%nat.
Proof. split; [vm_compute; reflexivity | vm_compute; discriminate]. Qed.

End OnePointFacts.

(** ** Growth of the data frame *)

Section Growth.
Import Collection.

Lemma ceil_SF_positive (x : spec_float) (k : Z) :
  ceil_SF x = Some k ->
  (0 < k <-> exists m e, x = S754_finite false m e).
Proof.
  destruct x as [s|s| |s m e]; simpl; try discriminate.
  - intros [= <-]. split; [lia | intros (? & ? & [=])].
  - intros [= <-]. destruct s.
    + split; [|intros (? & ? & [=])].
      destruct (Z.leb_spec 0 e) as [He|He].
      * pose proof (Z.pow_pos_nonneg 2 e ltac:(lia) He). nia.
      * pose proof (Z.pow_pos_nonneg 2 (- e) ltac:(lia) ltac:(lia)) as Hp.
        pose proof (Z.div_pos (Z.pos m) (2 ^ (- e)) ltac:(lia) Hp).
        change (- Z.neg m) with (Z.pos m). lia.
    + split; [intros _; eauto|intros _].
      destruct (Z.leb_spec 0 e) as [He|He].
      * pose proof (Z.pow_pos_nonneg 2 e ltac:(lia) He). nia.
      * pose proof (Z.pow_pos_nonneg 2 (- e) ltac:(lia) ltac:(lia)) as Hp.
        pose proof (Z.div_lt_upper_bound (- Z.pos m) (2 ^ (- e)) 0 Hp
                      ltac:(lia)).
        lia.
Qed.

Lemma arange_len_float_positive (start : Z) (stop : float) (k : nat) :
  arange_len_float start stop = OK k ->
  ((0 < k)%nat <->
   exists m e,
     Prim2SF ((stop - float_of_Z start) / float_of_Z 1)%float
       = S754_finite false m e).
Proof.
  unfold arange_len_float.
  destruct (ceil_SF _) as [z|] eqn:Hc.
  - destruct (_ || _) eqn:Hov; [discriminate|]. intros [= <-].
    rewrite <- (ceil_SF_positive _ _ Hc). lia.
  - discriminate.
Qed.

(** When the table is full and [_enlarge_if_needed] returns, the rows it had
    are all still there, followed by new rows of NaN, so no row is lost and
    the table never shrinks.  With no fraction set and a positive chunk (by
    default [100]) the table grows by the chunk, from any number of rows.
    With a fraction set it grows by the number of points of [arange], which
    is positive exactly when the measured span is a positive number.  The
    row that [add] then writes is at position [_n], after all the rows
    filled before. *)
Theorem enlarge_keeps_rows (g : globals) (c c' : t) :
  (length (data c) <= __len__ c)%nat ->
  _enlarge_if_needed g c = (OK tt, c') ->
  (exists k, data c' = data c ++ nan_frame (length (columns c)) k) /\
  (forall i r, data c !! i = Some r -> data c' !! i = Some r) /\
  (length (data c) <= length (data c'))%nat /\
  (factor_if_true g = None -> 0 < enlargement_size g ->
     length (data c') = (length (data c) + Z.to_nat (enlargement_size g))%nat
     /\ (length (data c) < length (data c'))%nat) /\
  (forall f, factor_if_true g = Some f ->
     ((length (data c) < length (data c'))%nat <->
      exists m e, Prim2SF (growth_span c f) = S754_finite false m e)) /\
  (forall values derived weight logpost logpriors loglikes c'',
     add g values derived weight logpost logpriors loglikes c = (OK tt, c'')
     -> forall i r, data c !! i = Some r -> data c'' !! i = Some r).
Proof.
  intros Hfull He.
  unfold _enlarge_if_needed, se_bind, se_get, se_modify, se_lift, se_ret
    in He.
  unfold __len__ in *.
  destruct (decide (length (data c) <= _n c)%nat) as [_|]; [|lia].
  destruct (match factor_if_true g with Some _ => _ | None => _ end)
    as [k|] eqn:Hk; [|discriminate].
  injection He as <-. simpl.
  split; [exists k; reflexivity|].
  split; [intros i r Hi; apply lookup_app_l_Some; exact Hi|].
  split; [rewrite length_app; lia|].
  split; [|split].
  - intros Hnone Hpos. rewrite Hnone in Hk. injection Hk as <-.
    rewrite length_app. unfold nan_frame, arange_len_int.
    rewrite length_replicate. split; lia.
  - intros f Hf. rewrite Hf in Hk.
    apply arange_len_float_positive in Hk.
    rewrite length_app. unfold nan_frame. rewrite length_replicate.
    unfold growth_span, __len__. rewrite <- Hk. lia.
  - intros values derived weight logpost logpriors loglikes c'' Hadd i r Hi.
    apply add_ok_length in Hadd as (_ & k' & _ & ->).
    unfold __len__.
    pose proof (lookup_lt_Some _ _ _ Hi) as Hlt.
    rewrite list_lookup_insert_ne by lia.
    apply lookup_app_l_Some. exact Hi.
Qed.

(** From no rows at all, the default chunk gives a hundred. *)
Example enlarge_by_default_chunk :
  let c := init example_model None 0 None in
  exists c',
    _enlarge_if_needed default_globals c = (OK tt, c') /\
    (length (data c) < length (data c'))%nat.
Proof.
  intros c. eexists. split; [vm_compute; reflexivity|].
  refine (proj2 (proj1 (proj2 (proj2 (proj2
    (enlarge_keeps_rows default_globals c _ _ _)))) _ _)).
  - vm_compute. lia.
  - vm_compute. reflexivity.
  - reflexivity.
  - vm_compute. reflexivity.
Qed.

(** C8.  With a fraction of ten percent set, a table without rows is full
    and [_enlarge_if_needed] adds no row to it: the capacity does not exceed
    the old one, and the append that follows finds no row to write and
    raises [IndexError]. *)
Theorem fraction_of_no_rows_adds_none :
  let c := init example_model None 0 None in
  (length (data c) <= __len__ c)%nat /\
  (exists c',
     _enlarge_if_needed ten_percent c = (OK tt, c') /\
     ~ (length (data c) < length (data c'))%nat) /\
  fst (example_add_with ten_percent c) = Raise IndexError.
Proof.
  split; [vm_compute; lia|]. split.
  - eexists. split; [vm_compute; reflexivity|]. vm_compute. lia.
  - vm_compute. reflexivity.
Qed.

(** With the same fraction a full table of a hundred rows gets ten more. *)
Example fraction_of_hundred_rows :
  let c := set_n (init example_model None 100 None) 100 in
  length (data (snd (_enlarge_if_needed ten_percent c))) = 110%nat.
Proof. vm_compute. reflexivity. Qed.

End Growth.

(** ** The scratch dictionary *)

Section Dictionaries.

Lemma dict_set_keys_in (d : pydict) (k : string) (v : pynum) :
  k ∈ dict_keys d -> dict_keys (dict_set d k v) = dict_keys d.
Proof.
  unfold dict_keys. induction d as [|[k' v'] d IH]; simpl; intros Hin.
  - inversion Hin.
  - destruct (String.eqb k' k) eqn:E; simpl; [reflexivity|].
    f_equal. apply IH. apply elem_of_cons in Hin as [->|Hin]; [|exact Hin].
    rewrite String.eqb_refl in E. discriminate.
Qed.

Lemma dict_set_keys_notin (d : pydict) (k : string) (v : pynum) :
  k ∉ dict_keys d -> dict_keys (dict_set d k v) = dict_keys d ++ [k].
Proof.
  unfold dict_keys. induction d as [|[k' v'] d IH]; simpl; intros Hin.
  - reflexivity.
  - destruct (String.eqb k' k) eqn:E; simpl.
    + apply String.eqb_eq in E. subst. exfalso. apply Hin. left.
    + f_equal. apply IH. intros H. apply Hin. right. exact H.
Qed.

Lemma dict_get_set_eq (d : pydict) (k : string) (v : pynum) :
  dict_get (dict_set d k v) k = Some v.
Proof.
  induction d as [|[k' v'] d IH]; simpl.
  - rewrite String.eqb_refl. reflexivity.
  - destruct (String.eqb k' k) eqn:E; simpl; rewrite E; auto.
Qed.

Lemma dict_get_set_ne (d : pydict) (k k' : string) (v : pynum) :
  k <> k' -> dict_get (dict_set d k v) k' = dict_get d k'.
Proof.
  intros Hne. induction d as [|[k0 v0] d IH]; simpl.
  - destruct (String.eqb k k') eqn:E; [|reflexivity].
    apply String.eqb_eq in E. contradiction.
  - destruct (String.eqb k0 k) eqn:E; simpl; [|rewrite IH; reflexivity].
    apply String.eqb_eq in E. subst k0.
    destruct (String.eqb k k') eqn:E'; [|reflexivity].
    apply String.eqb_eq in E'. contradiction.
Qed.

(** The loop over [zip(names, vals)]. *)
Lemma dict_set_zip_cons (f : float -> pynum) (d : pydict) (nm : string)
    (names : list string) (v : float) (vals : list float) :
  dict_set_zip f d (nm :: names) (v :: vals) =
  dict_set_zip f (dict_set d nm (f v)) names vals.
Proof. reflexivity. Qed.

Lemma dict_set_zip_keys (f : float -> pynum) (names : list string) :
  forall (vals : list float) (d : pydict),
  (forall nm, nm ∈ names -> nm ∈ dict_keys d) ->
  dict_keys (dict_set_zip f d names vals) = dict_keys d.
Proof.
  induction names as [|nm names IH]; intros vals d Hall; [reflexivity|].
  destruct vals as [|v vals]; [reflexivity|].
  rewrite dict_set_zip_cons.
  assert (Hk : dict_keys (dict_set d nm (f v)) = dict_keys d).
  { apply dict_set_keys_in. apply Hall. left. }
  rewrite IH; [exact Hk|].
  intros nm' Hin. rewrite Hk. apply Hall. right. exact Hin.
Qed.

Lemma dict_get_set_zip_notin (f : float -> pynum) (names : list string)
    (k : string) :
  forall (vals : list float) (d : pydict),
  k ∉ names -> dict_get (dict_set_zip f d names vals) k = dict_get d k.
Proof.
  induction names as [|nm names IH]; intros vals d Hk; [reflexivity|].
  destruct vals as [|v vals]; [reflexivity|].
  rewrite dict_set_zip_cons, IH.
  - apply dict_get_set_ne. intros ->. apply Hk. left.
  - intros H. apply Hk. right. exact H.
Qed.

Lemma dict_get_set_zip_in (f : float -> pynum) (names : list string) :
  forall (vals : list float) (d : pydict) (j : nat) (k : string) (v : float),
  NoDup names -> names !! j = Some k -> vals !! j = Some v ->
  dict_get (dict_set_zip f d names vals) k = Some (f v).
Proof.
  induction names as [|nm names IH]; intros vals d j k v Hnd Hk Hv;
    [discriminate|].
  destruct vals as [|v0 vals]; [discriminate|].
  rewrite dict_set_zip_cons. apply NoDup_cons in Hnd as [Hnm Hnd].
  destruct j as [|j]; simpl in Hk, Hv.
  - injection Hk as ->. injection Hv as ->.
    rewrite dict_get_set_zip_notin by exact Hnm.
    apply dict_get_set_eq.
  - eapply IH; eauto.
Qed.

(** The keys of the dictionary made from the columns: the columns
    themselves as soon as there are as many. *)
Lemma nan_dict_snoc (cols : list string) (p : string) :
  Collection.nan_dict (cols ++ [p]) =
  dict_set (Collection.nan_dict cols) p (PyFloat nan).
Proof. unfold Collection.nan_dict. rewrite fold_left_app. reflexivity. Qed.

Lemma nan_dict_keys (cols : list string) :
  (forall p, p ∈ dict_keys (Collection.nan_dict cols) <-> p ∈ cols) /\
  (length (dict_keys (Collection.nan_dict cols)) <= length cols)%nat /\
  (length (dict_keys (Collection.nan_dict cols)) = length cols ->
   dict_keys (Collection.nan_dict cols) = cols /\ NoDup cols).
Proof.
  induction cols as [|p cols (IHin & IHle & IHeq)] using rev_ind.
  - repeat split; auto; try constructor; intros H; inversion H.
  - rewrite nan_dict_snoc, length_app. simpl.
    destruct (decide (p ∈ dict_keys (Collection.nan_dict cols))) as [Hp|Hp].
    + rewrite dict_set_keys_in by exact Hp.
      split; [|split; [lia | intros; lia]].
      intros q. rewrite elem_of_app, list_elem_of_singleton, IHin.
      split; [tauto|]. intros [?| ->]; [assumption|]. apply IHin, Hp.
    + rewrite dict_set_keys_notin by exact Hp.
      split; [|split].
      * intros q. rewrite !elem_of_app, IHin. tauto.
      * rewrite length_app. simpl. lia.
      * rewrite length_app. simpl. intros Hlen.
        destruct IHeq as [Hk Hnd]; [lia|].
        rewrite Hk. split; [reflexivity|].
        apply NoDup_app. split; [exact Hnd|]. split.
        -- intros q Hq Hq'. apply list_elem_of_singleton in Hq'. subst q.
           apply Hp. apply IHin. exact Hq.
        -- apply NoDup_singleton.
Qed.

(** In a dictionary whose keys are the columns, the value of a column is at
    the column's position. *)
Lemma values_array_get_loc (d : pydict) :
  forall (name : string) (j : nat),
  Access.get_loc (dict_keys d) name = OK j ->
  values_array d !! j = to_float64 <$> dict_get d name.
Proof.
  induction d as [|[k v] d IH]; intros name j; simpl; [discriminate|].
  destruct (String.eqb k name) eqn:E.
  - intros [= <-]. reflexivity.
  - destruct (Access.get_loc (dict_keys d) name) as [j'|e] eqn:Hj;
      simpl; [|discriminate].
    intros [= <-]. simpl. apply IH. exact Hj.
Qed.

Lemma get_loc_raises (cols : list string) (name : string) (e : exn) :
  Access.get_loc cols name = Raise e -> name ∉ cols.
Proof.
  induction cols as [|c cols IH]; simpl; intros H Hin; [inversion Hin|].
  destruct (String.eqb c name) eqn:E; [discriminate|].
  destruct (Access.get_loc cols name) eqn:Hg; simpl in H; [discriminate|].
  apply elem_of_cons in Hin as [->|Hin].
  - rewrite String.eqb_refl in E. discriminate.
  - eapply IH; eauto.
Qed.

Lemma dict_get_None (d : pydict) (name : string) :
  name ∉ dict_keys d -> dict_get d name = None.
Proof.
  induction d as [|[k v] d IH]; simpl; intros Hin; [reflexivity|].
  destruct (String.eqb k name) eqn:E.
  - apply String.eqb_eq in E. subst. exfalso. apply Hin. left.
  - apply IH. intros H. apply Hin. right. exact H.
Qed.

End Dictionaries.

(** ** What an append puts in the dictionary and in the table *)

Section Appends.
Import Collection.

(** [_add_dict] by its parts. *)
Lemma add_dict_unfold (self : t) (values : list float)
    (derived : option (list float)) (weight : pynum) (logpost : option float)
    (logpriors loglikes : option (list float)) (d : pydict) :
  _add_dict self values derived weight logpost logpriors loglikes d =
  match logpost_or_sum logpost logpriors loglikes with
  | Raise e => (Raise e, dict_set d _weight weight)
  | OK lp =>
      let d3 :=
        dict_after_loglikes self
          (dict_after_logpriors self (dict_after_logpost d weight lp)
             logpriors)
          loglikes in
      if decide (length values ≠ length (sampled_params self)) then
        (Raise (LoggedError
           (MsgSampledArity (length values) (length (sampled_params self)))),
         d3)
      else
        match derived with
        | Some dv =>
            if decide (length dv ≠ length (derived_params self)) then
              (Raise (LoggedError
                 (MsgDerivedArity (length dv)
                    (length (derived_params self)))),
               dict_after_values self d3 values)
            else
              (OK tt,
               dict_after_derived self (dict_after_values self d3 values)
                 derived)
        | None =>
            (OK tt,
             dict_after_derived self (dict_after_values self d3 values)
               derived)
        end
  end.
Proof.
  unfold _add_dict. unfold_se.
  destruct (logpost_or_sum logpost logpriors loglikes) as [lp|e];
    [|reflexivity].
  cbv zeta.
  destruct logpriors as [lpr|], loglikes as [ll|];
    cbn [dict_after_logpriors dict_after_loglikes];
    (destruct (decide (length values ≠ length (sampled_params self)));
     [reflexivity|]);
    (destruct derived as [dv|];
     [destruct (decide (length dv ≠ length (derived_params self)))|]);
    reflexivity.
Qed.

(** A call of [_add_dict] that goes through has run all its parts. *)
Lemma add_dict_ok (self : t) (values : list float)
    (derived : option (list float)) (weight : pynum) (logpost : option float)
    (logpriors loglikes : option (list float)) (d d' : pydict) :
  _add_dict self values derived weight logpost logpriors loglikes d
    = (OK tt, d') ->
  exists lp,
    logpost_or_sum logpost logpriors loglikes = OK lp /\
    length values = length (sampled_params self) /\
    (forall dv, derived = Some dv ->
       length dv = length (derived_params self)) /\
    d' = dict_after_derived self
           (dict_after_values self
              (dict_after_loglikes self
                 (dict_after_logpriors self
                    (dict_after_logpost d weight lp) logpriors)
                 loglikes)
              values)
           derived.
Proof.
  rewrite add_dict_unfold.
  destruct (logpost_or_sum logpost logpriors loglikes) as [lp|e];
    [|discriminate].
  cbv zeta.
  destruct (decide (length values ≠ length (sampled_params self)))
    as [Hv|Hv]; [discriminate|].
  apply dec_stable in Hv.
  destruct derived as [dv|].
  - destruct (decide (length dv ≠ length (derived_params self)))
      as [Hd|Hd]; [discriminate|].
    apply dec_stable in Hd. intros [= <-]. exists lp.
    repeat split; auto. intros ? [= <-]. exact Hd.
  - intros [= <-]. exists lp. repeat split; auto. intros ? [=].
Qed.

Lemma has_names_keys (c : t) (d d' : pydict) :
  dict_keys d' = dict_keys d -> has_names c d -> has_names c d'.
Proof. intros Hk H nm Hnm. rewrite Hk. apply H, Hnm. Qed.

Lemma dict_set_has (c : t) (d : pydict) (k : string) (v : pynum) :
  has_names c d ->
  k ∈ [_weight; _minuslogpost; _minuslogprior; _chi2]
        ++ minuslogprior_names c ++ chi2_names c
        ++ sampled_params c ++ derived_params c ->
  dict_keys (dict_set d k v) = dict_keys d.
Proof. intros H Hk. apply dict_set_keys_in, H, Hk. Qed.

Lemma dict_after_logpost_keys (c : t) (d : pydict) (w lp : pynum) :
  has_names c d -> dict_keys (dict_after_logpost d w lp) = dict_keys d.
Proof.
  intros H. unfold dict_after_logpost.
  assert (H1 : dict_keys (dict_set d _weight w) = dict_keys d).
  { apply (dict_set_has c); [exact H|]. in_names. }
  rewrite (dict_set_has c); [exact H1| |in_names].
  eapply has_names_keys; eauto.
Qed.

Lemma dict_after_logpriors_keys (c : t) (d : pydict)
    (logpriors : option (list float)) :
  has_names c d -> dict_keys (dict_after_logpriors c d logpriors) = dict_keys d.
Proof.
  intros H. destruct logpriors as [lp|]; [|reflexivity]. simpl.
  assert (H1 : dict_keys (dict_set_zip (fun v => py_neg (PyFloat v)) d
                            (minuslogprior_names c) lp) = dict_keys d).
  { apply dict_set_zip_keys. intros nm Hnm. apply H. in_names. }
  rewrite (dict_set_has c); [exact H1| |in_names].
  eapply has_names_keys; eauto.
Qed.

Lemma dict_after_loglikes_keys (c : t) (d : pydict)
    (loglikes : option (list float)) :
  has_names c d -> dict_keys (dict_after_loglikes c d loglikes) = dict_keys d.
Proof.
  intros H. destruct loglikes as [ll|]; [|reflexivity]. simpl.
  assert (H1 : dict_keys (dict_set_zip
                            (fun v => py_mul (PyInt (-2)) (PyFloat v)) d
                            (chi2_names c) ll) = dict_keys d).
  { apply dict_set_zip_keys. intros nm Hnm. apply H. in_names. }
  rewrite (dict_set_has c); [exact H1| |in_names].
  eapply has_names_keys; eauto.
Qed.

Lemma dict_after_values_keys (c : t) (d : pydict) (values : list float) :
  has_names c d -> dict_keys (dict_after_values c d values) = dict_keys d.
Proof.
  intros H. apply dict_set_zip_keys. intros nm Hnm. apply H. in_names.
Qed.

Lemma dict_after_derived_keys (c : t) (d : pydict)
    (derived : option (list float)) :
  has_names c d -> dict_keys (dict_after_derived c d derived) = dict_keys d.
Proof.
  intros H. destruct derived as [dv|]; [|reflexivity].
  apply dict_set_zip_keys. intros nm Hnm. apply H. in_names.
Qed.

(** A call of [_add_dict] never changes the keys of a dictionary that has
    all the names of the collection, whether it raises or not. *)
Lemma add_dict_keys (self : t) (values : list float)
    (derived : option (list float)) (weight : pynum) (logpost : option float)
    (logpriors loglikes : option (list float)) (d : pydict) :
  has_names self d ->
  dict_keys
    (snd (_add_dict self values derived weight logpost logpriors loglikes d))
  = dict_keys d.
Proof.
  intros H.
  assert (Hw : dict_keys (dict_set d _weight weight) = dict_keys d).
  { apply (dict_set_has self); [exact H|]. in_names. }
  rewrite add_dict_unfold.
  destruct (logpost_or_sum logpost logpriors loglikes) as [lp|e];
    [|exact Hw].
  pose proof (dict_after_logpost_keys self d weight lp H) as K1.
  pose proof (has_names_keys self _ _ K1 H) as N1.
  pose proof (dict_after_logpriors_keys self _ logpriors N1) as K2.
  pose proof (has_names_keys self _ _ K2 N1) as N2.
  pose proof (dict_after_loglikes_keys self _ loglikes N2) as K3.
  pose proof (has_names_keys self _ _ K3 N2) as N3.
  pose proof (dict_after_values_keys self _ values N3) as K4.
  pose proof (has_names_keys self _ _ K4 N3) as N4.
  pose proof (dict_after_derived_keys self _ derived N4) as K5.
  cbv zeta.
  destruct (decide (length values ≠ length (sampled_params self)));
    [cbn [snd]; congruence|].
  destruct derived as [dv|];
    [destruct (decide (length dv ≠ length (derived_params self)))|];
    cbn [snd]; congruence.
Qed.

(** The names of a well-formed collection are keys of its dictionary. *)
Lemma inv_has_names (c : t) : inv c -> has_names c (_value_dict c).
Proof.
  intros [Hcols Hkeys] nm Hnm. rewrite Hkeys.
  apply (proj1 (nan_dict_keys (columns c))). rewrite Hcols.
  unfold columns_of.
  destruct (decide (nm ∈ derived_params c)) as [Hd|Hd].
  - destruct (decide (nm ∈ chi2_names c)) as [Hc|Hc].
    + in_names.
    + assert (nm ∈ filter (fun p => p ∉ chi2_names c) (derived_params c))
        by (apply list_elem_of_filter; split; assumption).
      in_names.
  - revert Hnm. in_names.
Qed.

(** [_enlarge_if_needed] only ever adds rows of NaN at the end. *)
Lemma enlarge_data (g : globals) (c : t) :
  exists k,
    snd (_enlarge_if_needed g c) =
      set_data c (data c ++ nan_frame (length (columns c)) k).
Proof.
  unfold _enlarge_if_needed. unfold_se.
  destruct (decide (length (data c) <= _n c)%nat).
  - destruct (match factor_if_true g with Some _ => _ | None => _ end)
      as [k|e].
    + exists k. reflexivity.
    + exists 0%nat. destruct c. unfold set_data, nan_frame. simpl.
      rewrite app_nil_r. reflexivity.
  - exists 0%nat. destruct c. unfold set_data, nan_frame. simpl.
    rewrite app_nil_r. reflexivity.
Qed.

(** [add] by its parts. *)
Lemma add_unfold (g : globals) (values : list float)
    (derived : option (list float)) (weight : pynum) (logpost : option float)
    (logpriors loglikes : option (list float)) (c : t) :
  add g values derived weight logpost logpriors loglikes c =
  match _enlarge_if_needed g c with
  | (Raise e, c1) => (Raise e, c1)
  | (OK _, c1) =>
      match _add_dict c1 values derived weight logpost logpriors loglikes
              (_value_dict c1) with
      | (Raise e, d) => (Raise e, set_value_dict c1 d)
      | (OK _, d) =>
          match res_bind (np_array d)
                  (iloc_set (data c1) (length (columns c1)) (_n c1)) with
          | Raise e => (Raise e, set_value_dict c1 d)
          | OK df =>
              (OK tt, set_n (set_data (set_value_dict c1 d) df) (S (_n c1)))
          end
      end
  end.
Proof.
  unfold add, on_value_dict. unfold_se.
  destruct (_enlarge_if_needed g c) as [[[]|e] c1]; [|reflexivity].
  destruct (_add_dict c1 _ _ _ _ _ _ _) as [[[]|e] d]; [|reflexivity].
  cbn [_value_dict data columns _n set_value_dict].
  destruct (np_array d) as [arr|e]; [|reflexivity]. cbn [res_bind].
  destruct (iloc_set _ _ _ _); reflexivity.
Qed.

(** The row that [add] writes, when it writes one. *)
Lemma write_row_OK (d : pydict) (df df' : list (list float)) (ncols i : nat) :
  res_bind (np_array d) (iloc_set df ncols i) = OK df' ->
  iloc_set df ncols i (values_array d) = OK df' /\
  forallb fits_float64 (dict_values d) = true.
Proof.
  destruct (np_array d) as [arr|e] eqn:Harr; [|discriminate].
  apply np_array_OK in Harr as [-> Hfit]. simpl. auto.
Qed.

(** Whatever [add] raises, the counter and the rows are as before. *)
Lemma add_raise_keeps (g : globals) (values : list float)
    (derived : option (list float)) (weight : pynum) (logpost : option float)
    (logpriors loglikes : option (list float)) (c c' : t) (e : exn) :
  add g values derived weight logpost logpriors loglikes c = (Raise e, c') ->
  __len__ c' = __len__ c /\
  exists k, data c' = data c ++ nan_frame (length (columns c)) k.
Proof.
  rewrite add_unfold.
  destruct (enlarge_data g c) as [k Hk].
  destruct (_enlarge_if_needed g c) as [r c1]. simpl in Hk. subst c1.
  destruct r as [[]|e1].
  - destruct (_add_dict _ _ _ _ _ _ _ _) as [[[]|e2] d].
    + destruct (res_bind _ _); [discriminate|].
      intros [= _ <-]. split; [reflexivity|]. exists k. reflexivity.
    + intros [= _ <-]. split; [reflexivity|]. exists k. reflexivity.
  - intros [= _ <-]. split; [reflexivity|]. exists k. reflexivity.
Qed.

End Appends.

(** ** An append that fails *)

Section FailedAppend.
Import Collection.

(** C9, as the code has it.  An [add] with the wrong number of sampled
    values, or of derived values when these are given, raises, and where it
    stops the counter [_n] is as before and every row the data frame had is
    as before.  The collection is not as before: the data frame is the old
    one followed by the rows of NaN of the enlargement, if there was one,
    and the dictionary has been given the weight, the log-posterior and
    what the call has for the priors and the likelihoods, and the sampled
    values too when it is the derived values that do not fit.  When the
    enlargement goes through and the log-posterior is there, what is raised
    is the error about the number of values. *)
Theorem arity_mismatch_writes_no_row (g : globals) (values : list float)
    (derived : option (list float)) (weight : pynum) (logpost : option float)
    (logpriors loglikes : option (list float)) (c : t) :
  (length values ≠ length (sampled_params c) \/
   exists dv, derived = Some dv /\ length dv ≠ length (derived_params c)) ->
  exists e c',
    add g values derived weight logpost logpriors loglikes c = (Raise e, c')
    /\ __len__ c' = __len__ c
    /\ (forall i r, data c !! i = Some r -> data c' !! i = Some r)
    /\ (exists k, data c' = data c ++ nan_frame (length (columns c)) k)
    /\ (forall x lp,
          fst (_enlarge_if_needed g c) = OK x ->
          logpost_or_sum logpost logpriors loglikes = OK lp ->
          e = LoggedError
                (if decide (length values ≠ length (sampled_params c)) then
                   MsgSampledArity (length values) (length (sampled_params c))
                 else
                   MsgDerivedArity (length (default [] derived))
                     (length (derived_params c))) /\
          data c' = data (snd (_enlarge_if_needed g c)) /\
          _value_dict c' =
            let d3 :=
              dict_after_loglikes c
                (dict_after_logpriors c
                   (dict_after_logpost (_value_dict c) weight lp) logpriors)
                loglikes in
            if decide (length values ≠ length (sampled_params c)) then d3
            else dict_after_values c d3 values).
Proof.
  intros Hbad.
  assert (Hraise : exists e c',
            add g values derived weight logpost logpriors loglikes c
              = (Raise e, c') /\
            (forall x lp,
               fst (_enlarge_if_needed g c) = OK x ->
               logpost_or_sum logpost logpriors loglikes = OK lp ->
               e = LoggedError
                     (if decide (length values ≠ length (sampled_params c))
                      then MsgSampledArity (length values)
                             (length (sampled_params c))
                      else MsgDerivedArity (length (default [] derived))
                             (length (derived_params c))) /\
               data c' = data (snd (_enlarge_if_needed g c)) /\
               _value_dict c' =
                 let d3 :=
                   dict_after_loglikes c
                     (dict_after_logpriors c
                        (dict_after_logpost (_value_dict c) weight lp)
                        logpriors)
                     loglikes in
                 if decide (length values ≠ length (sampled_params c))
                 then d3 else dict_after_values c d3 values)).
  { rewrite add_unfold.
    destruct (enlarge_data g c) as [k Hk].
    destruct (_enlarge_if_needed g c) as [r c1]. simpl in Hk. subst c1.
    destruct r as [[]|e1].
    - rewrite add_dict_unfold.
      cbn [sampled_params derived_params _value_dict set_data].
      destruct (logpost_or_sum logpost logpriors loglikes) as [lp|e2].
      + cbv zeta.
        destruct (decide (length values ≠ length (sampled_params c)))
          as [Hv|Hv].
        * eexists. eexists. split; [reflexivity|].
          intros x lp' _ [= <-]. repeat split.
        * destruct Hbad as [Hbad|(dv & -> & Hdv)]; [contradiction|].
          destruct (decide (length dv ≠ length (derived_params c)));
            [|contradiction].
          eexists. eexists. split; [reflexivity|].
          intros x lp' _ [= <-]. repeat split.
      + eexists. eexists. split; [reflexivity|]. intros ? ? _ [=].
    - eexists. eexists. split; [reflexivity|]. intros ? ? [=]. }
  destruct Hraise as (e & c' & Hadd & He).
  exists e, c'. split; [exact Hadd|].
  destruct (add_raise_keeps _ _ _ _ _ _ _ _ _ _ Hadd) as (Hn & k & Hdata).
  split; [exact Hn|]. split; [|split; [exists k; exact Hdata | exact He]].
  intros i r Hi. rewrite Hdata. apply lookup_app_l_Some. exact Hi.
Qed.

Lemma arity_mismatch_writes_no_row_witness :
  exists e c',
    add default_globals [0.5%float] None (PyInt 1) (Some 4%float) None None
      example_two_samples = (Raise e, c') /\
    __len__ c' = 2%nat /\
    e = LoggedError (MsgSampledArity 1 2) /\
    dict_get (_value_dict c') _minuslogpost = Some (PyFloat (-4)).
Proof.
  destruct (arity_mismatch_writes_no_row default_globals [0.5%float] None
              (PyInt 1) (Some 4%float) None None example_two_samples
              ltac:(left; vm_compute; lia))
    as (e & c' & Hadd & Hn & _ & _ & He).
  exists e, c'. split; [exact Hadd|]. split; [exact Hn|].
  destruct (He tt (PyFloat 4) ltac:(vm_compute; reflexivity)
              ltac:(reflexivity)) as (Ee & _ & Ed).
  split; [exact Ee|]. rewrite Ed. vm_compute. reflexivity.
Defined.

(** C9, as stated, fails: the failed append is not atomic.  On a new
    collection without rows the call that raises has enlarged the data
    frame; on a collection of two samples it has overwritten the dictionary,
    and the next append, which gives no log-priors, writes the prior of the
    failed call, [50], where without the failed call it writes the prior of
    the last sample, [1]. *)
Lemma failed_add_changes_collection :
  let failed (c : t) :=
    add default_globals [0.5%float] None (PyInt 1) None
      (Some [(-50)%float]) (Some [(-2)%float; (-3)%float]) c in
  let next (c : t) :=
    snd (add default_globals [0.5; 0.25]%float None (PyInt 1)
           (Some 4%float) None None c) in
  let c0 := init example_model None 0 None in
  let c := example_two_samples in
  fst (failed c0) = Raise (LoggedError (MsgSampledArity 1 2)) /\
  length (data c0) = 0%nat /\ length (data (snd (failed c0))) = 100%nat /\
  fst (failed c) = Raise (LoggedError (MsgSampledArity 1 2)) /\
  _value_dict (snd (failed c)) <> _value_dict c /\
  Access.cell (next c) 2 _minuslogprior = Some 1%float /\
  Access.cell (next (snd (failed c))) 2 _minuslogprior = Some 50%float.
Proof.
  repeat split; try (vm_compute; reflexivity).
  vm_compute. discriminate.
Qed.

End FailedAppend.

(** ** An append that goes through *)

Section GoodAppend.
Import Collection Access.

(** Whatever [add] does, the collection stays well-formed. *)
Lemma add_inv (g : globals) (values : list float)
    (derived : option (list float)) (weight : pynum) (logpost : option float)
    (logpriors loglikes : option (list float)) (c : t) :
  inv c ->
  inv (snd (add g values derived weight logpost logpriors loglikes c)).
Proof.
  intros Hinv. pose proof (inv_has_names c Hinv) as Hn.
  destruct Hinv as [Hcols Hkeys].
  rewrite add_unfold.
  destruct (enlarge_data g c) as [k Hk].
  destruct (_enlarge_if_needed g c) as [r c1]. simpl in Hk. subst c1.
  destruct r as [[]|e1]; [|split; assumption].
  pose proof (add_dict_keys (set_data c (data c ++ nan_frame (length (columns c)) k))
                values derived weight logpost logpriors loglikes
                (_value_dict c) Hn) as Hd.
  cbn [_value_dict set_data columns _n data] in *.
  destruct (_add_dict _ _ _ _ _ _ _ _) as [[[]|e2] d]; simpl in Hd.
  - destruct (res_bind _ _); split; simpl; try assumption; congruence.
  - split; simpl; try assumption; congruence.
Qed.

(** After an [add] that went through on a well-formed collection: the names
    are as before and all different, the dictionary went through all the
    parts of [_add_dict], and the new row, at the old [_n], holds the values
    of the dictionary, each in its column. *)
Lemma add_ok_cells (g : globals) (values : list float)
    (derived : option (list float)) (weight : pynum) (logpost : option float)
    (logpriors loglikes : option (list float)) (c c' : t) :
  inv c ->
  add g values derived weight logpost logpriors loglikes c = (OK tt, c') ->
  inv c' /\
  NoDup (columns c) /\
  columns c' = columns c /\
  sampled_params c' = sampled_params c /\
  derived_params c' = derived_params c /\
  minuslogprior_names c' = minuslogprior_names c /\
  chi2_names c' = chi2_names c /\
  __len__ c' = S (__len__ c) /\
  (exists lp,
     logpost_or_sum logpost logpriors loglikes = OK lp /\
     length values = length (sampled_params c) /\
     _value_dict c' =
       dict_after_derived c
         (dict_after_values c
            (dict_after_loglikes c
               (dict_after_logpriors c
                  (dict_after_logpost (_value_dict c) weight lp) logpriors)
               loglikes)
            values)
         derived) /\
  (forall name,
     cell c' (__len__ c) name = to_float64 <$> dict_get (_value_dict c') name).
Proof.
  intros Hinv Hadd.
  pose proof (add_inv g values derived weight logpost logpriors loglikes c
                Hinv) as Hinv'.
  rewrite Hadd in Hinv'. simpl in Hinv'.
  split; [exact Hinv'|].
  pose proof (inv_has_names c Hinv) as Hn.
  rewrite add_unfold in Hadd.
  destruct (enlarge_data g c) as [k Hk].
  destruct (_enlarge_if_needed g c) as [r c1]. simpl in Hk. subst c1.
  destruct r as [[]|e1]; [|discriminate].
  pose proof (add_dict_keys (set_data c (data c ++ nan_frame (length (columns c)) k))
                values derived weight logpost logpriors loglikes
                (_value_dict c) Hn) as Hd.
  cbn [_value_dict set_data columns _n data] in *.
  destruct (_add_dict _ _ _ _ _ _ _ _) as [[[]|e2] d] eqn:Hdict;
    [|discriminate].
  simpl in Hd.
  destruct (res_bind _ _) as [df|e3] eqn:Hset; [|discriminate].
  apply write_row_OK in Hset as [Hset _].
  unfold iloc_set in Hset.
  destruct (decide (_n c < length (data c ++ nan_frame (length (columns c)) k))%nat)
    as [Hlt|]; [|discriminate].
  destruct (decide (length (values_array d) = length (columns c)))
    as [Hlen|]; [|discriminate].
  injection Hset as <-. injection Hadd as <-.
  cbn [columns sampled_params derived_params minuslogprior_names chi2_names
       __len__ _n _value_dict set_n set_data set_value_dict data].
  destruct Hinv as [Hcols Hkeys].
  assert (Hdk : dict_keys d = columns c /\ NoDup (columns c)).
  { assert (Hl : length (dict_keys d) = length (columns c)).
    { rewrite <- Hlen. unfold values_array, dict_values, dict_keys.
      rewrite !length_map. reflexivity. }
    rewrite Hd, Hkeys in Hl |- *.
    apply (proj2 (proj2 (nan_dict_keys (columns c)))). exact Hl. }
  destruct Hdk as [Hdk Hnd].
  repeat (split; [first [exact Hnd | reflexivity]|]).
  split.
  - apply add_dict_ok in Hdict as (lp & Hlp & Hv & _ & ->).
    exists lp. repeat split; auto.
  - intros name. unfold cell.
    cbn [columns data set_n set_data set_value_dict].
    rewrite list_lookup_insert_eq by exact Hlt.
    destruct (get_loc (columns c) name) as [j|e] eqn:Hj.
    + simpl. apply values_array_get_loc. rewrite Hdk. exact Hj.
    + apply get_loc_raises in Hj. rewrite dict_get_None; [reflexivity|].
      rewrite Hdk. exact Hj.
Qed.

End GoodAppend.

(** ** Columns an append leaves alone *)

Section Leftovers.
Import Collection Access.

(** In a list of columns without repetition the names of the different
    kinds are apart; a derived parameter is either a column of its own or
    has the name of the column of a likelihood. *)
Lemma names_apart (S D P X : list string) (w mp pr ch : string) :
  NoDup ([w; mp] ++ S ++ filter (fun p => p ∉ X) D ++ (pr :: P) ++ (ch :: X))
  ->
  (NoDup S /\ NoDup P /\ NoDup X /\ w <> mp) /\
  (forall nm, nm ∈ pr :: P ->
     nm <> w /\ nm <> mp /\ (nm ∉ S) /\ (nm ∉ D) /\ nm <> ch /\ (nm ∉ X)) /\
  (forall nm, nm ∈ ch :: X ->
     nm <> w /\ nm <> mp /\ (nm ∉ S) /\ nm <> pr /\ (nm ∉ P)) /\
  ((pr ∉ P) /\ (ch ∉ X) /\ (ch ∉ D)) /\
  (forall nm, nm ∈ [w; mp] ->
     (nm ∉ S) /\ (nm ∉ D) /\ nm <> pr /\ (nm ∉ P) /\ nm <> ch /\ (nm ∉ X)) /\
  (forall nm, nm ∈ D -> (nm ∉ X) ->
     nm <> w /\ nm <> mp /\ (nm ∉ S) /\ nm <> pr /\ (nm ∉ P) /\ nm <> ch).
Proof.
  intros Hnd.
  assert (HD : forall nm, nm ∈ D ->
                 nm ∈ X \/ nm ∈ filter (fun p => p ∉ X) D).
  { intros nm Hnm. destruct (decide (nm ∈ X)); [left; assumption|].
    right. apply list_elem_of_filter. split; assumption. }
  revert Hnd HD. generalize (filter (fun p => p ∉ X) D) as F. intros F Hnd HD.
  rewrite !NoDup_app, !NoDup_cons in Hnd.
  destruct Hnd as ((Hw & _ & _) & DA & NS & DS & NF & DF & (Hpr & NP) & DP
                   & Hch & NX).
  assert (Hwm : w <> mp) by (intros ->; apply Hw; left).
  assert (A_S : forall x, x ∈ [w; mp] -> x ∈ S -> False)
    by (intros x Ha Hb; apply (DA x Ha); rewrite !elem_of_app; tauto).
  assert (A_F : forall x, x ∈ [w; mp] -> x ∈ F -> False)
    by (intros x Ha Hb; apply (DA x Ha); rewrite !elem_of_app; tauto).
  assert (A_P : forall x, x ∈ [w; mp] -> x ∈ pr :: P -> False)
    by (intros x Ha Hb; apply (DA x Ha); rewrite !elem_of_app; tauto).
  assert (A_X : forall x, x ∈ [w; mp] -> x ∈ ch :: X -> False)
    by (intros x Ha Hb; apply (DA x Ha); rewrite !elem_of_app; tauto).
  assert (S_F : forall x, x ∈ S -> x ∈ F -> False)
    by (intros x Ha Hb; apply (DS x Ha); rewrite !elem_of_app; tauto).
  assert (S_P : forall x, x ∈ S -> x ∈ pr :: P -> False)
    by (intros x Ha Hb; apply (DS x Ha); rewrite !elem_of_app; tauto).
  assert (S_X : forall x, x ∈ S -> x ∈ ch :: X -> False)
    by (intros x Ha Hb; apply (DS x Ha); rewrite !elem_of_app; tauto).
  assert (F_P : forall x, x ∈ F -> x ∈ pr :: P -> False)
    by (intros x Ha Hb; apply (DF x Ha); rewrite !elem_of_app; tauto).
  assert (F_X : forall x, x ∈ F -> x ∈ ch :: X -> False)
    by (intros x Ha Hb; apply (DF x Ha); rewrite !elem_of_app; tauto).
  assert (P_X : forall x, x ∈ pr :: P -> x ∈ ch :: X -> False)
    by (intros x Ha Hb; exact (DP x Ha Hb)).
  assert (Iw : w ∈ [w; mp]) by (left).
  assert (Imp : mp ∈ [w; mp]) by (right; left).
  assert (Ipr : pr ∈ pr :: P) by left.
  assert (Ich : ch ∈ ch :: X) by left.
  assert (D_out : forall (Y : list string) x,
            (forall y, y ∈ Y -> y ∈ F -> False) ->
            (forall y, y ∈ Y -> y ∈ ch :: X -> False) ->
            x ∈ Y -> x ∈ D -> False).
  { intros Y x HF HX Hy Hd. destruct (HD x Hd) as [Hx|Hf].
    - apply (HX x Hy). right. exact Hx.
    - exact (HF x Hy Hf). }
  clear DA DS DF DP Hw.
  split; [auto|]. split; [|split; [|split; [|split]]].
  - intros nm Hnm. repeat split.
    + intros ->. exact (A_P w Iw Hnm).
    + intros ->. exact (A_P mp Imp Hnm).
    + intros Hs. exact (S_P nm Hs Hnm).
    + intros Hd. exact (D_out (pr :: P) nm (fun y a b => F_P y b a) P_X Hnm Hd).
    + intros ->. exact (P_X ch Hnm Ich).
    + intros Hx. apply (P_X nm Hnm). right. exact Hx.
  - intros nm Hnm. repeat split.
    + intros ->. exact (A_X w Iw Hnm).
    + intros ->. exact (A_X mp Imp Hnm).
    + intros Hs. exact (S_X nm Hs Hnm).
    + intros ->. exact (P_X pr Ipr Hnm).
    + intros Hp. apply (P_X nm); [right; exact Hp | exact Hnm].
  - repeat split; auto.
    intros Hd. destruct (HD ch Hd) as [Hx|Hf]; [contradiction|].
    exact (F_X ch Hf Ich).
  - intros nm Hnm. repeat split.
    + intros Hs. exact (A_S nm Hnm Hs).
    + intros Hd. exact (D_out [w; mp] nm A_F A_X Hnm Hd).
    + intros ->. exact (A_P pr Hnm Ipr).
    + intros Hp. apply (A_P nm Hnm). right. exact Hp.
    + intros ->. exact (A_X ch Hnm Ich).
    + intros Hx. apply (A_X nm Hnm). right. exact Hx.
  - intros nm Hd Hx. destruct (HD nm Hd) as [?|Hf]; [contradiction|].
    repeat split.
    + intros ->. exact (A_F w Iw Hf).
    + intros ->. exact (A_F mp Imp Hf).
    + intros Hs. exact (S_F nm Hs Hf).
    + intros ->. exact (F_P pr Hf Ipr).
    + intros Hp. apply (F_P nm Hf). right. exact Hp.
    + intros ->. exact (F_X ch Hf Ich).
Qed.

Lemma names_apart_inv (c : t) :
  inv c -> NoDup (columns c) ->
  (NoDup (sampled_params c) /\ NoDup (minuslogprior_names c) /\
   NoDup (chi2_names c) /\ _weight <> _minuslogpost) /\
  (forall nm, nm ∈ _minuslogprior :: minuslogprior_names c ->
     nm <> _weight /\ nm <> _minuslogpost /\ (nm ∉ sampled_params c) /\
     (nm ∉ derived_params c) /\ nm <> _chi2 /\ (nm ∉ chi2_names c)) /\
  (forall nm, nm ∈ _chi2 :: chi2_names c ->
     nm <> _weight /\ nm <> _minuslogpost /\ (nm ∉ sampled_params c) /\
     nm <> _minuslogprior /\ (nm ∉ minuslogprior_names c)) /\
  ((_minuslogprior ∉ minuslogprior_names c) /\ (_chi2 ∉ chi2_names c) /\
   (_chi2 ∉ derived_params c)) /\
  (forall nm, nm ∈ [_weight; _minuslogpost] ->
     (nm ∉ sampled_params c) /\ (nm ∉ derived_params c) /\
     nm <> _minuslogprior /\ (nm ∉ minuslogprior_names c) /\
     nm <> _chi2 /\ (nm ∉ chi2_names c)) /\
  (forall nm, nm ∈ derived_params c -> (nm ∉ chi2_names c) ->
     nm <> _weight /\ nm <> _minuslogpost /\ (nm ∉ sampled_params c) /\
     nm <> _minuslogprior /\ (nm ∉ minuslogprior_names c) /\ nm <> _chi2).
Proof.
  intros [Hcols _] Hnd. rewrite Hcols in Hnd. unfold columns_of in Hnd.
  apply names_apart. exact Hnd.
Qed.

(** A name the call does not assign to keeps its value in the
    dictionary. *)
Lemma dict_get_unassigned (c : t) (d : pydict) (weight lp : pynum)
    (values : list float) (derived logpriors loglikes : option (list float))
    (name : string) :
  name ∉ assigned_names c derived logpriors loglikes ->
  dict_get
    (dict_after_derived c
       (dict_after_values c
          (dict_after_loglikes c
             (dict_after_logpriors c (dict_after_logpost d weight lp)
                logpriors)
             loglikes)
          values)
       derived) name
  = dict_get d name.
Proof.
  unfold assigned_names. intros Hn.
  rewrite !elem_of_app, !elem_of_cons in Hn.
  assert (H1 : name <> _weight /\ name <> _minuslogpost) by tauto.
  assert (H2 : name ∉ sampled_params c) by tauto.
  assert (H3 : derived = None \/ (name ∉ derived_params c))
    by (destruct derived; [right; tauto | left; reflexivity]).
  assert (H4 : logpriors = None \/
               (name <> _minuslogprior /\ (name ∉ minuslogprior_names c)))
    by (destruct logpriors;
        [right; rewrite elem_of_cons in Hn; tauto | left; reflexivity]).
  assert (H5 : loglikes = None \/
               (name <> _chi2 /\ (name ∉ chi2_names c)))
    by (destruct loglikes;
        [right; rewrite !elem_of_cons in Hn; tauto | left; reflexivity]).
  clear Hn.
  transitivity (dict_get (dict_after_values c
          (dict_after_loglikes c
             (dict_after_logpriors c (dict_after_logpost d weight lp)
                logpriors) loglikes) values) name).
  { destruct H3 as [->|H3]; [reflexivity|]. destruct derived; [|reflexivity].
    apply dict_get_set_zip_notin. exact H3. }
  unfold dict_after_values. rewrite dict_get_set_zip_notin by exact H2.
  transitivity (dict_get (dict_after_logpriors c
                            (dict_after_logpost d weight lp) logpriors) name).
  { destruct H5 as [->|[H5 H5']]; [reflexivity|].
    destruct loglikes; [|reflexivity]. simpl.
    rewrite dict_get_set_ne by congruence.
    apply dict_get_set_zip_notin. exact H5'. }
  transitivity (dict_get (dict_after_logpost d weight lp) name).
  { destruct H4 as [->|[H4 H4']]; [reflexivity|].
    destruct logpriors; [|reflexivity]. simpl.
    rewrite dict_get_set_ne by congruence.
    apply dict_get_set_zip_notin. exact H4'. }
  unfold dict_after_logpost.
  rewrite !dict_get_set_ne by (intros ?; intuition congruence).
  reflexivity.
Qed.

(** So the row of an append repeats, in every column the call did not
    assign to, what the dictionary held before the call. *)
Lemma unassigned_cell (g : globals) (values : list float)
    (derived : option (list float)) (weight : pynum) (logpost : option float)
    (logpriors loglikes : option (list float)) (c c' : t) (name : string) :
  inv c ->
  add g values derived weight logpost logpriors loglikes c = (OK tt, c') ->
  name ∉ assigned_names c derived logpriors loglikes ->
  dict_get (_value_dict c') name = dict_get (_value_dict c) name /\
  cell c' (__len__ c) name = to_float64 <$> dict_get (_value_dict c) name.
Proof.
  intros Hinv Hadd Hname.
  destruct (add_ok_cells _ _ _ _ _ _ _ _ _ Hinv Hadd)
    as (_ & _ & _ & _ & _ & _ & _ & _ & (lp & _ & _ & Hd) & Hcell).
  rewrite Hcell, Hd.
  rewrite dict_get_unassigned by exact Hname.
  split; reflexivity.
Qed.

End Leftovers.

(** ** Values left over from an earlier append *)

Section StaleValues.
Import Collection Access.

Lemma init_inv (m : model) (output : option driver_kind) (initial_size : nat)
    (fs : option (list line)) :
  inv (init m output initial_size fs).
Proof. split; reflexivity. Qed.

Lemma nan_dict_get (cols : list string) (name : string) :
  name ∈ cols -> dict_get (nan_dict cols) name = Some (PyFloat nan).
Proof.
  induction cols as [|p cols IH] using rev_ind; intros Hin.
  - inversion Hin.
  - rewrite nan_dict_snoc.
    destruct (String.eqb p name) eqn:E.
    + apply String.eqb_eq in E. subst. apply dict_get_set_eq.
    + rewrite dict_get_set_ne.
      * apply IH. apply elem_of_app in Hin as [Hin|Hin]; [exact Hin|].
        apply list_elem_of_singleton in Hin. subst.
        rewrite String.eqb_refl in E. discriminate.
      * intros ->. rewrite String.eqb_refl in E. discriminate.
Qed.

(** Two appends in a row: in a column the second does not assign to, its
    row repeats the row of the first. *)
Lemma consecutive_unassigned (g1 g2 : globals) (values1 values2 : list float)
    (derived1 derived2 : option (list float)) (weight1 weight2 : pynum)
    (logpost1 logpost2 : option float)
    (logpriors1 logpriors2 loglikes1 loglikes2 : option (list float))
    (c c1 c2 : t) (name : string) :
  inv c ->
  add g1 values1 derived1 weight1 logpost1 logpriors1 loglikes1 c
    = (OK tt, c1) ->
  add g2 values2 derived2 weight2 logpost2 logpriors2 loglikes2 c1
    = (OK tt, c2) ->
  name ∉ assigned_names c1 derived2 logpriors2 loglikes2 ->
  cell c2 (__len__ c1) name = cell c1 (__len__ c) name /\
  cell c2 (__len__ c1) name = to_float64 <$> dict_get (_value_dict c1) name.
Proof.
  intros Hinv Hadd1 Hadd2 Hname.
  destruct (add_ok_cells _ _ _ _ _ _ _ _ _ Hinv Hadd1)
    as (Hinv1 & _ & _ & _ & _ & _ & _ & _ & _ & Hcell1).
  destruct (unassigned_cell _ _ _ _ _ _ _ _ _ _ Hinv1 Hadd2 Hname)
    as [_ Hcell2].
  rewrite Hcell2, Hcell1. split; reflexivity.
Qed.

(** C10.  Two appends in a row on a well-formed collection, both going
    through.  If the second is given no log-priors (it then has a
    log-posterior), its row has, in [minus_log_prior] and in the column of
    every prior, the values of the row of the first: those the dictionary
    was left with.  The same for the columns of the likelihoods when no
    log-likelihoods are given, in every such column no derived value is
    written to, and for the columns of the derived parameters when no
    derived values are given.  On a new collection, a first append without
    log-priors stores NaN there. *)
Theorem omitted_components_keep_previous :
  (forall (g1 g2 : globals) (values1 values2 : list float)
      (derived1 derived2 : option (list float)) (weight1 weight2 : pynum)
      (logpost1 logpost2 : option float)
      (logpriors1 loglikes1 logpriors2 loglikes2 : option (list float))
      (c c1 c2 : t),
    inv c ->
    add g1 values1 derived1 weight1 logpost1 logpriors1 loglikes1 c
      = (OK tt, c1) ->
    add g2 values2 derived2 weight2 logpost2 logpriors2 loglikes2 c1
      = (OK tt, c2) ->
    (logpriors2 = None ->
       logpost2 <> None /\
       forall name, name ∈ _minuslogprior :: minuslogprior_names c ->
         cell c2 (__len__ c1) name = cell c1 (__len__ c) name /\
         cell c2 (__len__ c1) name
           = to_float64 <$> dict_get (_value_dict c1) name) /\
    (loglikes2 = None ->
       forall name, name ∈ _chi2 :: chi2_names c ->
         derived2 = None \/ (name ∉ derived_params c) ->
         cell c2 (__len__ c1) name = cell c1 (__len__ c) name) /\
    (derived2 = None ->
       forall name, name ∈ derived_params c -> (name ∉ chi2_names c) ->
         cell c2 (__len__ c1) name = cell c1 (__len__ c) name)) /\
  (forall (m : model) (output : option driver_kind) (initial_size : nat)
      (fs : option (list line)) (g : globals) (values : list float)
      (derived : option (list float)) (weight : pynum)
      (logpost : option float) (loglikes : option (list float)) (c' : t),
    add g values derived weight logpost None loglikes
        (init m output initial_size fs) = (OK tt, c') ->
    forall name,
      name ∈ _minuslogprior :: minuslogprior_names c' ->
      cell c' 0 name = Some nan).
Proof.
  split.
  - intros g1 g2 values1 values2 derived1 derived2 weight1 weight2 logpost1
      logpost2 logpriors1 loglikes1 logpriors2 loglikes2 c c1 c2 Hinv Hadd1
      Hadd2.
    destruct (add_ok_cells _ _ _ _ _ _ _ _ _ Hinv Hadd1)
      as (Hinv1 & _ & _ & Hs & Hd & Hp & Hx & _ & _ & _).
    destruct (add_ok_cells _ _ _ _ _ _ _ _ _ Hinv1 Hadd2)
      as (_ & Hnd1 & _ & _ & _ & _ & _ & _ & (lp & Hlp & _) & _).
    destruct (names_apart_inv c1 Hinv1 Hnd1)
      as (_ & HP & HX & (_ & _ & Hchd) & _ & HD).
    rewrite Hs, Hd, Hp, Hx in *.
    split; [|split].
    + intros ->. split.
      { intros ->. simpl in Hlp. destruct (py_sum loglikes2); discriminate. }
      intros name Hname.
      eapply consecutive_unassigned; eauto.
      destruct (HP name Hname) as (? & ? & ? & ? & ? & ?).
      unfold assigned_names. rewrite Hs, Hd, Hx.
      rewrite !elem_of_app, !elem_of_cons.
      destruct loglikes2, derived2; rewrite ?elem_of_cons;
        intros Hin; decompose [or] Hin; try contradiction;
        match goal with H : _ ∈ [] |- _ => inversion H end.
    + intros -> name Hname Hder.
      eapply consecutive_unassigned; eauto.
      destruct (HX name Hname) as (? & ? & ? & ? & ?).
      unfold assigned_names. rewrite Hs, Hd, Hp.
      rewrite !elem_of_app, !elem_of_cons.
      destruct logpriors2, derived2; rewrite ?elem_of_cons;
        intros Hin; decompose [or] Hin; try contradiction;
        try match goal with H : _ ∈ [] |- _ => inversion H end;
        destruct Hder as [[=]|Hder]; contradiction.
    + intros -> name Hname Hnx.
      eapply consecutive_unassigned; eauto.
      destruct (HD name Hname Hnx) as (? & ? & ? & ? & ? & ?).
      unfold assigned_names. rewrite Hs, Hp, Hx.
      rewrite !elem_of_app, !elem_of_cons.
      destruct logpriors2, loglikes2; rewrite ?elem_of_cons;
        intros Hin; decompose [or] Hin; try contradiction;
        match goal with H : _ ∈ [] |- _ => inversion H end.
  - intros m output initial_size fs g values derived weight logpost
      loglikes c' Hadd name Hname.
    pose proof (init_inv m output initial_size fs) as Hinv.
    destruct (add_ok_cells _ _ _ _ _ _ _ _ _ Hinv Hadd)
      as (Hinv1 & Hnd & Hc & Hs & Hd & Hp & Hx & _ & _ & _).
    rewrite Hp in Hname.
    destruct (names_apart_inv _ Hinv Hnd) as (_ & HP & _).
    destruct (HP name Hname) as (? & ? & ? & ? & ? & ?).
    assert (Hun : name ∉ assigned_names (init m output initial_size fs)
                          derived None loglikes).
    { unfold assigned_names. rewrite !elem_of_app, !elem_of_cons.
      destruct loglikes, derived; rewrite ?elem_of_cons;
        intros Hin; decompose [or] Hin; try contradiction;
        match goal with H : _ ∈ [] |- _ => inversion H end. }
    destruct (unassigned_cell _ _ _ _ _ _ _ _ _ _ Hinv Hadd Hun)
      as [_ Hcell].
    change (__len__ (init m output initial_size fs)) with 0%nat in Hcell.
    rewrite Hcell.
    change (_value_dict (init m output initial_size fs))
      with (nan_dict (base_columns m)).
    rewrite nan_dict_get; [reflexivity|].
    unfold base_columns.
    change (minuslogprior_names (init m output initial_size fs))
      with (prefixed _minuslogprior (model_prior m)) in Hname.
    rewrite !elem_of_app. right. right. right. left. exact Hname.
Qed.

End StaleValues.

(** ** The values an append stores *)

Section StoredValues.
Import Collection Access.

Lemma get_after_derived (c : t) (d : pydict) (derived : option (list float))
    (name : string) :
  derived = None \/ (name ∉ derived_params c) ->
  dict_get (dict_after_derived c d derived) name = dict_get d name.
Proof.
  intros [->|Hn]; [reflexivity|]. destruct derived; [|reflexivity].
  apply dict_get_set_zip_notin. exact Hn.
Qed.

Lemma get_after_values (c : t) (d : pydict) (values : list float)
    (name : string) :
  name ∉ sampled_params c ->
  dict_get (dict_after_values c d values) name = dict_get d name.
Proof. intros Hn. apply dict_get_set_zip_notin. exact Hn. Qed.

Lemma get_after_loglikes (c : t) (d : pydict) (loglikes : option (list float))
    (name : string) :
  name <> _chi2 -> name ∉ chi2_names c ->
  dict_get (dict_after_loglikes c d loglikes) name = dict_get d name.
Proof.
  intros Hn Hn'. destruct loglikes; [|reflexivity]. simpl.
  rewrite dict_get_set_ne by congruence.
  apply dict_get_set_zip_notin. exact Hn'.
Qed.

Lemma get_after_logpriors (c : t) (d : pydict)
    (logpriors : option (list float)) (name : string) :
  name <> _minuslogprior -> name ∉ minuslogprior_names c ->
  dict_get (dict_after_logpriors c d logpriors) name = dict_get d name.
Proof.
  intros Hn Hn'. destruct logpriors; [|reflexivity]. simpl.
  rewrite dict_get_set_ne by congruence.
  apply dict_get_set_zip_notin. exact Hn'.
Qed.

(** C4, as the code has it.  The append of the scenario stores
    [minus_log_posterior = 6], [minus_log_prior = 1] and [1] for its one
    component, [chi2 = 10] and [4] and [6] for its two components.  In
    general, in the row of an append that goes through on a well-formed
    collection: [minus_log_posterior] is minus the log-posterior, the one
    given or the sum of the two sums; with log-priors given,
    [minus_log_prior] is minus their sum and the column of the [k]-th prior
    is minus the [k]-th of them; with log-likelihoods given, [chi2] is [-2]
    times their sum and the column of the [k]-th likelihood is [-2] times
    the [k]-th of them, unless derived values are given and a derived
    parameter has the name of that column; a derived parameter of the call
    has its value in the column of its name. *)
Theorem add_stores_values :
  (fst (example_add example_empty) = OK tt /\
   let c' := snd (example_add example_empty) in
   cell c' 0 _minuslogpost = Some 6%float /\
   cell c' 0 _minuslogprior = Some 1%float /\
   cell c' 0 "minus_log_prior__p1" = Some 1%float /\
   cell c' 0 _chi2 = Some 10%float /\
   cell c' 0 "chi2__l1" = Some 4%float /\
   cell c' 0 "chi2__l2" = Some 6%float) /\
  (forall (g : globals) (values : list float) (derived : option (list float))
      (weight : pynum) (logpost : option float)
      (logpriors loglikes : option (list float)) (c c' : t),
    inv c ->
    add g values derived weight logpost logpriors loglikes c = (OK tt, c') ->
    (forall x, logpost = Some x ->
       cell c' (__len__ c) _minuslogpost = Some (- x)%float) /\
    (logpost = None ->
       exists lpr ll,
         logpriors = Some lpr /\ loglikes = Some ll /\
         cell c' (__len__ c) _minuslogpost =
           Some (to_float64
                   (py_neg (py_add (py_sum_list lpr) (py_sum_list ll))))) /\
    (forall lpr, logpriors = Some lpr ->
       cell c' (__len__ c) _minuslogprior =
         Some (to_float64 (py_neg (py_sum_list lpr))) /\
       forall k name v,
         minuslogprior_names c !! k = Some name -> lpr !! k = Some v ->
         cell c' (__len__ c) name = Some (- v)%float) /\
    (forall ll, loglikes = Some ll ->
       cell c' (__len__ c) _chi2 =
         Some (to_float64 (py_mul (PyInt (-2)) (py_sum_list ll))) /\
       forall k name v,
         chi2_names c !! k = Some name -> ll !! k = Some v ->
         derived = None \/ (name ∉ derived_params c) ->
         cell c' (__len__ c) name = Some (float_of_Z (-2) * v)%float) /\
    (forall dv, derived = Some dv -> NoDup (derived_params c) ->
       forall k name v,
         derived_params c !! k = Some name -> dv !! k = Some v ->
         cell c' (__len__ c) name = Some v)).
Proof.
  split; [repeat split; vm_compute; reflexivity|].
  intros g values derived weight logpost logpriors loglikes c c' Hinv Hadd.
  destruct (add_ok_cells _ _ _ _ _ _ _ _ _ Hinv Hadd)
    as (_ & Hnd & _ & _ & _ & _ & _ & _ & (lp & Hlp & _ & Hd) & Hcell).
  destruct (names_apart_inv c Hinv Hnd)
    as ((NS & NP & NX & _) & HP & HX & (Hprp & Hchx & Hchd) & HA & _).
  destruct (HA _minuslogpost ltac:(right; left)) as (A1 & A2 & A3 & A4 & A5 & A6).
  destruct (HP _minuslogprior ltac:(left)) as (P1 & P2 & P3 & P4 & P5 & P6).
  destruct (HX _chi2 ltac:(left)) as (X1 & X2 & X3 & X4 & X5).
  assert (Hpost : cell c' (__len__ c) _minuslogpost
                  = Some (to_float64 (py_neg lp))).
  { rewrite Hcell, Hd.
    rewrite get_after_derived by (right; exact A2).
    rewrite get_after_values by exact A1.
    rewrite get_after_loglikes by assumption.
    rewrite get_after_logpriors by assumption.
    unfold dict_after_logpost. rewrite dict_get_set_eq. reflexivity. }
  split; [|split; [|split; [|split]]].
  - intros x ->. injection Hlp as <-. exact Hpost.
  - intros ->. unfold logpost_or_sum in Hlp.
    destruct logpriors as [lpr|]; [|discriminate].
    destruct loglikes as [ll|]; [|discriminate].
    injection Hlp as <-. exists lpr, ll. auto.
  - intros lpr ->. split.
    + rewrite Hcell, Hd.
      rewrite get_after_derived by (right; exact P4).
      rewrite get_after_values by exact P3.
      rewrite get_after_loglikes by assumption.
      simpl. rewrite dict_get_set_eq. reflexivity.
    + intros k name v Hk Hv.
      assert (Hin : name ∈ _minuslogprior :: minuslogprior_names c)
        by (right; apply list_elem_of_lookup; eauto).
      destruct (HP name Hin) as (Q1 & Q2 & Q3 & Q4 & Q5 & Q6).
      rewrite Hcell, Hd.
      rewrite get_after_derived by (right; exact Q4).
      rewrite get_after_values by exact Q3.
      rewrite get_after_loglikes by assumption.
      simpl. rewrite dict_get_set_ne
        by (intros E; apply Hprp; rewrite E; apply list_elem_of_lookup; eauto).
      erewrite dict_get_set_zip_in by eauto. reflexivity.
  - intros ll ->. split.
    + rewrite Hcell, Hd.
      rewrite get_after_derived by (right; exact Hchd).
      rewrite get_after_values by exact X3.
      simpl. rewrite dict_get_set_eq. reflexivity.
    + intros k name v Hk Hv Hder.
      assert (Hin : name ∈ _chi2 :: chi2_names c)
        by (right; apply list_elem_of_lookup; eauto).
      destruct (HX name Hin) as (Q1 & Q2 & Q3 & Q4 & Q5).
      rewrite Hcell, Hd.
      rewrite get_after_derived by exact Hder.
      rewrite get_after_values by exact Q3.
      simpl. rewrite dict_get_set_ne
        by (intros E; apply Hchx; rewrite E; apply list_elem_of_lookup; eauto).
      erewrite dict_get_set_zip_in by eauto. reflexivity.
  - intros dv -> ND k name v Hk Hv.
    rewrite Hcell, Hd. simpl.
    erewrite dict_get_set_zip_in by eauto. reflexivity.
Qed.

Lemma add_stores_values_witness :
  exists c',
    example_add example_empty = (OK tt, c') /\
    cell c' 0 _minuslogpost =
      Some (to_float64
              (py_neg (py_add (py_sum_list [(-1)%float])
                              (py_sum_list [(-2)%float; (-3)%float])))) /\
    cell c' 0 "chi2__l2" = Some (float_of_Z (-2) * (-3))%float.
Proof.
  eexists. split; [vm_compute; reflexivity|].
  pose proof (proj2 add_stores_values default_globals [0.5; 0.25]%float
                (Some [7%float]) (PyInt 1) None (Some [(-1)%float])
                (Some [(-2)%float; (-3)%float]) example_empty _
                ltac:(split; reflexivity) ltac:(vm_compute; reflexivity))
    as (_ & Hpost & _ & Hlikes & _).
  split.
  - destruct (Hpost eq_refl) as (lpr & ll & [= <-] & [= <-] & Hc).
    exact Hc.
  - exact (proj2 (Hlikes _ eq_refl) 1%nat "chi2__l2" (-3)%float
             ltac:(reflexivity) ltac:(reflexivity)
             ltac:(right; vm_compute; intros H; inversion H as [|? ? ? H'];
                   inversion H')).
Defined.

(** C4, as stated, fails for the column of a likelihood whose name a
    derived parameter has: the derived value, assigned last, is what the row
    holds, not [-2] times the log-likelihood. *)
Lemma derived_value_in_chi2_column :
  let r := add default_globals [0.5%float] (Some [7%float]) (PyInt 1) None
             (Some [(-1)%float]) (Some [(-2)%float])
             (init clash_model None 100 None) in
  fst r = OK tt /\
  chi2_names (snd r) !! 0%nat = Some "chi2__l1" /\
  cell (snd r) 0 "chi2__l1" = Some 7%float /\
  cell (snd r) 0 "chi2__l1" <> Some (float_of_Z (-2) * (-2))%float.
Proof.
  split; [vm_compute; reflexivity|].
  split; [vm_compute; reflexivity|].
  split; [vm_compute; reflexivity|].
  vm_compute. intros H. discriminate H.
Qed.

End StoredValues.

(** ** Left-over values in the sample inputs *)

Section StaleValuesExample.
Import Collection Access.

Lemma omitted_components_keep_previous_witness :
  exists c1 c2,
    example_add example_empty = (OK tt, c1) /\
    add default_globals [0.5; 0.25]%float None (PyInt 1) (Some 4%float)
      None None c1 = (OK tt, c2) /\
    cell c2 1 _minuslogprior = cell c1 0 _minuslogprior /\
    cell c2 1 "minus_log_prior__p1" = cell c1 0 "minus_log_prior__p1" /\
    cell c2 1 _minuslogprior = Some 1%float.
Proof.
  eexists. eexists.
  split; [vm_compute; reflexivity|].
  split; [vm_compute; reflexivity|].
  pose proof (proj1 omitted_components_keep_previous
                default_globals default_globals
                [0.5; 0.25]%float [0.5; 0.25]%float
                (Some [7%float]) None (PyInt 1) (PyInt 1) None (Some 4%float)
                (Some [(-1)%float]) (Some [(-2)%float; (-3)%float]) None None
                example_empty _ _
                ltac:(split; reflexivity)
                ltac:(vm_compute; reflexivity)
                ltac:(vm_compute; reflexivity))
    as (Hpriors & _ & _).
  destruct (Hpriors eq_refl) as [_ Hcols].
  split; [exact (proj1 (Hcols _minuslogprior ltac:(left)))|].
  split; [exact (proj1 (Hcols "minus_log_prior__p1" ltac:(right; left)))|].
  vm_compute. reflexivity.
Defined.

End StaleValuesExample.

(** ** Writing the new rows *)

Section Updates.
Import Collection TxtDriver.

(** [_out_update] never raises. With the text driver it does nothing when
    all rows were written, and otherwise appends to the file the rows from
    [_n_last_out] on, below the header if [_n_last_out] is zero. *)
Lemma out_update_unfold (c : t) :
  _out_update c =
  (OK tt,
   match driver c with
   | Dummy => c
   | Txt =>
       if decide (_n_last_out c = __len__ c) then c
       else
         set_file (set_n_last_out c (__len__ c))
           (Some (default [] (file c)
                  ++ to_string
                       (drop (_n_last_out c) (take (__len__ c) (data c)))
                       (columns c)
                       (bool_decide (_n_last_out c = 0%nat))))
   end).
Proof.
  unfold _out_update, _update__txt, _dump_slice__txt, n_last_out, __len__.
  unfold_se.
  destruct (driver c); [|reflexivity].
  destruct (decide (_n_last_out c = _n c)); reflexivity.
Qed.

Lemma out_update_twice (c : t) :
  _out_update (snd (_out_update c)) = (OK tt, snd (_out_update c)).
Proof.
  rewrite (out_update_unfold c). cbn [snd].
  rewrite out_update_unfold. f_equal.
  destruct (driver c) eqn:Hd; rewrite ?Hd; [|reflexivity].
  destruct (decide (_n_last_out c = __len__ c)) as [He|Hne].
  - rewrite Hd. destruct (decide (_n_last_out c = __len__ c));
      [reflexivity|contradiction].
  - cbn [driver set_file set_n_last_out _n_last_out __len__ _n].
    rewrite Hd. unfold __len__.
    destruct (decide (_n c = _n c)); [reflexivity|contradiction].
Qed.

Lemma to_string_headers (rows : frame) (names : list string) (h : bool) :
  rows <> [] ->
  to_string rows names h =
    (if h then [HeaderLine names] else []) ++ map DataLine rows.
Proof. destruct rows; [contradiction|reflexivity]. Qed.

Lemma mirrors_init (m : model) (initial_size : nat)
    (fs : option (list line)) :
  mirrors (init m (Some Txt) initial_size fs).
Proof. repeat split; simpl; lia. Qed.

Lemma mirrors_update (c : t) : mirrors c -> mirrors (snd (_out_update c)).
Proof.
  intros (Hd & Hle & Hcap & Hf).
  rewrite out_update_unfold. cbn [snd]. rewrite Hd.
  destruct (decide (_n_last_out c = __len__ c)) as [He|Hne];
    [repeat split; assumption|].
  unfold mirrors.
  cbn [driver set_file set_n_last_out _n_last_out __len__ _n data file
       columns].
  unfold __len__ in *.
  split; [exact Hd|]. split; [lia|]. split; [exact Hcap|].
  assert (Hrows : drop (_n_last_out c) (take (_n c) (data c)) <> []).
  { intros Hnil. apply (f_equal length) in Hnil.
    rewrite length_drop, length_take in Hnil. simpl in Hnil. lia. }
  rewrite to_string_headers by exact Hrows.
  rewrite Hf. unfold file_of_rows.
  destruct (_n c) as [|n'] eqn:Hn; [lia|]. rewrite <- Hn.
  destruct (_n_last_out c) as [|k] eqn:Hk.
  - rewrite bool_decide_eq_true_2 by reflexivity.
    rewrite drop_0. reflexivity.
  - rewrite bool_decide_eq_false_2 by discriminate.
    simpl. f_equal. f_equal. rewrite <- map_app. f_equal.
    rewrite <- (take_drop (S k) (take (_n c) (data c))) at 2.
    f_equal. rewrite take_take. f_equal. lia.
Qed.

Lemma mirrors_add (g : globals) (values : list float)
    (derived : option (list float)) (weight : pynum) (logpost : option float)
    (logpriors loglikes : option (list float)) (c : t) :
  mirrors c ->
  mirrors (snd (add g values derived weight logpost logpriors loglikes c)).
Proof.
  intros (Hd & Hle & Hcap & Hf).
  destruct (add g values derived weight logpost logpriors loglikes c)
    as [[[]|e] c'] eqn:Hadd; cbn [snd].
  - pose proof Hadd as Hadd'.
    apply add_ok_length in Hadd as (Hn & k & Hlt & Hdata).
    rewrite add_unfold in Hadd'.
    destruct (enlarge_data g c) as [k' Hk'].
    destruct (_enlarge_if_needed g c) as [r c1]. simpl in Hk'. subst c1.
    destruct r as [[]|]; [|discriminate].
    destruct (_add_dict _ _ _ _ _ _ _ _) as [[[]|] d]; [|discriminate].
    destruct (res_bind _ _) as [df|]; [|discriminate].
    injection Hadd' as <-.
    unfold mirrors, file_of_rows, __len__ in *.
    cbn [driver set_n set_data set_value_dict _n_last_out _n data file
         columns] in *.
    split; [exact Hd|]. split; [lia|].
    split; [rewrite Hdata, length_insert, length_app; unfold nan_frame;
            rewrite length_replicate; lia|].
    rewrite Hf. destruct (_n_last_out c) as [|j] eqn:Hj; [reflexivity|].
    f_equal. f_equal. f_equal. rewrite Hdata.
    rewrite take_insert_ge by lia.
    rewrite take_app_le by lia. reflexivity.
  - destruct (add_raise_keeps _ _ _ _ _ _ _ _ _ _ Hadd)
      as (Hn & k & Hdata).
    rewrite add_unfold in Hadd.
    destruct (enlarge_data g c) as [k' Hk'].
    destruct (_enlarge_if_needed g c) as [r c1]. simpl in Hk'. subst c1.
    assert (Hsame : driver c' = driver c /\ _n_last_out c' = _n_last_out c
                    /\ file c' = file c /\ columns c' = columns c).
    { destruct r as [[]|].
      - destruct (_add_dict _ _ _ _ _ _ _ _) as [[[]|] d].
        + destruct (res_bind _ _); [discriminate|].
          injection Hadd as _ <-. repeat split.
        + injection Hadd as _ <-. repeat split.
      - injection Hadd as _ <-. repeat split. }
    destruct Hsame as (S1 & S2 & S3 & S4).
    unfold mirrors, file_of_rows, __len__ in *.
    rewrite S1, S2, S3, S4, Hn, Hdata.
    split; [exact Hd|]. split; [exact Hle|].
    split; [rewrite length_app; lia|].
    rewrite Hf. destruct (_n_last_out c) as [|j] eqn:Hj; [reflexivity|].
    f_equal. f_equal. f_equal. rewrite take_app_le by lia. reflexivity.
Qed.

Lemma mirrors_run (ops : list op) : forall c, mirrors c -> mirrors (run_ops c ops).
Proof.
  induction ops as [|o ops IH]; intros c Hc; [exact Hc|].
  apply IH. destruct o; [apply mirrors_add | apply mirrors_update]; exact Hc.
Qed.

Lemma count_headers_file_of_rows (c : t) (k : nat) :
  count_headers (file_of_rows c k) = (if decide (k = 0%nat) then 0 else 1)%nat.
Proof.
  destruct k as [|k]; [reflexivity|].
  unfold count_headers, file_of_rows. simpl. f_equal.
  generalize (data c) as rows. generalize (S k) as j.
  intros j rows. generalize (take j rows) as l.
  induction l as [|r l IH]; [reflexivity|exact IH].
Qed.

(** C7.  Writing the new rows a second time, with no append in between,
    changes nothing: neither the file nor the collection.  A writing that
    has rows to write appends them to the file, below a header exactly when
    [_n_last_out] was zero.  And through any run of appends and writings on
    a new collection with the text driver, the file is the header followed
    by the rows written so far, so the header is in it once, at the top, as
    soon as anything was written. *)
Theorem update_twice_and_one_header :
  (forall c : t, _out_update (snd (_out_update c)) = (OK tt, snd (_out_update c)))
  /\
  (forall c : t,
     driver c = Txt ->
     (_n_last_out c < __len__ c)%nat -> (__len__ c <= length (data c))%nat ->
     let rows := drop (_n_last_out c) (take (__len__ c) (data c)) in
     file (snd (_out_update c)) =
       Some (default [] (file c)
             ++ (if decide (_n_last_out c = 0%nat)
                 then [HeaderLine (columns c)] else [])
             ++ map DataLine rows) /\
     length rows = (__len__ c - _n_last_out c)%nat /\
     _n_last_out (snd (_out_update c)) = __len__ c)
  /\
  (forall (m : model) (initial_size : nat) (fs : option (list line))
      (ops : list op),
     let c := run_ops (init m (Some Txt) initial_size fs) ops in
     file c = file_of_rows c (_n_last_out c) /\
     count_headers (file c) =
       (if decide (_n_last_out c = 0%nat) then 0 else 1)%nat).
Proof.
  split; [exact out_update_twice|]. split.
  - intros c Hd Hlt Hcap rows.
    rewrite out_update_unfold. cbn [snd]. rewrite Hd.
    destruct (decide (_n_last_out c = __len__ c)) as [He|_]; [lia|].
    cbn [file set_file set_n_last_out _n_last_out].
    assert (Hlen : length rows = (__len__ c - _n_last_out c)%nat).
    { unfold rows. rewrite length_drop, length_take. lia. }
    assert (Hrows : rows <> []).
    { intros Hnil. rewrite Hnil in Hlen. simpl in Hlen. lia. }
    fold rows. rewrite to_string_headers by exact Hrows.
    split; [|split; [exact Hlen | reflexivity]].
    destruct (decide (_n_last_out c = 0%nat)) as [H0|H0].
    + rewrite bool_decide_eq_true_2 by exact H0. reflexivity.
    + rewrite bool_decide_eq_false_2 by exact H0. reflexivity.
  - intros m initial_size fs ops c.
    pose proof (mirrors_run ops _ (mirrors_init m initial_size fs))
      as (_ & _ & _ & Hf).
    fold c in Hf. split; [exact Hf|].
    rewrite Hf. apply count_headers_file_of_rows.
Qed.

Lemma update_twice_and_one_header_witness :
  let c := example_txt_two_samples in
  file c = None /\
  file (snd (_out_update c)) =
    Some ([] ++ [HeaderLine (columns c)] ++ map DataLine (take 2 (data c)))
  /\
  _out_update (snd (_out_update c)) = (OK tt, snd (_out_update c)).
Proof.
  intros c. split; [vm_compute; reflexivity|]. split.
  - exact (proj1 (proj1 (proj2 update_twice_and_one_header) c
                    ltac:(vm_compute; reflexivity)
                    ltac:(vm_compute; lia)
                    ltac:(vm_compute; lia))).
  - exact (proj1 update_twice_and_one_header c).
Defined.

End Updates.

(** * Further properties *)

(** ** Slices of sequences *)

Section Slicing.
Context {A : Type}.

Lemma adjust_limit_bounds (lim : option Z) (len d : Z) :
  0 <= d <= len -> 0 <= adjust_limit lim len 1 d <= len.
Proof.
  intros Hd. unfold adjust_limit. destruct lim as [l|]; [|lia].
  change (1 <? 0) with false. cbv iota.
  destruct (Z.ltb_spec l 0); [destruct (Z.ltb_spec (l + len) 0); lia|].
  destruct (Z.leb_spec len l); lia.
Qed.

Lemma omap_lookup_seq (l : list A) (n : nat) : forall s : nat,
  (s + n <= length l)%nat ->
  omap (fun k => l !! Z.to_nat k)
       (map (fun k => Z.of_nat s + Z.of_nat k * 1) (seq 0 n))
  = take n (drop s l).
Proof.
  induction n as [|n IH]; intros s Hs; [reflexivity|].
  rewrite seq_S, map_app, omap_app, IH by lia. simpl.
  replace (Z.to_nat (Z.of_nat s + Z.of_nat n * 1)) with (s + n)%nat by lia.
  destruct (lookup_lt_is_Some_2 l (s + n)%nat ltac:(lia)) as [x Hx].
  rewrite Hx. simpl.
  rewrite (take_S_r _ _ x); [reflexivity|].
  rewrite lookup_drop. exact Hx.
Qed.

(** A slice with the step left out is a run of consecutive items. *)
Lemma py_getslice_take_drop (l : list A) (start stop : option Z) :
  py_getslice l start stop =
  drop (first_of start (length l)) (take (last_of stop (length l)) l).
Proof.
  unfold py_getslice, slice_indices, first_of, last_of. simpl.
  pose proof (adjust_limit_bounds start (Z.of_nat (length l)) 0 ltac:(lia))
    as Hs.
  pose proof (adjust_limit_bounds stop (Z.of_nat (length l))
                (Z.of_nat (length l)) ltac:(lia)) as He.
  set (s := adjust_limit start _ 1 0) in *.
  set (e := adjust_limit stop _ 1 _) in *.
  unfold py_range, range_len. change (0 <? 1) with true. cbv iota.
  destruct (Z.ltb_spec s e) as [Hlt|Hge].
  - rewrite Z.div_1_r.
    assert (Hmap : map (fun k : nat => s + Z.of_nat k * 1)
                     (seq 0 (Z.to_nat (e - s - 1 + 1)))
                   = map (fun k : nat => Z.of_nat (Z.to_nat s) + Z.of_nat k * 1)
                       (seq 0 (Z.to_nat e - Z.to_nat s))).
    { rewrite Z2Nat.id by lia. f_equal. f_equal. lia. }
    rewrite Hmap, omap_lookup_seq by lia.
    symmetry. apply skipn_firstn_comm.
  - simpl. symmetry. apply drop_ge. rewrite length_take. lia.
Qed.

Lemma first_of_nonneg (a len : nat) :
  first_of (Some (Z.of_nat a)) len = Nat.min a len.
Proof.
  unfold first_of, adjust_limit.
  destruct (Z.ltb_spec (Z.of_nat a) 0); [lia|].
  change (1 <? 0) with false. cbv iota.
  destruct (Z.leb_spec (Z.of_nat len) (Z.of_nat a)); lia.
Qed.

Lemma last_of_nonneg (b len : nat) :
  last_of (Some (Z.of_nat b)) len = Nat.min b len.
Proof.
  unfold last_of, adjust_limit.
  destruct (Z.ltb_spec (Z.of_nat b) 0); [lia|].
  change (1 <? 0) with false. cbv iota.
  destruct (Z.leb_spec (Z.of_nat len) (Z.of_nat b)); lia.
Qed.

Lemma first_of_None (len : nat) : first_of None len = 0%nat.
Proof. reflexivity. Qed.

Lemma last_of_None (len : nat) : last_of None len = len.
Proof. unfold last_of. simpl. lia. Qed.

(** [l[a:b]] for limits from zero on. *)
Lemma py_getslice_nonneg (l : list A) (a b : nat) :
  py_getslice l (Some (Z.of_nat a)) (Some (Z.of_nat b)) = drop a (take b l).
Proof.
  rewrite py_getslice_take_drop, first_of_nonneg, last_of_nonneg.
  destruct (Nat.le_gt_cases b (length l)) as [Hb|Hb].
  - rewrite (Nat.min_l b) by lia.
    destruct (Nat.le_gt_cases a (length l)) as [Ha|Ha].
    + rewrite Nat.min_l by lia. reflexivity.
    + rewrite Nat.min_r by lia. rewrite !drop_ge; auto;
        rewrite length_take; lia.
  - rewrite (Nat.min_r b) by lia. rewrite !take_ge by lia.
    destruct (Nat.le_gt_cases a (length l)) as [Ha|Ha].
    + rewrite Nat.min_l by lia. reflexivity.
    + rewrite Nat.min_r by lia. rewrite !drop_ge; auto; lia.
Qed.

Lemma py_getslice_to (l : list A) (b : nat) :
  py_getslice l None (Some (Z.of_nat b)) = take b l.
Proof.
  rewrite py_getslice_take_drop, first_of_None, last_of_nonneg, drop_0.
  destruct (Nat.le_gt_cases b (length l)).
  - rewrite Nat.min_l by lia. reflexivity.
  - rewrite Nat.min_r by lia. rewrite !take_ge by lia. reflexivity.
Qed.

End Slicing.

Lemma iloc_slice_getslice (df : list (list float)) (a b : option Z) :
  iloc_slice df (mk_slice a b None) = OK (py_getslice df a b).
Proof. reflexivity. Qed.

Section ReadingRows.
Import Collection Access CollectionOps.

(** X1.  Reading by integer index on a collection whose counter is within
    its data frame, apart from index [0] of an empty collection: an index
    [i] with [-L <= i < L] returns the row at [i], or at [L + i] when [i] is
    negative, which is one of the [L] filled rows; any other index raises
    [IndexError].  So with a sample in the collection the index [-1] and the
    index [L - 1] return the same row. *)
Theorem getitem_int_reads_filled_row (c : t) (i : Z) :
  (__len__ c <= length (data c))%nat ->
  (i, Z.of_nat (__len__ c)) <> (0, 0) ->
  let L := Z.of_nat (__len__ c) in
  (- L <= i < L ->
     exists r,
       __getitem__ c (KeyInt i) = OK (ItemRow r) /\
       filled_rows c !! Z.to_nat (if i <? 0 then L + i else i) = Some r) /\
  (~ (- L <= i < L) -> __getitem__ c (KeyInt i) = Raise IndexError) /\
  (0 < L -> __getitem__ c (KeyInt (-1)) = __getitem__ c (KeyInt (L - 1))).
Proof.
  intros Hcap Hne L.
  assert (Hread : forall j, - L <= j < L ->
            exists r,
              __getitem__ c (KeyInt j) = OK (ItemRow r) /\
              filled_rows c !! Z.to_nat (if j <? 0 then L + j else j)
                = Some r).
  { intros j Hj.
    assert (Hne' : (j, L) <> (0, 0)) by (intros [= -> HL]; lia).
    destruct (check_index_spec j L ltac:(lia) Hne') as [Hraise Hok].
    destruct Hok as [Hpos Hin].
    { intros H. apply Hraise in H. lia. }
    unfold __getitem__, res_bind.
    change (Z.of_nat (_n c)) with L. rewrite Hpos.
    set (pos := if j <? 0 then L + j else j) in *.
    unfold iloc_int.
    destruct (Z.ltb_spec pos (- Z.of_nat (length (data c)))); [lia|].
    destruct (Z.leb_spec (Z.of_nat (length (data c))) pos);
      [unfold L, __len__ in *; lia|].
    simpl. destruct (Z.ltb_spec pos 0); [lia|].
    destruct (lookup_lt_is_Some_2 (data c) (Z.to_nat pos)) as [r Hr].
    { unfold L, __len__ in *. lia. }
    rewrite Hr. exists r. split; [reflexivity|].
    unfold filled_rows. rewrite lookup_take_lt; [exact Hr|].
    unfold L in *. lia. }
  split; [exact (Hread i)|]. split.
  - intros Hout.
    destruct (check_index_spec i L ltac:(lia) Hne) as [Hraise _].
    unfold __getitem__, res_bind. change (Z.of_nat (_n c)) with L.
    rewrite (proj2 Hraise) by lia. reflexivity.
  - intros HL.
    destruct (Hread (-1) ltac:(lia)) as (r1 & -> & H1).
    destruct (Hread (L - 1) ltac:(lia)) as (r2 & -> & H2).
    destruct (Z.ltb_spec (L - 1) 0); [lia|].
    change (-1 <? 0) with true in H1. cbv iota in H1.
    replace (L + -1) with (L - 1) in H1 by lia.
    congruence.
Qed.

Lemma getitem_int_reads_filled_row_witness :
  exists r,
    __getitem__ example_two_samples (KeyInt (-1)) = OK (ItemRow r) /\
    filled_rows example_two_samples !! 1%nat = Some r.
Proof.
  assert (HL : __len__ example_two_samples = 2%nat)
    by (vm_compute; reflexivity).
  apply (getitem_int_reads_filled_row example_two_samples (-1)).
  - vm_compute. lia.
  - rewrite HL. intros H. discriminate H.
  - rewrite HL. lia.
Defined.

(** X2.  Reading a range with integer limits not below [-L] and no step, on
    a collection whose counter is within its data frame: the result is that
    range of the filled rows, as Python slices a list of [L] items; no row
    of the empty part is in it. *)
Theorem getitem_slice_of_filled_rows (c : t) (a b : Z) :
  (__len__ c <= length (data c))%nat ->
  - Z.of_nat (__len__ c) <= a -> - Z.of_nat (__len__ c) <= b ->
  __getitem__ c (KeySlice (mk_slice (Some a) (Some b) None)) =
    OK (ItemFrame (py_getslice (filled_rows c) (Some a) (Some b))).
Proof.
  intros Hcap Ha Hb.
  unfold __getitem__, res_bind. rewrite check_slice_int_limits.
  rewrite iloc_slice_getslice. f_equal. f_equal.
  rewrite !py_getslice_take_drop. unfold filled_rows.
  unfold __len__ in *.
  rewrite length_take, (Nat.min_l (_n c)) by exact Hcap.
  set (L := _n c) in *.
  set (a' := if 0 <=? a then Z.min (Z.of_nat L) a else Z.of_nat L + a).
  set (b' := if 0 <=? b then Z.min (Z.of_nat L) b else Z.of_nat L + b).
  assert (Ha' : 0 <= a' <= Z.of_nat L)
    by (unfold a'; destruct (Z.leb_spec 0 a); lia).
  assert (Hb' : 0 <= b' <= Z.of_nat L)
    by (unfold b'; destruct (Z.leb_spec 0 b); lia).
  assert (F1 : first_of (Some a') (length (data c)) = Z.to_nat a').
  { replace a' with (Z.of_nat (Z.to_nat a')) at 1 by lia.
    rewrite first_of_nonneg. lia. }
  assert (F2 : last_of (Some b') (length (data c)) = Z.to_nat b').
  { replace b' with (Z.of_nat (Z.to_nat b')) at 1 by lia.
    rewrite last_of_nonneg. lia. }
  assert (F3 : first_of (Some a) L = Z.to_nat a').
  { unfold first_of, adjust_limit, a'. change (1 <? 0) with false. cbv iota.
    destruct (Z.ltb_spec a 0); destruct (Z.leb_spec 0 a); try lia.
    - destruct (Z.ltb_spec (a + Z.of_nat L) 0); lia.
    - destruct (Z.leb_spec (Z.of_nat L) a); lia. }
  assert (F4 : last_of (Some b) L = Z.to_nat b').
  { unfold last_of, adjust_limit, b'. change (1 <? 0) with false. cbv iota.
    destruct (Z.ltb_spec b 0); destruct (Z.leb_spec 0 b); try lia.
    - destruct (Z.ltb_spec (b + Z.of_nat L) 0); lia.
    - destruct (Z.leb_spec (Z.of_nat L) b); lia. }
  rewrite F1, F2, F3, F4. f_equal.
  rewrite take_take. f_equal. lia.
Qed.

Lemma getitem_slice_of_filled_rows_witness :
  __getitem__ example_two_samples
    (KeySlice (mk_slice (Some (-1)) (Some 1000) None)) =
  OK (ItemFrame (py_getslice (filled_rows example_two_samples)
                   (Some (-1)) (Some 1000))).
Proof.
  assert (HL : __len__ example_two_samples = 2%nat)
    by (vm_compute; reflexivity).
  apply (getitem_slice_of_filled_rows example_two_samples (-1) 1000).
  - vm_compute. lia.
  - rewrite HL. lia.
  - rewrite HL. lia.
Defined.

(** X3.  A range that stops beyond the last sample is the range that stops
    at it: for every integer start and every step, reading
    [[a : L + k]] gives what reading [[a : L]] gives. *)
Theorem getitem_slice_beyond_end (c : t) (a k : Z) (st : option Z) :
  0 <= k ->
  __getitem__ c
    (KeySlice (mk_slice (Some a) (Some (Z.of_nat (__len__ c) + k)) st)) =
  __getitem__ c (KeySlice (mk_slice (Some a) (Some (Z.of_nat (__len__ c))) st)).
Proof.
  intros Hk. unfold __getitem__.
  rewrite check_slice_beyond_end by lia. reflexivity.
Qed.

Lemma getitem_slice_beyond_end_witness :
  __getitem__ example_two_samples
    (KeySlice (mk_slice (Some 1) (Some 1002) None)) =
  __getitem__ example_two_samples
    (KeySlice (mk_slice (Some 1) (Some 2) None)).
Proof.
  exact (getitem_slice_beyond_end example_two_samples 1 1000 None
           ltac:(lia)).
Defined.

End ReadingRows.

(** ** What every method keeps *)

Section Kept.
Import Collection Access TxtDriver.

Lemma nan_dict_keys_nodup (cols : list string) :
  NoDup cols -> dict_keys (nan_dict cols) = cols.
Proof.
  induction cols as [|p cols IH] using rev_ind; intros Hnd; [reflexivity|].
  apply NoDup_app in Hnd as (Hnd & Hp & _).
  rewrite nan_dict_snoc, dict_set_keys_notin.
  - rewrite IH by exact Hnd. reflexivity.
  - intros Hin. apply (proj1 (nan_dict_keys cols)) in Hin.
    apply (Hp p Hin). left.
Qed.

Lemma well_kept_enlarged (c : t) (k : nat) :
  well_kept c ->
  well_kept (set_data c (data c ++ nan_frame (length (columns c)) k)).
Proof.
  intros (Hn & Hw & Hnan). unfold well_kept. cbn [_n data columns set_data].
  split; [rewrite length_app; lia|]. split.
  - apply Forall_app. split; [exact Hw|].
    unfold nan_frame. apply Forall_replicate. apply length_replicate.
  - intros i r Hi Hr. apply lookup_app_Some in Hr as [Hr|[_ Hr]].
    + eapply Hnan; eauto.
    + unfold nan_frame in Hr. apply lookup_replicate in Hr as [-> _].
      reflexivity.
Qed.

Lemma well_kept_written (c : t) (arr : list float) (df : list (list float)) :
  well_kept c ->
  iloc_set (data c) (length (columns c)) (_n c) arr = OK df ->
  well_kept (set_n (set_data c df) (S (_n c))).
Proof.
  intros (Hn & Hw & Hnan). unfold iloc_set.
  destruct (decide (_n c < length (data c))%nat) as [Hlt|]; [|discriminate].
  destruct (decide (length arr = length (columns c))) as [Hlen|];
    [|discriminate].
  intros [= <-]. unfold well_kept. cbn [_n data columns set_data set_n].
  split; [rewrite length_insert; lia|]. split.
  - apply Forall_insert; assumption.
  - intros i r Hi Hr. rewrite list_lookup_insert_ne in Hr by lia.
    eapply Hnan; [|exact Hr]. lia.
Qed.

Lemma add_well_kept (g : globals) (values : list float)
    (derived : option (list float)) (weight : pynum) (logpost : option float)
    (logpriors loglikes : option (list float)) (c : t) :
  well_kept c ->
  well_kept (snd (add g values derived weight logpost logpriors loglikes c)).
Proof.
  intros Hk. rewrite add_unfold.
  destruct (enlarge_data g c) as [k Hk'].
  destruct (_enlarge_if_needed g c) as [r c1]. simpl in Hk'. subst c1.
  pose proof (well_kept_enlarged c k Hk) as Hk1.
  destruct r as [[]|e1]; [|exact Hk1].
  destruct (_add_dict _ _ _ _ _ _ _ _) as [[[]|e2] d]; [|exact Hk1].
  destruct (res_bind _ _) as [df|e3] eqn:Hset; [|exact Hk1].
  apply write_row_OK in Hset as [Hset _].
  cbn [snd].
  exact (well_kept_written
           (set_value_dict
              (set_data c (data c ++ nan_frame (length (columns c)) k)) d)
           _ df Hk1 Hset).
Qed.

Lemma reset_well_kept (index : option nat) (c : t) : well_kept (reset index c).
Proof.
  unfold well_kept, reset. cbn [_n data columns set_data set_n].
  split; [lia|]. split.
  - unfold nan_frame. apply Forall_replicate. apply length_replicate.
  - intros i r _ Hr. unfold nan_frame in Hr.
    apply lookup_replicate in Hr as [-> _]. reflexivity.
Qed.

(** [_out_dump] by its parts, like [_out_update]. *)
Lemma out_dump_unfold (c : t) :
  _out_dump c =
  (OK tt,
   match driver c with
   | Dummy => c
   | Txt =>
       if decide (_n_last_out c = __len__ c) then c
       else
         set_file (set_n_last_out c (__len__ c))
           (Some (default [] (file c)
                  ++ to_string (drop 0 (take (__len__ c) (data c)))
                       (columns c) (bool_decide (0%nat = 0%nat))))
   end).
Proof.
  unfold _out_dump, _dump__txt, _dump_slice__txt, __len__. unfold_se.
  destruct (driver c); [|reflexivity].
  destruct (decide (_n_last_out c = _n c)); reflexivity.
Qed.

Lemma out_delete_unfold (c : t) :
  _out_delete c =
  (OK tt, match driver c with Dummy => c | Txt => set_file c None end).
Proof.
  unfold _out_delete, _delete__txt. unfold_se.
  destruct (driver c); reflexivity.
Qed.

(** The three methods of the output leave the table alone. *)
Lemma out_methods_keep_table (c : t) :
  forall c',
    c' = snd (_out_update c) \/ c' = snd (_out_dump c)
    \/ c' = snd (_out_delete c) ->
    data c' = data c /\ _n c' = _n c /\ columns c' = columns c /\
    _value_dict c' = _value_dict c /\ sampled_params c' = sampled_params c /\
    derived_params c' = derived_params c /\
    minuslogprior_names c' = minuslogprior_names c /\
    chi2_names c' = chi2_names c /\ driver c' = driver c.
Proof.
  intros c' [->|[->| ->]].
  - rewrite out_update_unfold. cbn [snd].
    destruct (driver c) eqn:Hd; [|repeat split; exact Hd].
    destruct (decide _); repeat split; exact Hd.
  - rewrite out_dump_unfold. cbn [snd].
    destruct (driver c) eqn:Hd; [|repeat split; exact Hd].
    destruct (decide _); repeat split; exact Hd.
  - rewrite out_delete_unfold. cbn [snd].
    destruct (driver c) eqn:Hd; repeat split; exact Hd.
Qed.

Lemma run_action_kept (c : t) (a : action) :
  inv c /\ well_kept c -> inv (run_action c a) /\ well_kept (run_action c a).
Proof.
  intros [Hi Hk]. destruct a; cbn [run_action].
  - split; [apply add_inv | apply add_well_kept]; assumption.
  - split; [exact Hi | apply reset_well_kept].
  - destruct (out_methods_keep_table c _ (or_introl eq_refl))
      as (E1 & E2 & E3 & E4 & E5 & E6 & E7 & E8 & _).
    unfold inv, well_kept, columns_of in *.
    rewrite E1, E2, E3, E4, E5, E6, E7, E8. split; assumption.
  - destruct (out_methods_keep_table c _ (or_intror (or_introl eq_refl)))
      as (E1 & E2 & E3 & E4 & E5 & E6 & E7 & E8 & _).
    unfold inv, well_kept, columns_of in *.
    rewrite E1, E2, E3, E4, E5, E6, E7, E8. split; assumption.
  - destruct (out_methods_keep_table c _ (or_intror (or_intror eq_refl)))
      as (E1 & E2 & E3 & E4 & E5 & E6 & E7 & E8 & _).
    unfold inv, well_kept, columns_of in *.
    rewrite E1, E2, E3, E4, E5, E6, E7, E8. split; assumption.
Qed.

Lemma init_well_kept (m : model) (output : option driver_kind)
    (initial_size : nat) (fs : option (list line)) :
  well_kept (init m output initial_size fs).
Proof.
  unfold well_kept, init. cbn [_n data columns].
  split; [lia|]. split.
  - unfold nan_frame. apply Forall_replicate. apply length_replicate.
  - intros i r _ Hr. unfold nan_frame in Hr.
    apply lookup_replicate in Hr as [-> _]. reflexivity.
Qed.

(** X4.  Through any run of appends (going through or not), resets and
    writings, dumps and deletions of the output, on a new collection: the
    counter stays within the data frame, every row has one value per
    column, every row from the counter on is all NaN, and the scratch
    dictionary keeps the keys it was created with. *)
Theorem collection_kept_through_any_run (m : model)
    (output : option driver_kind) (initial_size : nat)
    (fs : option (list line)) (acts : list action) :
  let c := run_actions (init m output initial_size fs) acts in
  (__len__ c <= length (data c))%nat /\
  (forall i r, data c !! i = Some r ->
     length r = length (columns c) /\
     ((__len__ c <= i)%nat -> r = replicate (length (columns c)) nan)) /\
  columns c = base_columns m /\
  dict_keys (_value_dict c) = dict_keys (nan_dict (base_columns m)).
Proof.
  intros c.
  assert (H : inv c /\ well_kept c).
  { subst c. unfold run_actions.
    generalize (conj (init_inv m output initial_size fs)
                     (init_well_kept m output initial_size fs)).
    generalize (init m output initial_size fs) as c0.
    induction acts as [|a acts IH]; intros c0 H0; [exact H0|].
    simpl. apply IH. apply run_action_kept. exact H0. }
  assert (Hcols : forall acts' c0,
            columns (fold_left run_action acts' c0) = columns c0).
  { induction acts' as [|a acts' IH]; intros c0; [reflexivity|].
    simpl. rewrite IH. destruct a; cbn [run_action].
    - rewrite add_unfold.
      destruct (enlarge_data g c0) as [k Hk].
      destruct (_enlarge_if_needed g c0) as [r c1]. simpl in Hk. subst c1.
      destruct r as [[]|]; [|reflexivity].
      destruct (_add_dict _ _ _ _ _ _ _ _) as [[[]|] d]; [|reflexivity].
      destruct (res_bind _ _); reflexivity.
    - reflexivity.
    - apply (out_methods_keep_table c0 _ (or_introl eq_refl)).
    - apply (out_methods_keep_table c0 _ (or_intror (or_introl eq_refl))).
    - apply (out_methods_keep_table c0 _ (or_intror (or_intror eq_refl))). }
  destruct H as [[_ Hkeys] (Hn & Hw & Hnan)].
  assert (Hc : columns c = base_columns m) by (subst c; apply Hcols).
  split; [exact Hn|]. split; [|split; [exact Hc|]].
  - intros i r Hr. split.
    + eapply Forall_lookup_1 in Hw; eauto.
    + intros Hi. eapply Hnan; eauto.
  - rewrite Hkeys, Hc. reflexivity.
Qed.

End Kept.

(** ** Appending and reading back *)

Section AppendRead.
Import Collection Access CollectionOps.

(** [_enlarge_if_needed] with room left changes nothing. *)
Lemma enlarge_with_room (g : globals) (c : t) :
  (_n c < length (data c))%nat -> _enlarge_if_needed g c = (OK tt, c).
Proof.
  intros Hlt. unfold _enlarge_if_needed. unfold_se.
  destruct (decide (length (data c) <= _n c)%nat); [lia|reflexivity].
Qed.

(** X5.  An append that goes through makes the length one more, writes its
    row at the position the counter had, and changes no other row; with
    room left in the data frame the number of rows stays, and it never
    gets less. *)
Theorem add_appends_one_row (g : globals) (values : list float)
    (derived : option (list float)) (weight : pynum) (logpost : option float)
    (logpriors loglikes : option (list float)) (c c' : t) :
  add g values derived weight logpost logpriors loglikes c = (OK tt, c') ->
  __len__ c' = S (__len__ c) /\
  data c' !! __len__ c = Some (values_array (_value_dict c')) /\
  (forall i r, i <> __len__ c -> data c !! i = Some r ->
     data c' !! i = Some r) /\
  (length (data c) <= length (data c'))%nat /\
  ((__len__ c < length (data c))%nat -> length (data c') = length (data c)).
Proof.
  intros Hadd. pose proof Hadd as Hadd'.
  apply add_ok_length in Hadd as (Hn & k & Hlt & Hdata).
  split; [exact Hn|]. split; [|split; [|split]].
  - rewrite Hdata. apply list_lookup_insert_eq.
    rewrite length_app. unfold nan_frame. rewrite length_replicate. exact Hlt.
  - intros i r Hi Hr. rewrite Hdata, list_lookup_insert_ne by auto.
    apply lookup_app_l_Some. exact Hr.
  - rewrite Hdata, length_insert, length_app. lia.
  - intros Hroom. unfold __len__ in Hroom.
    rewrite add_unfold, (enlarge_with_room g c Hroom) in Hadd'.
    destruct (_add_dict _ _ _ _ _ _ _ _) as [[[]|] d]; [|discriminate].
    destruct (res_bind _ _) as [df|] eqn:Hset; [|discriminate].
    apply write_row_OK in Hset as [Hset _]. unfold iloc_set in Hset.
    destruct (decide _); [|discriminate]. destruct (decide _); [|discriminate].
    injection Hset as <-.
    injection Hadd' as <-. cbn [data set_n set_data set_value_dict].
    apply length_insert.
Qed.

Lemma add_appends_one_row_witness :
  exists c',
    example_add example_empty = (OK tt, c') /\
    __len__ c' = 1%nat /\ length (data c') = 100%nat.
Proof.
  eexists. split; [vm_compute; reflexivity|].
  pose proof (add_appends_one_row default_globals [0.5; 0.25]%float
                (Some [7%float]) (PyInt 1) None (Some [(-1)%float])
                (Some [(-2)%float; (-3)%float]) example_empty _
                ltac:(vm_compute; reflexivity))
    as (Hn & _ & _ & _ & Hroom).
  split; [exact Hn|]. apply Hroom. vm_compute. lia.
Defined.

(** The values [_add_dict] assigns are floats, or the integer zero of an
    empty sum: they fit a float when the weight does. *)
Lemma dict_set_fits (d : pydict) (k : string) (v : pynum) :
  forallb fits_float64 (dict_values d) = true -> fits_float64 v = true ->
  forallb fits_float64 (dict_values (dict_set d k v)) = true.
Proof.
  intros Hd Hv. induction d as [|[k' v'] d IH]; simpl in *.
  - rewrite Hv. reflexivity.
  - apply andb_prop in Hd as [H1 H2].
    destruct (String.eqb k' k); simpl.
    + rewrite Hv, H2. reflexivity.
    + rewrite H1, IH by exact H2. reflexivity.
Qed.

Lemma dict_set_zip_fits (f : float -> pynum) (names : list string)
    (vals : list float) :
  (forall x, fits_float64 (f x) = true) ->
  forall d, forallb fits_float64 (dict_values d) = true ->
  forallb fits_float64 (dict_values (dict_set_zip f d names vals)) = true.
Proof.
  intros Hf. unfold dict_set_zip.
  generalize (zip names vals) as l.
  induction l as [|[n v] l IH]; intros d Hd; [exact Hd|].
  simpl. apply IH. apply dict_set_fits; [exact Hd|apply Hf].
Qed.

Lemma py_sum_list_zero_or_float (l : list float) :
  py_sum_list l = PyInt 0 \/ exists f, py_sum_list l = PyFloat f.
Proof.
  unfold py_sum_list. destruct l as [|x l]; [left; reflexivity|right].
  simpl. generalize (float_of_Z 0 + x)%float as acc.
  induction l as [|y l IH]; intros acc; simpl; [eauto|apply IH].
Qed.

Lemma logpost_or_sum_zero_or_float (logpost : option float)
    (logpriors loglikes : option (list float)) (lp : pynum) :
  logpost_or_sum logpost logpriors loglikes = OK lp ->
  lp = PyInt 0 \/ exists f, lp = PyFloat f.
Proof.
  unfold logpost_or_sum. destruct logpost as [x|]; [intros [= <-]; eauto|].
  destruct logpriors as [lpr|]; [|discriminate].
  destruct loglikes as [ll|]; [|discriminate].
  simpl. intros [= <-].
  destruct (py_sum_list_zero_or_float lpr) as [->|[a ->]],
    (py_sum_list_zero_or_float ll) as [->|[b ->]]; simpl; eauto.
Qed.

Lemma add_dict_fits (c : t) (d : pydict) (values : list float)
    (derived : option (list float)) (weight lp : pynum)
    (logpost : option float) (logpriors loglikes : option (list float)) :
  forallb fits_float64 (dict_values d) = true ->
  fits_float64 weight = true ->
  logpost_or_sum logpost logpriors loglikes = OK lp ->
  forallb fits_float64
    (dict_values
       (dict_after_derived c
          (dict_after_values c
             (dict_after_loglikes c
                (dict_after_logpriors c (dict_after_logpost d weight lp)
                   logpriors)
                loglikes)
             values)
          derived)) = true.
Proof.
  intros Hd Hw Hlp.
  assert (H1 : forallb fits_float64
                 (dict_values (dict_after_logpost d weight lp)) = true).
  { unfold dict_after_logpost. apply dict_set_fits.
    - apply dict_set_fits; assumption.
    - destruct (logpost_or_sum_zero_or_float _ _ _ _ Hlp) as [->|[f ->]];
        reflexivity. }
  assert (H2 : forallb fits_float64
                 (dict_values
                    (dict_after_logpriors c (dict_after_logpost d weight lp)
                       logpriors)) = true).
  { destruct logpriors as [lpr|]; [|exact H1]. simpl.
    apply dict_set_fits.
    - apply dict_set_zip_fits; [reflexivity|exact H1].
    - destruct (py_sum_list_zero_or_float lpr) as [->|[f ->]]; reflexivity. }
  assert (H3 : forallb fits_float64
                 (dict_values
                    (dict_after_loglikes c
                       (dict_after_logpriors c
                          (dict_after_logpost d weight lp) logpriors)
                       loglikes)) = true).
  { destruct loglikes as [ll|]; [|exact H2]. simpl.
    apply dict_set_fits.
    - apply dict_set_zip_fits; [reflexivity|exact H2].
    - destruct (py_sum_list_zero_or_float ll) as [->|[f ->]]; reflexivity. }
  assert (H4 : forall d', forallb fits_float64 (dict_values d') = true ->
                 forallb fits_float64
                   (dict_values (dict_after_values c d' values)) = true).
  { intros d' Hd'. unfold dict_after_values.
    apply dict_set_zip_fits; [reflexivity|exact Hd']. }
  destruct derived as [dv|]; simpl; [|apply H4; exact H3].
  apply dict_set_zip_fits; [reflexivity|]. apply H4. exact H3.
Qed.

(** An append with fitting arguments and a weight that fits a float goes
    through, and leaves a dictionary of values that fit. *)
Lemma add_fitting_ok (g : globals) (values : list float)
    (derived : option (list float)) (weight : pynum) (logpost : option float)
    (logpriors loglikes : option (list float)) (c : t) :
  inv c -> NoDup (columns c) ->
  (__len__ c <= length (data c))%nat ->
  fitting c values derived logpost logpriors loglikes ->
  fits_float64 weight = true -> dict_fits c ->
  (__len__ c < length (data c))%nat \/
    (factor_if_true g = None /\ 0 < enlargement_size g) ->
  exists c',
    add g values derived weight logpost logpriors loglikes c = (OK tt, c') /\
    dict_fits c'.
Proof.
  intros Hinv Hnd Hcap (Hv & Hd & Hlp) Hw Hfits Hgrow.
  pose proof (inv_has_names c Hinv) as Hnames.
  destruct Hinv as [Hcols Hkeys].
  rewrite add_unfold. unfold __len__ in *.
  assert (He : exists k,
            _enlarge_if_needed g c =
              (OK tt, set_data c (data c ++ nan_frame (length (columns c)) k))
            /\ (_n c < length (data c) + k)%nat).
  { unfold _enlarge_if_needed. unfold_se.
    destruct (decide (length (data c) <= _n c)%nat) as [Hfull|Hroom].
    - destruct Hgrow as [Hroom|[Hf Hsize]]; [lia|].
      rewrite Hf. exists (arange_len_int (enlargement_size g)).
      split; [reflexivity|]. unfold arange_len_int. lia.
    - exists 0%nat. split; [|lia].
      destruct c. unfold set_data, nan_frame. simpl.
      rewrite app_nil_r. reflexivity. }
  destruct He as (k & -> & Hlt).
  set (c1 := set_data c (data c ++ nan_frame (length (columns c)) k)).
  pose proof (add_dict_keys c1 values derived weight logpost logpriors
                loglikes (_value_dict c) Hnames) as Hdk.
  rewrite add_dict_unfold in *.
  assert (Hsum : exists lp,
            logpost_or_sum logpost logpriors loglikes = OK lp).
  { unfold logpost_or_sum. destruct logpost as [x|]; [eauto|].
    destruct (Hlp eq_refl) as [H1 H2].
    destruct logpriors; [|contradiction]. destruct loglikes; [|contradiction].
    simpl. eauto. }
  destruct Hsum as [lp Hsum].
  pose proof (add_dict_fits c1 (_value_dict c) values derived weight lp
                logpost logpriors loglikes Hfits Hw Hsum) as Hfit'.
  rewrite Hsum in *. cbv zeta in *.
  cbn [sampled_params derived_params c1 set_data] in *.
  destruct (decide (length values ≠ length (sampled_params c)));
    [contradiction|].
  assert (Hrow : forall d,
            dict_keys d = dict_keys (_value_dict c) ->
            forallb fits_float64 (dict_values d) = true ->
            exists df,
              res_bind (np_array d)
                (iloc_set (data c1) (length (columns c1)) (_n c1)) = OK df).
  { intros d Hd' Hfd. unfold np_array. rewrite Hfd. cbn [res_bind].
    unfold iloc_set. cbn [data columns _n c1 set_data].
    destruct (decide (_n c < length (data c ++ nan_frame (length (columns c)) k))%nat)
      as [_|Hn].
    2:{ exfalso. apply Hn. rewrite length_app. unfold nan_frame.
        rewrite length_replicate. exact Hlt. }
    destruct (decide (length (values_array d) = length (columns c)))
      as [_|Hn]; [eauto|].
    exfalso. apply Hn. unfold values_array, dict_values.
    rewrite !length_map.
    rewrite <- (length_map fst d). change (map fst d) with (dict_keys d).
    rewrite Hd', Hkeys, nan_dict_keys_nodup by exact Hnd. reflexivity. }
  change (_value_dict c1) with (_value_dict c).
  destruct derived as [dv|].
  - destruct (decide (length dv ≠ length (derived_params c))) as [Hbad|_].
    { exfalso. apply Hbad. apply Hd. reflexivity. }
    cbn [snd] in Hdk. destruct (Hrow _ Hdk Hfit') as [df ->].
    eexists. split; [reflexivity|exact Hfit'].
  - cbn [snd] in Hdk. destruct (Hrow _ Hdk Hfit') as [df ->].
    eexists. split; [reflexivity|exact Hfit'].
Qed.

(** An integer weight too large for a float: the append raises
    [OverflowError]. *)
Lemma add_overflow_example :
  fits_float64 (PyInt (2 ^ 1024)) = false /\
  fits_float64 (PyInt (2 ^ 1024 - 2 ^ 970)) = false /\
  fits_float64 (PyInt (2 ^ 1024 - 2 ^ 970 - 1)) = true /\
  fst (add default_globals [0.5; 0.25]%float (Some [7%float])
         (PyInt (2 ^ 1024)) (Some 4%float) None None example_empty)
    = Raise OverflowError.
Proof. repeat split; vm_compute; reflexivity. Qed.

(** X6.  On a well-formed collection with all column names different,
    the counter within the data frame and a dictionary of values that fit a
    float, an append with fitting arguments and a weight that fits a float
    goes through, if there is room left or the data frame grows by a
    positive fixed number of rows; the dictionary then still holds values
    that fit. *)
Theorem add_goes_through (g : globals) (values : list float)
    (derived : option (list float)) (weight : pynum) (logpost : option float)
    (logpriors loglikes : option (list float)) (c : t) :
  inv c -> NoDup (columns c) ->
  (__len__ c <= length (data c))%nat ->
  fitting c values derived logpost logpriors loglikes ->
  fits_float64 weight = true -> dict_fits c ->
  (__len__ c < length (data c))%nat \/
    (factor_if_true g = None /\ 0 < enlargement_size g) ->
  exists c',
    add g values derived weight logpost logpriors loglikes c = (OK tt, c') /\
    dict_fits c'.
Proof. apply add_fitting_ok. Qed.

Lemma add_goes_through_witness :
  exists c', example_add example_two_samples = (OK tt, c') /\ dict_fits c'.
Proof.
  apply (add_goes_through default_globals [0.5; 0.25]%float (Some [7%float])
           (PyInt 1) None (Some [(-1)%float]) (Some [(-2)%float; (-3)%float])
           example_two_samples).
  - split; reflexivity.
  - vm_compute. repeat constructor; intros H;
      repeat (apply elem_of_cons in H as [H|H]; [discriminate H|]);
      inversion H.
  - vm_compute. lia.
  - repeat split; try reflexivity.
    + intros dv [= <-]. reflexivity.
    + discriminate.
    + discriminate.
  - vm_compute. reflexivity.
  - vm_compute. reflexivity.
  - left. vm_compute. lia.
Defined.

(** X7.  On a well-formed collection with a column name that comes twice
    (a sampled parameter called [weight], say) every append raises,
    whatever its arguments. *)
Theorem repeated_column_blocks_add (g : globals) (values : list float)
    (derived : option (list float)) (weight : pynum) (logpost : option float)
    (logpriors loglikes : option (list float)) (c : t) :
  inv c -> ~ NoDup (columns c) ->
  exists e c',
    add g values derived weight logpost logpriors loglikes c = (Raise e, c').
Proof.
  intros Hinv Hdup.
  destruct (add g values derived weight logpost logpriors loglikes c)
    as [[[]|e] c'] eqn:Hadd; [|eauto].
  exfalso. apply Hdup.
  exact (proj1 (proj2 (add_ok_cells _ _ _ _ _ _ _ _ _ Hinv Hadd))).
Qed.

Lemma repeated_column_blocks_add_witness :
  exists e c',
    add default_globals [0.5%float] None (PyInt 1) (Some 4%float) None None
      (init (mk_model ["weight"] [] ["p1"] ["l1"]) None 100 None)
    = (Raise e, c').
Proof.
  apply repeated_column_blocks_add.
  - split; reflexivity.
  - intros H. apply NoDup_cons in H as [Hw _]. apply Hw.
    right. left.
Defined.

End AppendRead.

Section ReadBack.
Import Collection Access CollectionOps.

(** With all columns different, a sampled parameter is no derived
    parameter. *)
Lemma sampled_not_derived (c : t) (nm : string) :
  inv c -> NoDup (columns c) ->
  nm ∈ sampled_params c -> nm ∉ derived_params c.
Proof.
  intros [Hcols _] Hnd Hs Hd. rewrite Hcols in Hnd. unfold columns_of in Hnd.
  apply NoDup_app in Hnd as (_ & _ & Hnd).
  apply NoDup_app in Hnd as (_ & Hdis & _).
  apply (Hdis nm Hs).
  destruct (decide (nm ∈ chi2_names c)) as [Hx|Hx].
  - rewrite !elem_of_app, !elem_of_cons. tauto.
  - assert (nm ∈ filter (fun p => p ∉ chi2_names c) (derived_params c))
      by (apply list_elem_of_filter; split; assumption).
    rewrite !elem_of_app. tauto.
Qed.

(** The cells an append fills from the weight and the values of the call. *)
Lemma add_cells_written (g : globals) (values : list float)
    (derived : option (list float)) (weight : pynum) (logpost : option float)
    (logpriors loglikes : option (list float)) (c c' : t) :
  inv c ->
  add g values derived weight logpost logpriors loglikes c = (OK tt, c') ->
  cell c' (__len__ c) _weight = Some (to_float64 weight) /\
  (forall k name v,
     sampled_params c !! k = Some name -> values !! k = Some v ->
     cell c' (__len__ c) name = Some v).
Proof.
  intros Hinv Hadd.
  destruct (add_ok_cells _ _ _ _ _ _ _ _ _ Hinv Hadd)
    as (_ & Hnd & _ & _ & _ & _ & _ & Hn & (lp & Hlp & _ & Hd) & Hcell).
  destruct (names_apart_inv c Hinv Hnd)
    as ((NS & _ & _ & Hwm) & _ & _ & _ & HA & _).
  destruct (HA _weight ltac:(left)) as (A1 & A2 & A3 & A4 & A5 & A6).
  split.
  - rewrite Hcell, Hd.
    rewrite get_after_derived by (right; exact A2).
    rewrite get_after_values by exact A1.
    rewrite get_after_loglikes by assumption.
    rewrite get_after_logpriors by assumption.
    unfold dict_after_logpost.
    rewrite dict_get_set_ne by (intros E; apply Hwm; symmetry; exact E).
    rewrite dict_get_set_eq. reflexivity.
  - intros k name v Hk Hv.
    assert (Hin : name ∈ sampled_params c)
      by (apply list_elem_of_lookup; eauto).
    rewrite Hcell, Hd.
    rewrite get_after_derived
      by (right; apply sampled_not_derived; assumption).
    unfold dict_after_values.
    erewrite dict_get_set_zip_in by eauto. reflexivity.
Qed.

(** The row an append writes holds the point of the call. *)
Lemma add_holds_point (g : globals) (values : list float)
    (derived : option (list float)) (weight : pynum) (logpost : option float)
    (logpriors loglikes : option (list float)) (c c' : t) :
  inv c ->
  add g values derived weight logpost logpriors loglikes c = (OK tt, c') ->
  holds_point c' (__len__ c) values derived weight logpost logpriors
    loglikes.
Proof.
  intros Hinv Hadd.
  destruct (add_cells_written _ _ _ _ _ _ _ _ _ Hinv Hadd) as [Hw Hs].
  destruct (add_ok_cells _ _ _ _ _ _ _ _ _ Hinv Hadd)
    as (_ & Hnd & _ & Hsp & Hdp & Hpn & Hxn & _ & (lp & Hlp & _ & Hd)
        & Hcell).
  destruct (names_apart_inv c Hinv Hnd)
    as ((NS & NP & NX & _) & HP & HX & (Hprp & Hchx & Hchd) & HA & _).
  destruct (HA _minuslogpost ltac:(right; left))
    as (A1 & A2 & A3 & A4 & A5 & A6).
  destruct (HP _minuslogprior ltac:(left)) as (P1 & P2 & P3 & P4 & P5 & P6).
  destruct (HX _chi2 ltac:(left)) as (X1 & X2 & X3 & X4 & X5).
  assert (Hpost : cell c' (__len__ c) _minuslogpost
                  = Some (to_float64 (py_neg lp))).
  { rewrite Hcell, Hd.
    rewrite get_after_derived by (right; exact A2).
    rewrite get_after_values by exact A1.
    rewrite get_after_loglikes by assumption.
    rewrite get_after_logpriors by assumption.
    unfold dict_after_logpost. rewrite dict_get_set_eq. reflexivity. }
  unfold holds_point. rewrite Hsp, Hdp, Hpn, Hxn.
  split; [exact Hw|].
  split; [|split; [|split; [|split; [|split; [exact Hs|]]]]].
  - intros x ->. injection Hlp as <-. exact Hpost.
  - intros ->. unfold logpost_or_sum in Hlp.
    destruct logpriors as [lpr|]; [|discriminate].
    destruct loglikes as [ll|]; [|discriminate].
    injection Hlp as <-. exists lpr, ll. auto.
  - intros lpr ->. split.
    + rewrite Hcell, Hd.
      rewrite get_after_derived by (right; exact P4).
      rewrite get_after_values by exact P3.
      rewrite get_after_loglikes by assumption.
      simpl. rewrite dict_get_set_eq. reflexivity.
    + intros k name v Hk Hv.
      assert (Hin : name ∈ _minuslogprior :: minuslogprior_names c)
        by (right; apply list_elem_of_lookup; eauto).
      destruct (HP name Hin) as (Q1 & Q2 & Q3 & Q4 & Q5 & Q6).
      rewrite Hcell, Hd.
      rewrite get_after_derived by (right; exact Q4).
      rewrite get_after_values by exact Q3.
      rewrite get_after_loglikes by assumption.
      simpl. rewrite dict_get_set_ne
        by (intros E; apply Hprp; rewrite E; apply list_elem_of_lookup; eauto).
      erewrite dict_get_set_zip_in by eauto. reflexivity.
  - intros ll ->. split.
    + rewrite Hcell, Hd.
      rewrite get_after_derived by (right; exact Hchd).
      rewrite get_after_values by exact X3.
      simpl. rewrite dict_get_set_eq. reflexivity.
    + intros k name v Hk Hv Hder.
      assert (Hin : name ∈ _chi2 :: chi2_names c)
        by (right; apply list_elem_of_lookup; eauto).
      destruct (HX name Hin) as (Q1 & Q2 & Q3 & Q4 & Q5).
      rewrite Hcell, Hd.
      rewrite get_after_derived by exact Hder.
      rewrite get_after_values by exact Q3.
      simpl. rewrite dict_get_set_ne
        by (intros E; apply Hchx; rewrite E; apply list_elem_of_lookup; eauto).
      erewrite dict_get_set_zip_in by eauto. reflexivity.
  - intros dv -> ND k name v Hk Hv.
    rewrite Hcell, Hd. simpl.
    erewrite dict_get_set_zip_in by eauto. reflexivity.
Qed.

(** The names of a collection are out of the reach of [add]. *)
Lemma add_keeps_schema (g : globals) (values : list float)
    (derived : option (list float)) (weight : pynum) (logpost : option float)
    (logpriors loglikes : option (list float)) (c : t) :
  let c' := snd (add g values derived weight logpost logpriors loglikes c) in
  columns c' = columns c /\ sampled_params c' = sampled_params c /\
  derived_params c' = derived_params c /\
  minuslogprior_names c' = minuslogprior_names c /\
  chi2_names c' = chi2_names c.
Proof.
  cbv zeta. rewrite add_unfold.
  destruct (enlarge_data g c) as [k Hk].
  destruct (_enlarge_if_needed g c) as [r c1]. simpl in Hk. subst c1.
  destruct r as [[]|e]; [|auto].
  destruct (_add_dict _ _ _ _ _ _ _ _) as [[[]|e] d]; [|auto].
  destruct (res_bind _ _) as [df|e]; auto.
Qed.

(** An append that goes through changes no cell of another row the data
    frame had. *)
Lemma add_keeps_cells (g : globals) (values : list float)
    (derived : option (list float)) (weight : pynum) (logpost : option float)
    (logpriors loglikes : option (list float)) (c c' : t) (i : nat)
    (name : string) :
  add g values derived weight logpost logpriors loglikes c = (OK tt, c') ->
  i <> __len__ c -> (i < length (data c))%nat ->
  cell c' i name = cell c i name.
Proof.
  intros Hadd Hi Hlt.
  pose proof (add_keeps_schema g values derived weight logpost logpriors
                loglikes c) as (Hcols & _). cbv zeta in Hcols.
  rewrite Hadd in Hcols. cbn [snd] in Hcols.
  destruct (add_ok_length _ _ _ _ _ _ _ _ _ Hadd) as (_ & k & _ & Hdata).
  unfold cell. rewrite Hcols, Hdata.
  rewrite list_lookup_insert_ne by auto.
  rewrite lookup_app_l by exact Hlt. reflexivity.
Qed.

(** A row keeps the point it holds while its cells and the names stay. *)
Lemma holds_point_ext (c c' : t) (i : nat) (values : list float)
    (derived : option (list float)) (weight : pynum) (logpost : option float)
    (logpriors loglikes : option (list float)) :
  (forall name, cell c' i name = cell c i name) ->
  sampled_params c' = sampled_params c ->
  derived_params c' = derived_params c ->
  minuslogprior_names c' = minuslogprior_names c ->
  chi2_names c' = chi2_names c ->
  holds_point c i values derived weight logpost logpriors loglikes ->
  holds_point c' i values derived weight logpost logpriors loglikes.
Proof.
  intros Hcell Hsp Hdp Hpn Hxn. unfold holds_point.
  rewrite Hsp, Hdp, Hpn, Hxn.
  intros (H1 & H2 & H3 & H4 & H5 & H6 & H7).
  split; [rewrite Hcell; exact H1|].
  split; [intros x Hx; rewrite Hcell; auto|].
  split.
  { intros Hnone. destruct (H3 Hnone) as (lpr & ll & E1 & E2 & E3).
    exists lpr, ll. rewrite Hcell. auto. }
  split.
  { intros lpr Hl. destruct (H4 lpr Hl) as [E1 E2].
    split; [rewrite Hcell; exact E1|].
    intros k name v Hk Hv. rewrite Hcell. eauto. }
  split.
  { intros ll Hl. destruct (H5 ll Hl) as [E1 E2].
    split; [rewrite Hcell; exact E1|].
    intros k name v Hk Hv Hder. rewrite Hcell. eauto. }
  split.
  { intros k name v Hk Hv. rewrite Hcell. eauto. }
  intros dv Hdv ND k name v Hk Hv. rewrite Hcell. eauto.
Qed.

(** X8.  After an append that goes through on a well-formed collection,
    reading the index [-1] returns the row just written, and that row has
    the weight of the call in the column [weight] and the [k]-th value of
    the call in the column of the [k]-th sampled parameter. *)
Theorem add_then_read_back (g : globals) (values : list float)
    (derived : option (list float)) (weight : pynum) (logpost : option float)
    (logpriors loglikes : option (list float)) (c c' : t) :
  inv c ->
  add g values derived weight logpost logpriors loglikes c = (OK tt, c') ->
  (exists r,
     __getitem__ c' (KeyInt (-1)) = OK (ItemRow r) /\
     data c' !! __len__ c = Some r) /\
  cell c' (__len__ c) _weight = Some (to_float64 weight) /\
  (forall k name v,
     sampled_params c !! k = Some name -> values !! k = Some v ->
     cell c' (__len__ c) name = Some v).
Proof.
  intros Hinv Hadd.
  split; [|exact (add_cells_written _ _ _ _ _ _ _ _ _ Hinv Hadd)].
  destruct (add_ok_length _ _ _ _ _ _ _ _ _ Hadd) as (Hn & k & Hlt & Hdata).
  exists (values_array (_value_dict c')).
  assert (Hrow : data c' !! __len__ c = Some (values_array (_value_dict c'))).
  { rewrite Hdata. apply list_lookup_insert_eq.
    rewrite length_app. unfold nan_frame. rewrite length_replicate.
    exact Hlt. }
  split; [|exact Hrow].
  unfold __getitem__, res_bind. unfold __len__ in *. rewrite Hn.
  destruct (check_index_spec (-1) (Z.of_nat (S (_n c))) ltac:(lia)
              ltac:(intros [=])) as [Hraise Hok].
  destruct Hok as [-> _]; [intros H; apply Hraise in H; lia|].
  change (-1 <? 0) with true. cbv iota.
  unfold iloc_int.
  pose proof (lookup_lt_Some _ _ _ Hrow) as Hlen.
  destruct (Z.ltb_spec (Z.of_nat (S (_n c)) + -1)
              (- Z.of_nat (length (data c')))); [lia|].
  destruct (Z.leb_spec (Z.of_nat (length (data c')))
              (Z.of_nat (S (_n c)) + -1)); [lia|].
  simpl orb. cbv iota.
  destruct (Z.ltb_spec (Z.of_nat (S (_n c)) + -1) 0); [lia|].
  replace (Z.to_nat (Z.of_nat (S (_n c)) + -1)) with (_n c) by lia.
  rewrite Hrow. reflexivity.
Qed.

Lemma add_then_read_back_witness :
  exists c',
    example_add example_empty = (OK tt, c') /\
    cell c' 0 _weight = Some (to_float64 (PyInt 1)) /\
    cell c' 0 "b" = Some 0.25%float.
Proof.
  eexists. split; [vm_compute; reflexivity|].
  pose proof (add_then_read_back default_globals [0.5; 0.25]%float
                (Some [7%float]) (PyInt 1) None (Some [(-1)%float])
                (Some [(-2)%float; (-3)%float]) example_empty _
                ltac:(split; reflexivity) ltac:(vm_compute; reflexivity))
    as (_ & Hw & Hs).
  split; [exact Hw|].
  exact (Hs 1%nat "b" 0.25%float ltac:(reflexivity) ltac:(reflexivity)).
Defined.

Lemma get_loc_in (cols : list string) (name : string) :
  name ∈ cols ->
  exists j, get_loc cols name = OK j /\ (j < length cols)%nat.
Proof.
  induction cols as [|c cols IH]; intros Hin; [inversion Hin|]. simpl.
  destruct (String.eqb c name) eqn:E.
  - exists 0%nat. split; [reflexivity|lia].
  - apply elem_of_cons in Hin as [->|Hin].
    + rewrite String.eqb_refl in E. discriminate.
    + destruct (IH Hin) as (j & -> & Hj). exists (S j).
      split; [reflexivity|lia].
Qed.

Lemma get_loc_notin (cols : list string) (name : string) :
  name ∉ cols -> get_loc cols name = Raise KeyError.
Proof.
  induction cols as [|c cols IH]; intros Hin; [reflexivity|]. simpl.
  destruct (String.eqb c name) eqn:E.
  - apply String.eqb_eq in E. subst. exfalso. apply Hin. left.
  - rewrite IH; [reflexivity|]. intros H. apply Hin. right. exact H.
Qed.

Lemma get_locs_missing (cols names : list string) (nm : string) :
  nm ∈ names -> nm ∉ cols -> get_locs cols names = Raise KeyError.
Proof.
  induction names as [|x names IH]; intros Hin Hout; [inversion Hin|].
  simpl. destruct (decide (x ∈ cols)) as [Hx|Hx].
  - destruct (get_loc_in cols x Hx) as (j & -> & _). simpl.
    apply elem_of_cons in Hin as [->|Hin]; [contradiction|].
    rewrite IH by assumption. reflexivity.
  - rewrite get_loc_notin by exact Hx. reflexivity.
Qed.

(** X9.  Reading by column name: a name that is no column raises
    [KeyError], and a list of names with one that is no column raises
    [ValueError]; the name of a column, on a collection whose counter is
    within the data frame and whose rows have a value per column, returns as
    many values as there are samples, the [i]-th being the cell of row
    [i]. *)
Theorem getitem_by_name (c : t) :
  (forall name, name ∉ columns c ->
     __getitem__ c (KeyStr name) = Raise KeyError) /\
  (forall names nm, nm ∈ names -> nm ∉ columns c ->
     __getitem__ c (KeyNames names) = Raise ValueError) /\
  (forall name, well_kept c -> name ∈ columns c ->
     exists col,
       __getitem__ c (KeyStr name) = OK (ItemColumn col) /\
       length col = __len__ c /\
       forall i, (i < __len__ c)%nat -> col !! i = cell c i name).
Proof.
  split; [|split].
  - intros name Hout. unfold __getitem__.
    rewrite get_loc_notin by exact Hout. reflexivity.
  - intros names nm Hin Hout. unfold __getitem__.
    rewrite (get_locs_missing _ _ nm) by assumption. reflexivity.
  - intros name (Hn & Hw & _) Hin. unfold __getitem__, cell.
    destruct (get_loc_in _ _ Hin) as (j & -> & Hj). simpl.
    unfold iloc_column.
    assert (Hall : Forall (fun r : list float => is_Some (r !! j))
                     (take (_n c) (data c))).
    { apply Forall_take. eapply Forall_impl; [exact Hw|].
      intros r Hr. apply lookup_lt_is_Some_2. simpl in Hr. lia. }
    destruct (mapM (fun r : list float => r !! j) (take (_n c) (data c)))
      as [col|] eqn:Hm.
    2:{ exfalso.
        assert (is_Some (mapM (fun r : list float => r !! j)
                           (take (_n c) (data c))))
          by (apply mapM_is_Some; exact Hall).
        rewrite Hm in H. destruct H as [? [=]]. }
    exists col. split; [reflexivity|].
    pose proof (length_mapM _ _ _ Hm) as Hlen.
    rewrite length_take in Hlen. unfold __len__.
    split; [lia|].
    intros i Hi. apply mapM_Some in Hm.
    destruct (lookup_lt_is_Some_2 (data c) i ltac:(lia)) as [r Hr].
    rewrite Hr. simpl.
    destruct (Forall2_lookup_l _ _ _ i r Hm) as (y & Hy & Hry).
    { rewrite lookup_take_lt by lia. exact Hr. }
    rewrite Hy, Hry. reflexivity.
Qed.

Lemma getitem_by_name_witness :
  exists col,
    __getitem__ example_two_samples (KeyStr "chi2") = OK (ItemColumn col) /\
    length col = 2%nat.
Proof.
  destruct (proj2 (proj2 (getitem_by_name example_two_samples)) "chi2")
    as (col & Hget & Hlen & _).
  - split; [vm_compute; lia|]. split.
    + vm_compute. repeat constructor.
    + intros i r Hi Hr. vm_compute in Hi.
      change (data example_two_samples)
        with (take 2 (data example_two_samples)
              ++ replicate 98 (replicate 10 nan)) in Hr.
      apply lookup_app_Some in Hr as [Hr|[_ Hr]].
      * apply lookup_lt_Some in Hr. simpl in Hr. lia.
      * apply lookup_replicate in Hr as [-> _]. reflexivity.
  - vm_compute. repeat constructor.
  - exists col. split; [exact Hget | exact Hlen].
Defined.



End ReadBack.

(** ** Dumping everything *)

Section Dumps.
Import Collection Access CollectionOps TxtDriver.

Lemma count_headers_app (l : list line) (names : list string)
    (rows : list (list float)) :
  count_headers (Some (l ++ HeaderLine names :: map DataLine rows)) =
  S (count_headers (Some l)).
Proof.
  unfold count_headers.
  change (default [] (Some (l ++ HeaderLine names :: map DataLine rows)))
    with (l ++ HeaderLine names :: map DataLine rows).
  change (default [] (Some l)) with l.
  rewrite List.filter_app, length_app. simpl.
  assert (H : List.filter is_header (map DataLine rows) = []).
  { induction rows as [|r rows IH]; [reflexivity|exact IH]. }
  rewrite H. simpl. lia.
Qed.

(** X11.  With the text driver, [_out_dump] does nothing when all the rows
    were written; otherwise, on a collection with samples, it appends to
    the file, which it does not empty first, the header and all the filled
    rows, the rows written before included, so the file has one header
    more.  After [_out_dump], as after [_out_update], both do nothing until
    the next append. *)
Theorem dump_appends_all_rows (c : t) :
  (driver c = Txt -> _n_last_out c = __len__ c -> snd (_out_dump c) = c) /\
  (driver c = Txt -> _n_last_out c <> __len__ c ->
   (0 < __len__ c)%nat -> (__len__ c <= length (data c))%nat ->
     file (snd (_out_dump c)) =
       Some (default [] (file c)
             ++ HeaderLine (columns c) :: map DataLine (filled_rows c)) /\
     _n_last_out (snd (_out_dump c)) = __len__ c /\
     count_headers (file (snd (_out_dump c))) = S (count_headers (file c))) /\
  (forall c1, c1 = snd (_out_dump c) \/ c1 = snd (_out_update c) ->
     _out_dump c1 = (OK tt, c1) /\ _out_update c1 = (OK tt, c1)).
Proof.
  split; [|split].
  - intros Hd He. rewrite out_dump_unfold, Hd. cbn [snd].
    destruct (decide (_n_last_out c = __len__ c)); [reflexivity|contradiction].
  - intros Hd Hne Hpos Hcap. rewrite out_dump_unfold, Hd. cbn [snd].
    destruct (decide (_n_last_out c = __len__ c)); [contradiction|].
    cbn [file set_file set_n_last_out _n_last_out].
    rewrite drop_0, bool_decide_eq_true_2 by reflexivity.
    assert (Hrows : take (__len__ c) (data c) <> []).
    { intros Hnil. apply (f_equal length) in Hnil.
      rewrite length_take in Hnil. simpl in Hnil. lia. }
    rewrite to_string_headers by exact Hrows.
    split; [reflexivity|]. split; [reflexivity|].
    unfold filled_rows. simpl app. rewrite count_headers_app.
    destruct (file c); reflexivity.
  - assert (Hdone : forall c1,
              (driver c1 = Txt -> _n_last_out c1 = __len__ c1) ->
              _out_dump c1 = (OK tt, c1) /\ _out_update c1 = (OK tt, c1)).
    { intros c1 H1. rewrite out_dump_unfold, out_update_unfold.
      destruct (driver c1); [|split; reflexivity].
      rewrite (H1 eq_refl).
      destruct (decide (__len__ c1 = __len__ c1)); [|contradiction].
      split; reflexivity. }
    intros c1 [-> | ->]; apply Hdone.
    + rewrite out_dump_unfold. cbn [snd]. intros Hd1.
      destruct (driver c) eqn:Hd; [|rewrite Hd in Hd1; discriminate].
      destruct (decide (_n_last_out c = __len__ c)); [assumption|reflexivity].
    + rewrite out_update_unfold. cbn [snd]. intros Hd1.
      destruct (driver c) eqn:Hd; [|rewrite Hd in Hd1; discriminate].
      destruct (decide (_n_last_out c = __len__ c)); [assumption|reflexivity].
Qed.

Lemma dump_appends_all_rows_witness :
  let c := snd (example_add (snd (_out_update
             (snd (example_add
                (init example_model (Some Txt) 100 None)))))) in
  count_headers (file c) = 1%nat /\
  count_headers (file (snd (_out_dump c))) = 2%nat.
Proof.
  intros c. split; [vm_compute; reflexivity|].
  exact (proj2 (proj2 (proj1 (proj2 (dump_appends_all_rows c))
                  ltac:(vm_compute; reflexivity)
                  ltac:(vm_compute; lia)
                  ltac:(vm_compute; lia)
                  ltac:(vm_compute; lia)))).
Defined.

End Dumps.

(** ** More on the output thinning *)

Section ThinningMore.
Import OneSamplePoint.

Lemma run_weights_positive (ws : list Z) : forall (p : t) (log : list Z),
  1 < output_thin p ->
  0 <= _added_weight p ->
  Forall (fun w => 0 <= w) ws ->
  Forall (fun w => 1 <= w) log ->
  Forall (fun w => 1 <= w) (snd (run p log ws)).
Proof.
  induction ws as [|w ws IH]; intros p log HT Hrem Hws Hlog; [exact Hlog|].
  inversion Hws as [|? ? Hw Hws']; subst. simpl.
  set (q := add p [] w empty_kwargs).
  rewrite step_thinned by exact HT. cbv zeta.
  change (output_thin q) with (output_thin p).
  change (_added_weight q) with (_added_weight p).
  change (weight q) with w.
  destruct (Z.leb_spec (output_thin p) (_added_weight p + w)) as [Hge|Hlt].
  - apply IH; try assumption.
    + apply Z.mod_pos_bound. lia.
    + apply Forall_app. split; [exact Hlog|]. constructor; [|constructor].
      apply Z.div_le_lower_bound; lia.
  - apply IH; try assumption. simpl. lia.
Qed.

Lemma length_le_sumZ (l : list Z) :
  Forall (fun w => 1 <= w) l -> Z.of_nat (length l) <= sumZ l.
Proof.
  induction 1 as [|w l Hw _ IH]; [simpl; lia|].
  unfold sumZ in *. simpl length. simpl foldr. lia.
Qed.

(** X12.  With a thinning factor [T > 1] and non-negative integer raw
    weights, every weight given to the collection is at least one, and the
    number of rows given to it, times [T], is at most the sum of the raw
    weights. *)
Theorem thinning_caps_rows (T : Z) (ws : list Z) :
  1 < T ->
  Forall (fun w => 0 <= w) ws ->
  let '(p', log') := run (init T) [] ws in
  Forall (fun w => 1 <= w) log' /\
  Z.of_nat (length log') * T <= sumZ ws.
Proof.
  intros HT Hws.
  pose proof (run_weights_positive ws (init T) [] HT ltac:(simpl; lia) Hws
                (Forall_nil_2 _)) as Hpos.
  pose proof (run_conserves ws (init T) [] ltac:(simpl; lia)
                ltac:(simpl; lia) Hws) as Hcons.
  destruct (run (init T) [] ws) as [p' log']. simpl in *.
  destruct Hcons as (_ & Hsum & Hrem).
  split; [exact Hpos|].
  pose proof (length_le_sumZ log' Hpos). nia.
Qed.

Lemma thinning_caps_rows_witness :
  1 < 3 /\
  (let '(p', log') := run (init 3) [] [1; 1; 1; 5; 0; 2; 7] in
   Forall (fun w => 1 <= w) log' /\
   Z.of_nat (length log') * 3 <= sumZ [1; 1; 1; 5; 0; 2; 7]).
Proof.
  assert (H1 : 1 < 3) by lia.
  split; [exact H1|].
  exact (thinning_caps_rows 3 [1; 1; 1; 5; 0; 2; 7] H1
           ltac:(repeat constructor; lia)).
Defined.

(** X13.  With the thinning on, [add_to_collection] has updated the carried
    remainder before it calls [add]: when that call raises, the error goes
    up, no row was added under the hand of [add_to_collection], and the
    remainder is already what is left after the weight that was to be
    given. *)
Theorem remainder_updated_before_add (C : Type) (HC : HasAdd C) (p : t)
    (collection collection' : C) (e : exn) :
  1 < output_thin p ->
  output_thin p <= _added_weight p + weight p ->
  coll_add collection (values p)
    (PyInt ((_added_weight p + weight p) / output_thin p)) (kwargs p)
    = (Raise e, collection') ->
  exists p',
    add_to_collection p collection = (Raise e, p', collection') /\
    _added_weight p' = (_added_weight p + weight p) mod output_thin p.
Proof.
  intros HT Hge Hadd. unfold add_to_collection.
  rewrite (proj2 (Z.ltb_lt 1 (output_thin p))) by exact HT.
  cbv zeta. cbn [output_thin _added_weight set_added_weight].
  rewrite (proj2 (Z.leb_le _ _)) by exact Hge.
  unfold commit. cbn [values kwargs set_added_weight].
  rewrite Hadd. eexists. split; reflexivity.
Qed.

Lemma remainder_updated_before_add_witness :
  exists p',
    add_to_collection (mk [] empty_kwargs 2 3 2)
      (default_globals, example_empty)
    = (Raise TypeError, p',
       snd (@coll_add _ collection_has_add (default_globals, example_empty) [] (PyInt 1)
              empty_kwargs)) /\
    _added_weight p' = 1.
Proof.
  exact (remainder_updated_before_add _ collection_has_add
           (mk [] empty_kwargs 2 3 2)
           (default_globals, example_empty)
           (snd (@coll_add _ collection_has_add (default_globals, example_empty) [] (PyInt 1)
                   empty_kwargs))
           TypeError
           ltac:(simpl; lia) ltac:(simpl; lia)
           ltac:(vm_compute; reflexivity)).
Defined.

End ThinningMore.

(** ** The single point of [OnePoint] *)

Section OnePointMore.
Import Collection Access CollectionOps TxtDriver.

Lemma get_loc_OK (cols : list string) (name : string) : forall j,
  get_loc cols name = OK j -> cols !! j = Some name.
Proof.
  induction cols as [|c cols IH]; simpl; intros j H; [discriminate|].
  destruct (String.eqb c name) eqn:E.
  - injection H as <-. apply String.eqb_eq in E. subst. reflexivity.
  - destruct (get_loc cols name) as [j'|e] eqn:Hg; simpl in H; [|discriminate].
    injection H as <-. simpl. apply IH. reflexivity.
Qed.

Lemma get_loc_KeyError (cols : list string) (name : string) (e : exn) :
  get_loc cols name = Raise e -> e = KeyError.
Proof.
  induction cols as [|c cols IH]; simpl; intros H; [congruence|].
  destruct (String.eqb c name); [discriminate|].
  destruct (get_loc cols name) as [j'|e'] eqn:Hg; simpl in H; [discriminate|].
  injection H as <-. apply IH. reflexivity.
Qed.

(** X14.  [increase_weight] on a point whose first row has a weight: with
    an increase that fits a float it adds the increase to that cell and
    changes no other cell, nor the length, nor what was written; with an
    integer too large for a float it raises [OverflowError] and changes
    nothing.  Without such a cell it raises [KeyError] and changes
    nothing. *)
Theorem increase_weight_first_row (increase : pynum) (c : t) :
  (forall w, cell c 0 _weight = Some w -> fits_float64 increase = true ->
     exists c',
       OnePoint.increase_weight increase c = (OK tt, c') /\
       cell c' 0 _weight = Some (w + to_float64 increase)%float /\
       (forall i name, i <> 0%nat \/ name <> _weight ->
          cell c' i name = cell c i name) /\
       __len__ c' = __len__ c /\ file c' = file c /\
       _n_last_out c' = _n_last_out c) /\
  (forall w, cell c 0 _weight = Some w -> fits_float64 increase = false ->
     OnePoint.increase_weight increase c = (Raise OverflowError, c)) /\
  (cell c 0 _weight = None ->
     OnePoint.increase_weight increase c = (Raise KeyError, c)).
Proof.
  unfold cell, OnePoint.increase_weight. unfold_se. split; [|split].
  - intros w Hw Hfit.
    destruct (get_loc (columns c) _weight) as [j|e] eqn:Hj; [|discriminate].
    destruct (data c !! 0%nat) as [r|] eqn:Hr; [|discriminate].
    simpl in Hw. rewrite Hw, Hfit.
    eexists. split; [reflexivity|].
    cbn [columns data set_data __len__ _n file _n_last_out].
    rewrite Hj.
    assert (H0 : (0 < length (data c))%nat) by (eapply lookup_lt_Some; eauto).
    assert (Hjr : (j < length r)%nat) by (eapply lookup_lt_Some; eauto).
    split; [|split; [|auto]].
    + rewrite list_lookup_insert_eq by exact H0. simpl.
      apply list_lookup_insert_eq. exact Hjr.
    + intros i name Hother.
      destruct (get_loc (columns c) name) as [j'|e] eqn:Hj'; [|reflexivity].
      destruct (decide (i = 0%nat)) as [->|Hi].
      * destruct Hother as [?|Hname]; [contradiction|].
        rewrite list_lookup_insert_eq by exact H0. rewrite Hr. simpl.
        apply list_lookup_insert_ne. intros ->.
        apply get_loc_OK in Hj, Hj'. congruence.
      * rewrite list_lookup_insert_ne by auto. reflexivity.
  - intros w Hw Hfit.
    destruct (get_loc (columns c) _weight) as [j|e] eqn:Hj; [|discriminate].
    destruct (data c !! 0%nat) as [r|] eqn:Hr; [|discriminate].
    simpl in Hw. rewrite Hw, Hfit. reflexivity.
  - intros Hnone.
    destruct (get_loc (columns c) _weight) as [j|e] eqn:Hj.
    + destruct (data c !! 0%nat) as [r|] eqn:Hr; [|reflexivity].
      simpl in Hnone. rewrite Hnone. reflexivity.
    + apply get_loc_KeyError in Hj. subst. reflexivity.
Qed.

Lemma increase_weight_first_row_witness :
  let c := snd (OnePoint.add default_globals [0.5; 0.25]%float
                  (Some [7%float]) (PyInt 1) (Some 4%float) None None
                  (OnePoint.init example_model None None)) in
  (exists c',
     OnePoint.increase_weight (PyInt 2) c = (OK tt, c') /\
     cell c' 0 _weight = Some (1 + 2)%float) /\
  OnePoint.increase_weight (PyInt (2 ^ 1024)) c = (Raise OverflowError, c).
Proof.
  intros c. split.
  - destruct (proj1 (increase_weight_first_row (PyInt 2) c)
                1%float ltac:(vm_compute; reflexivity)
                ltac:(vm_compute; reflexivity))
      as (c' & Hrun & Hw & _).
    exists c'. split; [exact Hrun|exact Hw].
  - exact (proj1 (proj2 (increase_weight_first_row (PyInt (2 ^ 1024)) c))
             1%float ltac:(vm_compute; reflexivity)
             ltac:(vm_compute; reflexivity)).
Defined.

(** What was written and the driver are out of the reach of [add]. *)
Lemma add_keeps_output (g : globals) (values : list float)
    (derived : option (list float)) (weight : pynum) (logpost : option float)
    (logpriors loglikes : option (list float)) (c : t) :
  let c' := snd (add g values derived weight logpost logpriors loglikes c) in
  driver c' = driver c /\ file c' = file c /\ _n_last_out c' = _n_last_out c.
Proof.
  cbv zeta. rewrite add_unfold.
  destruct (enlarge_data g c) as [k Hk].
  destruct (_enlarge_if_needed g c) as [r c1]. simpl in Hk. subst c1.
  destruct r as [[]|e]; [|auto].
  destruct (_add_dict _ _ _ _ _ _ _ _) as [[[]|e] d]; [|auto].
  destruct (res_bind _ _) as [df|e]; auto.
Qed.

(** With room left, an append that goes through keeps the number of rows
    of the data frame. *)
Lemma add_with_room_rows (g : globals) (values : list float)
    (derived : option (list float)) (weight : pynum) (logpost : option float)
    (logpriors loglikes : option (list float)) (c c' : t) :
  (_n c < length (data c))%nat ->
  add g values derived weight logpost logpriors loglikes c = (OK tt, c') ->
  length (data c') = length (data c).
Proof.
  intros Hroom Hadd.
  rewrite add_unfold, (enlarge_with_room g c Hroom) in Hadd.
  destruct (_add_dict _ _ _ _ _ _ _ _) as [[[]|] d]; [|discriminate].
  destruct (res_bind _ _) as [df|] eqn:Hset; [|discriminate].
  apply write_row_OK in Hset as [Hset _]. unfold iloc_set in Hset.
  destruct (decide _); [|discriminate]. destruct (decide _); [|discriminate].
  injection Hset as <-.
  injection Hadd as <-. cbn [data set_n set_data set_value_dict].
  apply length_insert.
Qed.

Lemma cell_getitem_str (c : t) (name : string) (v : float) :
  cell c 0 name = Some v -> OnePoint.getitem_str c name = OK v.
Proof.
  unfold cell, OnePoint.getitem_str, res_bind.
  destruct (get_loc (columns c) name); [|discriminate].
  intros ->. reflexivity.
Qed.

(** The cells of the first row, as [OnePoint.__getitem__] reads them. *)
Lemma holds_point_set_n (c : t) (n i : nat) (values : list float)
    (derived : option (list float)) (weight : pynum) (logpost : option float)
    (logpriors loglikes : option (list float)) :
  holds_point c i values derived weight logpost logpriors loglikes ->
  holds_point (set_n c n) i values derived weight logpost logpriors loglikes.
Proof. intros H. exact H. Qed.

(** C2, as the code has it.  After every successful [add] of a [OnePoint]
    the counter is back at zero, so its length is [0]; a [OnePoint] whose
    counter was at zero and that has a row keeps its number of rows and
    holds the new point in the first one: on a well-formed [OnePoint] the
    first row has the weight of the call, minus its log-posterior, its
    sampled and derived values and what it gave for the priors and the
    likelihoods, each in its column. *)
Theorem onepoint_add_resets_length (g : globals) (values : list float)
    (derived : option (list float)) (weight : pynum) (logpost : option float)
    (logpriors loglikes : option (list float)) (c c' : t) :
  OnePoint.add g values derived weight logpost logpriors loglikes c
    = (OK tt, c') ->
  __len__ c' = 0%nat /\
  (__len__ c = 0%nat -> (0 < length (data c))%nat ->
     length (data c') = length (data c) /\
     data c' !! 0%nat = Some (values_array (_value_dict c')) /\
     (inv c ->
        holds_point c' 0 values derived weight logpost logpriors loglikes)).
Proof.
  unfold OnePoint.add, se_bind, se_modify.
  destruct (add g values derived weight logpost logpriors loglikes c)
    as [[[]|e] c1] eqn:Hadd; [|discriminate].
  intros [= <-]. split; [reflexivity|].
  intros Hn Hrows. cbn [data set_n _value_dict].
  destruct (add_ok_length _ _ _ _ _ _ _ _ _ Hadd) as (_ & k & Hlt & Hdata).
  split; [|split].
  - eapply add_with_room_rows; [|exact Hadd]. unfold __len__ in Hn. lia.
  - rewrite Hdata, Hn. apply list_lookup_insert_eq.
    rewrite length_app. lia.
  - intros Hinv. apply holds_point_set_n. rewrite <- Hn.
    exact (add_holds_point _ _ _ _ _ _ _ _ _ Hinv Hadd).
Qed.

Lemma onepoint_add_resets_length_witness :
  exists c',
    OnePoint.add default_globals [0.5; 0.25]%float (Some [7%float]) (PyInt 1)
      None (Some [(-1)%float]) (Some [(-2)%float; (-3)%float])
      (OnePoint.init example_model None None) = (OK tt, c') /\
    __len__ c' = 0%nat /\
    cell c' 0 "b" = Some 0.25%float.
Proof.
  eexists. split; [vm_compute; reflexivity|].
  destruct (onepoint_add_resets_length default_globals
              [0.5; 0.25]%float (Some [7%float]) (PyInt 1) None
              (Some [(-1)%float]) (Some [(-2)%float; (-3)%float])
              (OnePoint.init example_model None None) _
              ltac:(vm_compute; reflexivity)) as [Hn Hrow].
  split; [exact Hn|].
  destruct (Hrow ltac:(reflexivity) ltac:(vm_compute; lia))
    as (_ & _ & Hpoint).
  destruct (Hpoint ltac:(split; reflexivity))
    as (_ & _ & _ & _ & _ & Hs & _).
  exact (Hs 1%nat "b" 0.25%float ltac:(reflexivity) ltac:(reflexivity)).
Defined.

(** X15.  On a well-formed [OnePoint] of different column names, with the
    counter at zero, a row to write on and a dictionary of values that fit
    a float, [add] with fitting arguments and a weight that fits a float
    goes through, and reading the point by name gives back the weight and
    the sampled values of the call; the point is then as it has to be for
    the next [add], which writes on the same row. *)
Theorem onepoint_add_then_read (g : globals) (values : list float)
    (derived : option (list float)) (weight : pynum) (logpost : option float)
    (logpriors loglikes : option (list float)) (c : t) :
  inv c -> NoDup (columns c) ->
  __len__ c = 0%nat -> (0 < length (data c))%nat ->
  fitting c values derived logpost logpriors loglikes ->
  fits_float64 weight = true -> dict_fits c ->
  exists c',
    OnePoint.add g values derived weight logpost logpriors loglikes c
      = (OK tt, c') /\
    OnePoint.getitem_str c' _weight = OK (to_float64 weight) /\
    (forall k name v,
       sampled_params c !! k = Some name -> values !! k = Some v ->
       OnePoint.getitem_str c' name = OK v) /\
    (inv c' /\ NoDup (columns c') /\ __len__ c' = 0%nat /\
     length (data c') = length (data c) /\
     sampled_params c' = sampled_params c /\
     derived_params c' = derived_params c /\
     dict_fits c').
Proof.
  intros Hinv Hnd Hn Hrow Hfit Hw Hfits. unfold __len__ in Hn.
  destruct (add_fitting_ok g values derived weight logpost logpriors loglikes
              c Hinv Hnd ltac:(unfold __len__; lia) Hfit Hw Hfits
              ltac:(left; unfold __len__; lia)) as (c1 & Hadd & Hfits1).
  exists (set_n c1 0). split.
  { unfold OnePoint.add. unfold_se. rewrite Hadd. reflexivity. }
  destruct (add_cells_written _ _ _ _ _ _ _ _ _ Hinv Hadd) as [Hcw Hs].
  destruct (add_ok_cells _ _ _ _ _ _ _ _ _ Hinv Hadd)
    as ([Hc1 Hk1] & _ & Hcols & Hsp & Hdp & _).
  unfold __len__ in Hcw, Hs. rewrite Hn in Hcw, Hs.
  split; [apply cell_getitem_str; exact Hcw|].
  split; [intros k name v Hk Hv; apply cell_getitem_str; eauto|].
  split; [split; assumption|].
  split; [cbn [columns set_n]; rewrite Hcols; exact Hnd|].
  split; [reflexivity|].
  split; [|split; [assumption|split; [assumption|exact Hfits1]]].
  cbn [data set_n].
  eapply add_with_room_rows; [|exact Hadd]. lia.
Qed.

Lemma onepoint_add_then_read_witness :
  exists c',
    OnePoint.add default_globals [0.5; 0.25]%float (Some [7%float])
      (PyInt 1) (Some 4%float) None None
      (OnePoint.init example_model None None) = (OK tt, c') /\
    OnePoint.getitem_str c' "b" = OK 0.25%float.
Proof.
  destruct (onepoint_add_then_read default_globals [0.5; 0.25]%float
              (Some [7%float]) (PyInt 1) (Some 4%float) None None
              (OnePoint.init example_model None None)
              ltac:(split; reflexivity)
              ltac:(vm_compute; repeat constructor; intros H;
                    repeat (apply elem_of_cons in H as [H|H];
                            [discriminate H|]);
                    inversion H)
              ltac:(reflexivity)
              ltac:(vm_compute; lia)
              ltac:(repeat split; try reflexivity; try discriminate;
                    intros dv [= <-]; reflexivity)
              ltac:(vm_compute; reflexivity)
              ltac:(vm_compute; reflexivity))
    as (c' & Hadd & _ & Hs & _).
  exists c'. split; [exact Hadd|].
  exact (Hs 1%nat "b" 0.25%float ltac:(reflexivity) ltac:(reflexivity)).
Defined.

Lemma onepoint_update_unfold (c : t) :
  OnePoint._out_update c =
  (OK tt,
   match driver c with
   | Dummy => c
   | Txt =>
       if decide (_n_last_out c = 1%nat) then c
       else
         set_file (set_n_last_out c 1)
           (Some (default [] (file c)
                  ++ to_string (take 1 (data c)) (columns c) true))
   end).
Proof.
  unfold OnePoint._out_update, OnePoint._update__txt, _dump_slice__txt.
  unfold_se. destruct (driver c); [|reflexivity].
  destruct (decide (_n_last_out c = 1%nat)); reflexivity.
Qed.

Lemma onepoint_written_stays (ops : list op) : forall c : t,
  _n_last_out c = 1%nat ->
  file (onepoint_run_ops c ops) = file c /\
  _n_last_out (onepoint_run_ops c ops) = 1%nat.
Proof.
  induction ops as [|o ops IH]; intros c H1; [split; [reflexivity|exact H1]|].
  unfold onepoint_run_ops in *. simpl fold_left.
  assert (Hstep : file (onepoint_run_op c o) = file c /\
                  _n_last_out (onepoint_run_op c o) = 1%nat).
  { destruct o as [g values derived weight logpost logpriors loglikes|].
    - unfold onepoint_run_op, OnePoint.add. unfold_se.
      pose proof (add_keeps_output g values derived weight logpost logpriors
                    loglikes c) as (_ & Hf & Hl). cbv zeta in Hf, Hl.
      destruct (add g values derived weight logpost logpriors loglikes c)
        as [[[]|e] c1]; cbn [snd] in *; cbn [file _n_last_out set_n];
        rewrite Hf, Hl; auto.
    - unfold onepoint_run_op. rewrite onepoint_update_unfold. cbn [snd].
      destruct (driver c); [|auto].
      destruct (decide (_n_last_out c = 1%nat)); [auto|contradiction]. }
  destruct Hstep as [Hf Hl]. destruct (IH _ Hl) as [Hf' Hl'].
  split; [rewrite Hf'; exact Hf|exact Hl'].
Qed.

(** X16.  The file of a [OnePoint] with the text driver is written once:
    the first [_out_update] puts the header and the first row there, and
    whatever is added or updated later, the file stays as it is. *)
Theorem onepoint_file_written_once (c : t) (r : list float) (ops : list op) :
  driver c = Txt -> _n_last_out c = 0%nat -> data c !! 0%nat = Some r ->
  let c1 := snd (OnePoint._out_update c) in
  file c1 =
    Some (default [] (file c) ++ [HeaderLine (columns c); DataLine r]) /\
  file (onepoint_run_ops c1 ops) = file c1.
Proof.
  intros Hd H0 Hr. cbv zeta. rewrite onepoint_update_unfold, Hd. cbn [snd].
  destruct (decide (_n_last_out c = 1%nat)) as [H1|_]; [congruence|].
  split.
  - cbn [file set_file]. destruct (data c) as [|r0 rows]; [discriminate|].
    simpl in Hr. injection Hr as ->. reflexivity.
  - apply onepoint_written_stays. reflexivity.
Qed.

Lemma onepoint_file_written_once_witness :
  let c := snd (OnePoint.add default_globals [0.5; 0.25]%float
                  (Some [7%float]) (PyInt 1) (Some 4%float) None None
                  (OnePoint.init example_model (Some Txt) None)) in
  let c1 := snd (OnePoint._out_update c) in
  count_headers (file c1) = 1%nat /\
  file (onepoint_run_ops c1 [example_op; OpUpdate]) = file c1.
Proof.
  intros c c1.
  destruct (onepoint_file_written_once c
              [1; -4; 0.5; 0.25; 7; nan; nan; nan; nan; nan]%float
              [example_op; OpUpdate]
              ltac:(reflexivity) ltac:(reflexivity)
              ltac:(vm_compute; reflexivity)) as [Hf Hs].
  split; [|exact Hs].
  fold c1 in Hf. rewrite Hf. reflexivity.
Defined.

End OnePointMore.

(** ** Runs of appends *)

Section AddRuns.
Import Collection Access CollectionOps TxtDriver.

Lemma nan_dict_fits (cols : list string) :
  forallb fits_float64 (dict_values (nan_dict cols)) = true.
Proof.
  induction cols as [|p cols IH] using rev_ind; [reflexivity|].
  rewrite nan_dict_snoc. apply dict_set_fits; [exact IH|reflexivity].
Qed.

(** A new collection of a model with different column names takes
    appends. *)
Lemma init_made_for (m : model) (output : option driver_kind)
    (initial_size : nat) (fs : option (list line)) :
  NoDup (base_columns m) -> made_for m (init m output initial_size fs).
Proof.
  intros Hnd. split; [apply init_inv|]. split; [exact Hnd|].
  split; [unfold __len__; simpl; lia|].
  split; [reflexivity|]. split; [reflexivity|].
  apply nan_dict_fits.
Qed.

(** One append with fitting arguments to a collection of the model. *)
Lemma add_step (m : model) (g : globals) (values : list float)
    (derived : option (list float)) (weight : pynum) (logpost : option float)
    (logpriors loglikes : option (list float)) (c : t) :
  made_for m c ->
  fitting c values derived logpost logpriors loglikes ->
  fits_float64 weight = true ->
  factor_if_true g = None -> 0 < enlargement_size g ->
  exists c',
    add g values derived weight logpost logpriors loglikes c = (OK tt, c') /\
    made_for m c' /\ __len__ c' = S (__len__ c).
Proof.
  intros (Hinv & Hnd & Hcap & Hsp & Hdp & Hfits) Hfit Hw Hf Hsize.
  destruct (add_fitting_ok g values derived weight logpost logpriors loglikes
              c Hinv Hnd Hcap Hfit Hw Hfits ltac:(right; split; assumption))
    as (c' & Hadd & Hfits').
  exists c'. split; [exact Hadd|].
  destruct (add_ok_cells _ _ _ _ _ _ _ _ _ Hinv Hadd)
    as (Hinv' & _ & Hcols & Hsp' & Hdp' & _ & _ & Hn & _).
  destruct (add_ok_length _ _ _ _ _ _ _ _ _ Hadd) as (_ & k & Hlt & Hdata).
  split; [|exact Hn].
  split; [exact Hinv'|]. split; [rewrite Hcols; exact Hnd|].
  split; [|split; [congruence|split; [congruence|exact Hfits']]].
  rewrite Hn, Hdata, length_insert, length_app.
  unfold nan_frame. rewrite length_replicate. lia.
Qed.

(** A loop of appends, each with fitting arguments: every one goes through,
    the rows the collection had stay, and the row of each append holds its
    point. *)
Lemma se_for_adds {A} (m : model) (g : globals) (body : A -> SE t unit)
    (fv : A -> list float) (fd : A -> option (list float))
    (fw : A -> pynum) (fp : A -> option float)
    (fpr fll : A -> option (list float)) (l : list A) :
  factor_if_true g = None -> 0 < enlargement_size g ->
  (forall x c, x ∈ l -> made_for m c ->
     body x c = add g (fv x) (fd x) (fw x) (fp x) (fpr x) (fll x) c /\
     fitting c (fv x) (fd x) (fp x) (fpr x) (fll x) /\
     fits_float64 (fw x) = true) ->
  forall c, made_for m c ->
  exists c',
    se_for l body c = (OK tt, c') /\ made_for m c' /\
    __len__ c' = (__len__ c + length l)%nat /\
    (mirrors c -> mirrors c') /\
    (minuslogprior_names c' = minuslogprior_names c /\
     chi2_names c' = chi2_names c) /\
    (forall i name, (i < __len__ c)%nat -> cell c' i name = cell c i name) /\
    (forall j x, l !! j = Some x ->
       holds_point c' (__len__ c + j) (fv x) (fd x) (fw x) (fp x) (fpr x)
         (fll x)).
Proof.
  intros Hf Hsize. induction l as [|x l IH]; intros Hbody c Hc.
  - exists c. split; [reflexivity|]. split; [exact Hc|].
    split; [simpl; lia|]. split; [auto|]. split; [auto|].
    split; [auto|]. intros j y [=].
  - destruct (Hbody x c ltac:(left) Hc) as (Hb & Hfit & Hw).
    destruct (add_step m g (fv x) (fd x) (fw x) (fp x) (fpr x) (fll x)
                c Hc Hfit Hw Hf Hsize) as (c1 & Hadd & Hc1 & Hn1).
    destruct (IH ltac:(intros y c0 Hy; apply Hbody; right; exact Hy) c1 Hc1)
      as (c' & Hrun & Hc' & Hn' & Hm' & (Hpn' & Hxn') & Hcells' & Hpts').
    pose proof (add_keeps_schema g (fv x) (fd x) (fw x) (fp x) (fpr x)
                  (fll x) c) as (_ & _ & _ & Hpn1 & Hxn1).
    cbv zeta in Hpn1, Hxn1. rewrite Hadd in Hpn1, Hxn1.
    cbn [snd] in Hpn1, Hxn1.
    destruct Hc as (Hinv & _ & Hcap & Hsp & Hdp & _).
    exists c'. split.
    { simpl. unfold se_bind. rewrite Hb, Hadd. exact Hrun. }
    split; [exact Hc'|]. split; [rewrite Hn', Hn1; simpl; lia|].
    split.
    { intros Hm. apply Hm'.
      pose proof (mirrors_add g (fv x) (fd x) (fw x) (fp x) (fpr x) (fll x)
                    c Hm) as Hm1.
      rewrite Hadd in Hm1. exact Hm1. }
    split; [split; congruence|].
    split.
    { intros i name Hi. rewrite Hcells' by lia.
      apply (add_keeps_cells _ _ _ _ _ _ _ _ _ _ _ Hadd); lia. }
    intros j y Hj. destruct j as [|j].
    + injection Hj as <-. rewrite Nat.add_0_r.
      apply (holds_point_ext c1 c').
      * intros name. apply Hcells'. lia.
      * destruct Hc' as (_ & _ & _ & -> & _).
        destruct Hc1 as (_ & _ & _ & -> & _). reflexivity.
      * destruct Hc' as (_ & _ & _ & _ & -> & _).
        destruct Hc1 as (_ & _ & _ & _ & -> & _). reflexivity.
      * exact Hpn'.
      * exact Hxn'.
      * exact (add_holds_point _ _ _ _ _ _ _ _ _ Hinv Hadd).
    + replace (__len__ c + S j)%nat with (__len__ c1 + j)%nat by lia.
      apply Hpts'. exact Hj.
Qed.

End AddRuns.

(** ** The PolyChord sampler *)

Section PolychordFacts.
Import Collection Access CollectionOps TxtDriver Polychord.

(** X17.  What [dumper] reads from a point is what [logpost] packed after
    the sampled values, when there are as many log-priors as priors: the
    derived values, the log-priors and the log-likelihoods, each as many
    as the model has (NaN in the place of a list of another length), and
    the packed list has [nDerived] items. *)
Theorem dumper_unpacks_logpost (self : Polychord.t)
    (values logpriors loglikes derived rest : list float) :
  length values = n_sampled self -> length logpriors = n_priors self ->
  let packed := logpost_derived self logpriors loglikes derived in
  let point := values ++ packed ++ rest in
  length packed = (n_derived self + n_priors self + n_likes self)%nat /\
  point_values self point = values /\
  point_derived self point =
    (if decide (length derived = n_derived self) then derived
     else replicate (n_derived self) nan) /\
  point_logpriors self point = logpriors /\
  point_loglikes self point =
    (if decide (length loglikes = n_likes self) then loglikes
     else replicate (n_likes self) nan).
Proof.
  intros Hv Hp. cbv zeta.
  unfold logpost_derived, point_values, point_derived, point_logpriors,
    point_loglikes.
  set (d := if decide (length derived ≠ n_derived self)
            then replicate (n_derived self) nan else derived).
  set (k := if decide (length loglikes ≠ n_likes self)
            then replicate (n_likes self) nan else loglikes).
  assert (Hd : length d = n_derived self).
  { unfold d. destruct (decide (length derived ≠ n_derived self)).
    - apply length_replicate.
    - lia. }
  assert (Hk : length k = n_likes self).
  { unfold k. destruct (decide (length loglikes ≠ n_likes self)).
    - apply length_replicate.
    - lia. }
  assert (Ed : d = if decide (length derived = n_derived self) then derived
                   else replicate (n_derived self) nan).
  { unfold d. destruct (decide (length derived ≠ n_derived self)),
      (decide (length derived = n_derived self)); try reflexivity; lia. }
  assert (Ek : k = if decide (length loglikes = n_likes self) then loglikes
                   else replicate (n_likes self) nan).
  { unfold k. destruct (decide (length loglikes ≠ n_likes self)),
      (decide (length loglikes = n_likes self)); try reflexivity; lia. }
  rewrite <- Ed, <- Ek. clear Ed Ek.
  rewrite py_getslice_to, !py_getslice_nonneg.
  rewrite <- Hv, <- Hd, <- Hp, <- Hk.
  assert (Hslice : forall (a b c : list float),
            drop (length a) (take (length a + length b) (a ++ b ++ c)) = b).
  { intros a b c. rewrite take_app_add, drop_app_length.
    apply take_app_length. }
  split; [rewrite !length_app; lia|].
  split; [apply take_app_length|].
  split; [rewrite <- !app_assoc; apply Hslice|].
  split.
  - replace (values ++ (d ++ logpriors ++ k) ++ rest)
      with ((values ++ d) ++ logpriors ++ (k ++ rest))
      by (rewrite <- !app_assoc; reflexivity).
    rewrite <- length_app. apply Hslice.
  - replace (values ++ (d ++ logpriors ++ k) ++ rest)
      with ((values ++ d ++ logpriors) ++ k ++ rest)
      by (rewrite <- !app_assoc; reflexivity).
    replace (length values + length d + length logpriors)%nat
      with (length (values ++ d ++ logpriors))
      by (rewrite !length_app; lia).
    apply Hslice.
Qed.

Lemma dumper_unpacks_logpost_witness :
  let self := initialize example_model None 5 None in
  let point :=
    [0.5; 0.25]%float
      ++ logpost_derived self [(-1)%float] [(-2)%float] [7%float] ++ [] in
  point_derived self point = [7%float] /\
  point_loglikes self point = [nan; nan].
Proof.
  intros self point.
  destruct (dumper_unpacks_logpost self [0.5; 0.25]%float [(-1)%float]
              [(-2)%float] [7%float] []
              ltac:(reflexivity) ltac:(reflexivity))
    as (_ & _ & Hd & _ & Hl).
  split; [exact Hd|exact Hl].
Defined.

Lemma se_for_on_live {A} (f : A -> SE Collection.t unit) (l : list A) :
  forall s : Polychord.t,
  se_for l (fun x => on_live (f x)) s =
  let '(r, c) := se_for l f (live s) in (r, set_live s c).
Proof.
  induction l as [|x l IH]; intros s; simpl.
  - destruct s; reflexivity.
  - unfold se_bind, on_live at 1.
    destruct (f x (live s)) as [[[]|e] c]; [|reflexivity].
    rewrite IH. cbn [live set_live].
    destruct (se_for l f c) as [r c']. reflexivity.
Qed.

Lemma se_for_on_dead {A} (f : A -> SE Collection.t unit) (l : list A) :
  forall s : Polychord.t,
  se_for l (fun x => on_dead (f x)) s =
  let '(r, c) := se_for l f (dead s) in (r, set_dead s c).
Proof.
  induction l as [|x l IH]; intros s; simpl.
  - destruct s; reflexivity.
  - unfold se_bind, on_dead at 1.
    destruct (f x (dead s)) as [[[]|e] c]; [|reflexivity].
    rewrite IH. cbn [dead set_dead].
    destruct (se_for l f c) as [r c']. reflexivity.
Qed.

(** The arguments [dumper] takes from a point that is long enough fit. *)
Lemma add_point_fits (self : Polychord.t) (m : model)
    (point : list float) (c : Collection.t) :
  n_sampled self = length (model_sampled_params m) ->
  n_derived self = length (model_derived_params m) ->
  (n_sampled self + n_derived self <= length point)%nat ->
  made_for m c ->
  fitting c (point_values self point) (Some (point_derived self point)) None
    (Some (point_logpriors self point)) (Some (point_loglikes self point)).
Proof.
  intros Hs Hd Hlen (_ & _ & _ & Hsp & Hdp & _).
  unfold fitting, point_values, point_derived.
  rewrite py_getslice_to, py_getslice_nonneg, Hsp, Hdp.
  split; [rewrite length_take; lia|].
  split; [|intros _; split; discriminate].
  intros dv [= <-]. rewrite length_drop, length_take. lia.
Qed.

(** X18.  With no callback function set, [dumper] on a prepared sampler,
    given points that have at least the sampled and the derived values,
    goes through.  The live collection then has as many samples as there
    are live points, and its [j]-th row holds the [j]-th live point: the
    weight NaN, and the four slices of the point as values, derived values,
    log-priors and log-likelihoods.  The dead collection keeps the rows it
    had and got, after them, one row for each pair of a weight and a dead
    point from the position [last_point_callback] on, which holds that
    point with the exponential of its log-weight as weight.  That position
    is as before, so that the next call appends the same dead points
    again. *)
Theorem dumper_stores_points (g : globals) (exp : float -> float)
    (live_points dead_points : list (list float)) (logweights : list float)
    (z zstd : float) (s : Polychord.t) :
  prepared g s ->
  (forall p, p ∈ live_points \/ p ∈ dead_points ->
     (n_sampled s + n_derived s <= length p)%nat) ->
  exists s',
    dumper g exp None live_points dead_points logweights z zstd s
      = (OK tt, s') /\
    prepared g s' /\
    __len__ (live s') = length live_points /\
    (forall j p, live_points !! j = Some p ->
       holds_point (live s') j (point_values s p)
         (Some (point_derived s p)) (PyFloat nan) None
         (Some (point_logpriors s p)) (Some (point_loglikes s p))) /\
    __len__ (dead s') =
      (__len__ (dead s)
       + (Nat.min (length logweights) (length dead_points)
          - last_point_callback s))%nat /\
    (forall i name, (i < __len__ (dead s))%nat ->
       cell (dead s') i name = cell (dead s) i name) /\
    (forall j w p,
       logweights !! (last_point_callback s + j)%nat = Some w ->
       dead_points !! (last_point_callback s + j)%nat = Some p ->
       holds_point (dead s') (__len__ (dead s) + j) (point_values s p)
         (Some (point_derived s p)) (PyFloat (exp w)) None
         (Some (point_logpriors s p)) (Some (point_loglikes s p))) /\
    last_point_callback s' = last_point_callback s /\
    logZ s' = Some z /\ logZstd s' = Some zstd.
Proof.
  intros (Hs & Hd & Hlive & Hdead & Hf & Hsize) Hpts.
  unfold dumper.
  unfold se_bind at 1. unfold se_modify at 1.
  unfold se_bind at 1. unfold se_get at 1.
  set (s0 := set_live s (reset None (live s))).
  assert (Hlive0 : made_for (the_model s) (reset None (live s))).
  { destruct Hlive as ((Hc & Hk) & Hnd & _ & Hsp & Hdp & Hfits).
    split; [split; assumption|]. split; [exact Hnd|].
    split; [unfold __len__; simpl; lia|].
    split; [assumption|]. split; assumption. }
  destruct (se_for_adds (the_model s) g
              (add_point g s0 (PyFloat nan))
              (point_values s) (fun p => Some (point_derived s p))
              (fun _ => PyFloat nan) (fun _ => None)
              (fun p => Some (point_logpriors s p))
              (fun p => Some (point_loglikes s p))
              live_points Hf Hsize
              ltac:(intros x c Hx Hc;
                    split; [reflexivity|]; split; [|reflexivity];
                    apply (add_point_fits s (the_model s));
                    [exact Hs|exact Hd|apply Hpts; left; exact Hx|exact Hc])
              (reset None (live s)) Hlive0)
    as (cl & Hrunl & Hcl & Hnl & _ & _ & _ & Hptsl).
  unfold se_bind at 1.
  rewrite (se_for_on_live (add_point g s0 (PyFloat nan))).
  change (live s0) with (reset None (live s)). rewrite Hrunl.
  set (k := last_point_callback s0).
  set (pairs := zip (drop k logweights) (drop k dead_points)).
  destruct (se_for_adds (the_model s) g
              (fun lp : float * list float =>
                 add_point g s0 (PyFloat (exp (fst lp))) (snd lp))
              (fun lp => point_values s (snd lp))
              (fun lp => Some (point_derived s (snd lp)))
              (fun lp => PyFloat (exp (fst lp))) (fun _ => None)
              (fun lp => Some (point_logpriors s (snd lp)))
              (fun lp => Some (point_loglikes s (snd lp)))
              pairs Hf Hsize
              ltac:(intros [w p] c Hx Hc;
                    split; [reflexivity|]; split; [|reflexivity];
                    apply (add_point_fits s (the_model s));
                    [exact Hs|exact Hd| |exact Hc];
                    apply Hpts; right;
                    apply elem_of_zip_r in Hx;
                    exact (subseteq_drop k dead_points p Hx))
              (dead s) Hdead)
    as (cd & Hrund & Hcd & Hnd & _ & _ & Hcellsd & Hptsd).
  unfold se_bind at 1.
  rewrite (se_for_on_dead
             (fun lp : float * list float =>
                add_point g s0 (PyFloat (exp (fst lp))) (snd lp))).
  change (dead (set_live s0 cl)) with (dead s). rewrite Hrund.
  unfold se_bind, se_modify, se_ret.
  eexists. split; [reflexivity|].
  split; [repeat split; try assumption; apply Hcl || apply Hcd|].
  split; [exact Hnl|].
  split.
  { intros j p Hj. exact (Hptsl j p Hj). }
  split.
  { cbn [dead set_logZ set_dead]. rewrite Hnd. unfold pairs.
    rewrite length_zip, !length_drop. change k with (last_point_callback s).
    lia. }
  split; [exact Hcellsd|].
  split; [|repeat split].
  intros j w p Hw Hp. cbn [dead set_logZ set_dead].
  apply (Hptsd j (w, p)). unfold pairs.
  apply lookup_zip_Some. rewrite !lookup_drop. split; assumption.
Qed.

Lemma dumper_stores_points_witness :
  let s := initialize example_model None 2 None in
  let pt := [0.5; 0.25; 7; -1; -2; -3]%float in
  exists s',
    dumper default_globals (fun x => x) None [pt; pt; pt] [pt; pt]
      [0.5; 0.5]%float 1%float 2%float s = (OK tt, s') /\
    __len__ (live s') = 3%nat /\ __len__ (dead s') = 2%nat /\
    cell (live s') 2 "b" = Some 0.25%float /\
    cell (dead s') 1 _weight = Some 0.5%float.
Proof.
  intros s pt.
  destruct (dumper_stores_points default_globals (fun x => x)
              [pt; pt; pt] [pt; pt] [0.5; 0.5]%float 1%float 2%float s)
    as (s' & Hrun & _ & Hl & Hlp & Hd & _ & Hdp & _).
  - assert (Hnd : NoDup (base_columns example_model)).
    { vm_compute. repeat constructor; intros H;
        repeat (apply elem_of_cons in H as [H|H]; [discriminate H|]);
        inversion H. }
    split; [reflexivity|]. split; [reflexivity|].
    split; [|split; [|split; [reflexivity|simpl; lia]]];
      apply init_made_for; exact Hnd.
  - intros p Hp. assert (p = pt) as ->.
    { destruct Hp as [Hp|Hp];
        repeat (apply elem_of_cons in Hp as [Hp|Hp]; [exact Hp|]);
        inversion Hp. }
    vm_compute. lia.
  - exists s'. split; [exact Hrun|]. split; [exact Hl|]. split; [exact Hd|].
    assert (Hb : sampled_params (live s') !! 1%nat = Some "b").
    { replace s' with
        (snd (dumper default_globals (fun x => x) None [pt; pt; pt] [pt; pt]
                [0.5; 0.5]%float 1%float 2%float s))
        by (rewrite Hrun; reflexivity).
      vm_compute. reflexivity. }
    split.
    + destruct (Hlp 2%nat pt ltac:(reflexivity))
        as (_ & _ & _ & _ & _ & Hs & _).
      exact (Hs 1%nat "b" 0.25%float Hb ltac:(reflexivity)).
    + exact (proj1 (Hdp 1%nat 0.5%float pt ltac:(reflexivity)
                      ltac:(reflexivity))).
Defined.

(** The call of [add] that [save_sample] makes for a row. *)
Lemma add_row_fits (g : globals) (self : Polychord.t) (row : list float)
    (c : Collection.t) :
  n_sampled self = length (model_sampled_params (the_model self)) ->
  n_derived self = length (model_derived_params (the_model self)) ->
  (2 + n_sampled self + n_derived self <= length row)%nat ->
  made_for (the_model self) c ->
  let values :=
    py_getslice row (Some 2) (Some (Z.of_nat (2 + n_sampled self))) in
  let derived :=
    py_getslice row (Some (Z.of_nat (2 + n_sampled self)))
      (Some (Z.of_nat (2 + n_sampled self + n_derived self))) in
  let logpriors :=
    py_getslice row (Some (- Z.of_nat (n_priors self + n_likes self)))
      (Some (- Z.of_nat (n_likes self))) in
  let loglikes :=
    py_getslice row (Some (- Z.of_nat (n_likes self))) None in
  add_row g self row c =
    add g values (Some derived) (PyFloat (default nan (row !! 0%nat))) None
      (Some logpriors) (Some loglikes) c /\
  fitting c values (Some derived) None (Some logpriors) (Some loglikes).
Proof.
  intros Hs Hd Hlen (_ & _ & _ & Hsp & Hdp & _).
  destruct row as [|w row']; [simpl in Hlen; lia|].
  cbv zeta. split; [reflexivity|].
  unfold fitting.
  change 2 with (Z.of_nat 2). rewrite !py_getslice_nonneg, Hsp, Hdp.
  split; [rewrite length_drop, length_take; lia|].
  split; [|intros _; split; discriminate].
  intros dv [= <-]. rewrite length_drop, length_take.
  cbn [length] in Hlen. lia.
Qed.

(** X19.  [save_sample] gives nothing for a sample without values.  For a
    sample of rows that have at least the two first columns, the sampled
    and the derived values, with the model's column names all different,
    it gives a collection of one sample for each row, and with the text
    driver the file holds the header and those samples, all written. *)
Theorem save_sample_stores_rows (g : globals) (self : Polychord.t)
    (sample : list (list float)) (fs : option (list line)) :
  n_sampled self = length (model_sampled_params (the_model self)) ->
  n_derived self = length (model_derived_params (the_model self)) ->
  NoDup (base_columns (the_model self)) ->
  factor_if_true g = None -> 0 < enlargement_size g ->
  (sum_list (length <$> sample) = 0%nat -> save_sample g self sample fs = None)
  /\
  (sample <> [] ->
   (forall row, row ∈ sample ->
      (2 + n_sampled self + n_derived self <= length row)%nat) ->
   exists c,
     save_sample g self sample fs = Some (OK tt, c) /\
     __len__ c = length sample /\
     (output self = Some Txt ->
        _n_last_out c = __len__ c /\
        file c = Some (HeaderLine (columns c)
                         :: map DataLine (filled_rows c)))).
Proof.
  intros Hs Hd Hnd Hf Hsize. unfold save_sample. split.
  { intros H0. destruct (decide _); [reflexivity|contradiction]. }
  intros Hne Hrows.
  destruct (decide (sum_list (length <$> sample) = 0%nat)) as [H0|_].
  { exfalso. destruct sample as [|row sample']; [contradiction|].
    pose proof (Hrows row ltac:(left)). simpl in H0. lia. }
  set (c0 := init (the_model self) (output self) 100 fs).
  assert (Hc0 : made_for (the_model self) c0)
    by (apply init_made_for; exact Hnd).
  destruct (se_for_adds (the_model self) g (add_row g self)
              (fun row =>
                 py_getslice row (Some 2)
                   (Some (Z.of_nat (2 + n_sampled self))))
              (fun row =>
                 Some (py_getslice row
                         (Some (Z.of_nat (2 + n_sampled self)))
                         (Some (Z.of_nat (2 + n_sampled self
                                          + n_derived self)))))
              (fun row => PyFloat (default nan (row !! 0%nat)))
              (fun _ => None)
              (fun row =>
                 Some (py_getslice row
                         (Some (- Z.of_nat (n_priors self + n_likes self)))
                         (Some (- Z.of_nat (n_likes self)))))
              (fun row =>
                 Some (py_getslice row (Some (- Z.of_nat (n_likes self)))
                         None))
              sample Hf Hsize
              ltac:(intros row c Hrow Hc;
                    destruct (add_row_fits g self row c Hs Hd
                                (Hrows row Hrow) Hc) as [E1 E2];
                    split; [exact E1|]; split; [exact E2|reflexivity])
              c0 Hc0)
    as (c1 & Hrun & Hc1 & Hn1 & Hm1 & _).
  unfold se_bind at 1. rewrite Hrun.
  pose proof (out_update_unfold c1) as Hup.
  destruct (_out_update c1) as [r c2] eqn:Hup'.
  injection Hup as -> Hc2.
  exists c2. split; [reflexivity|].
  assert (Hlen : __len__ c2 = __len__ c1).
  { rewrite Hc2. destruct (driver c1); [|reflexivity].
    destruct (decide _); reflexivity. }
  change (__len__ c0) with 0%nat in Hn1.
  split; [rewrite Hlen, Hn1; lia|].
  intros Hout.
  assert (Hmir : mirrors c2).
  { replace c2 with (snd (_out_update c1)) by (rewrite Hup'; reflexivity).
    apply mirrors_update. apply Hm1. unfold c0. rewrite Hout.
    apply mirrors_init. }
  assert (Hlast : _n_last_out c2 = __len__ c2).
  { rewrite Hlen, Hc2.
    destruct Hmir as (Hdrv & _). rewrite Hc2 in Hdrv.
    destruct (driver c1) eqn:Hd1.
    - destruct (decide (_n_last_out c1 = __len__ c1)); [assumption|].
      reflexivity.
    - simpl in Hdrv. congruence. }
  split; [exact Hlast|].
  destruct Hmir as (_ & _ & _ & Hfile). rewrite Hfile, Hlast.
  unfold file_of_rows, filled_rows.
  destruct (__len__ c2) as [|n] eqn:E; [|reflexivity].
  destruct sample; [contradiction|]. simpl in Hn1. lia.
Qed.

Lemma save_sample_stores_rows_witness :
  let self := initialize example_model (Some Txt) 2 None in
  let row := [1; 4; 0.5; 0.25; 7; -1; -2; -3]%float in
  exists c,
    save_sample default_globals self [row; row] None = Some (OK tt, c) /\
    __len__ c = 2%nat /\
    count_headers (file c) = 1%nat.
Proof.
  intros self row.
  destruct (proj2 (save_sample_stores_rows default_globals self [row; row]
                     None
                     ltac:(reflexivity) ltac:(reflexivity)
                     ltac:(vm_compute; repeat constructor; intros H;
                           repeat (apply elem_of_cons in H as [H|H];
                                   [discriminate H|]);
                           inversion H)
                     ltac:(reflexivity) ltac:(simpl; lia))
              ltac:(discriminate)
              ltac:(intros r Hr;
                    assert (r = row) as ->
                      by (repeat (apply elem_of_cons in Hr as [Hr|Hr];
                                  [exact Hr|]); inversion Hr);
                    vm_compute; lia))
    as (c & Hrun & Hn & Hout).
  exists c. split; [exact Hrun|]. split; [exact Hn|].
  destruct (Hout eq_refl) as [_ Hfile]. rewrite Hfile.
  unfold count_headers. simpl. f_equal.
  generalize (filled_rows c) as rows.
  induction rows as [|r rows IH]; [reflexivity|exact IH].
Defined.

End PolychordFacts.

Section LogpostValue.
Import Polychord.

Lemma float_ltb_irrefl (x : float) : (x <? x)%float = false.
Proof.
  rewrite ltb_spec. unfold SFltb, SFcompare.
  destruct (Prim2SF x) as [s|s| |s m e]; try reflexivity.
  - destruct s; reflexivity.
  - destruct s; rewrite Z.compare_refl, ?Pos.compare_refl; try reflexivity.
Qed.

(** X20.  The value [logpost] gives to PolyChord is [logzero] when the
    log-posterior plus the log-volume is below [logzero], and that sum
    otherwise, a NaN included; so it is never below [logzero]. *)
Theorem logpost_value_floor (logposterior logvolume logzero : float) :
  (((logposterior + logvolume) <? logzero)%float = true ->
   logpost_value logposterior logvolume logzero = logzero) /\
  (((logposterior + logvolume) <? logzero)%float = false ->
   logpost_value logposterior logvolume logzero
     = (logposterior + logvolume)%float) /\
  (logpost_value logposterior logvolume logzero <? logzero)%float = false.
Proof.
  unfold logpost_value. cbv zeta.
  destruct ((logposterior + logvolume) <? logzero)%float eqn:E.
  - split; [reflexivity|]. split; [discriminate|apply float_ltb_irrefl].
  - split; [discriminate|]. split; [reflexivity|exact E].
Qed.

Lemma logpost_value_floor_witness :
  logpost_value (-5)%float 0%float (-1)%float = (-1)%float /\
  logpost_value nan 0%float (-1)%float = (nan + 0)%float.
Proof.
  split.
  - exact (proj1 (logpost_value_floor (-5)%float 0%float (-1)%float)
             ltac:(vm_compute; reflexivity)).
  - exact (proj1 (proj2 (logpost_value_floor nan 0%float (-1)%float))
             ltac:(vm_compute; reflexivity)).
Defined.

End LogpostValue.
